(** * Context bundle generator (app.py): embedding and verified properties

    The program walks a project directory, filters files, optionally
    minifies their contents and concatenates everything into one annotated
    text document.  This development embeds app.py function by function:

    - Python [str] values are lists of Unicode code points ([list N]), so
      that the UTF-8 byte count and the character count of a text differ
      the way they do in Python;
    - the directory tree is an inductive snapshot of what [os.walk] sees
      (the output file is assumed to live outside the walked tree);
    - the third-party collaborators (jsmin, csscompressor, htmlmin,
      pathspec, the float conversions used by the json module) are fields
      of a record [Libs]; a collaborator that raises returns [None];
    - [print] is a list of messages returned next to the result;
    - Python floats are IEEE binary64 values of [SpecFloat]. *)

From Stdlib Require Import ZArith NArith List Bool Lia String Ascii.
From Stdlib Require Import Floats.SpecFloat.
From Stdlib Require DecimalFacts DecimalPos DecimalN.
Import ListNotations.

#[local] Set Warnings "-register-all".

Local Open Scope list_scope.

(** ** Python strings *)

Abbreviation char := N (only parsing).
Abbreviation str := (list N) (only parsing).

(** An ASCII literal of the source, as a list of code points. *)
Definition py (x : string) : str :=
  map N_of_ascii (list_ascii_of_string x).

(** The same, for a literal that holds double quotes: the apostrophe
    stands for the double quote. *)
Definition pyq (x : string) : str :=
  map (fun c => if (c =? 39)%N then 34%N else c) (py x).

Fixpoint str_eqb (a b : str) : bool :=
  match a, b with
  | [], [] => true
  | x :: a', y :: b' => N.eqb x y && str_eqb a' b'
  | _, _ => false
  end.

(** [s.startswith(p)] *)
Fixpoint startswith (p s : str) : bool :=
  match p, s with
  | [], _ => true
  | x :: p', y :: s' => N.eqb x y && startswith p' s'
  | _ :: _, [] => false
  end.

(** [s.endswith(p)] *)
Definition endswith (p s : str) : bool :=
  startswith (rev p) (rev s).

(** [p in s] *)
Fixpoint contains (p s : str) : bool :=
  startswith p s ||
  match s with
  | [] => false
  | _ :: s' => contains p s'
  end.

(** [s.find(p)], [None] for -1 *)
Fixpoint find (p s : str) : option nat :=
  if startswith p s then Some 0
  else match s with
       | [] => None
       | _ :: s' => option_map S (find p s')
       end.

(** [s.count(c)] for a one-character [c] *)
Definition count_char (c : char) (s : str) : nat :=
  List.length (filter (N.eqb c) s).

(** [s.replace(old, '')]: every non-overlapping occurrence of [old],
    scanning from the left, is dropped.  [skip] counts the characters of
    the current occurrence that are still to be dropped.  An empty [old]
    with an empty replacement leaves the string as it is. *)
Fixpoint replace_drop (skip : nat) (old s : str) : str :=
  match s with
  | [] => []
  | c :: s' =>
      match skip with
      | S k => replace_drop k old s'
      | O =>
          match old with
          | [] => c :: replace_drop 0 old s'
          | _ :: old' =>
              if startswith old s then replace_drop (List.length old') old s'
              else c :: replace_drop 0 old s'
          end
      end
  end.

Definition replace_with_empty (old s : str) : str := replace_drop 0 old s.

(** [s.split(c)] for a one-character separator: never an empty list. *)
Fixpoint split_char (c : char) (s : str) : list str :=
  match s with
  | [] => [[]]
  | x :: s' =>
      if N.eqb x c then [] :: split_char c s'
      else match split_char c s' with
           | [] => [[x]]
           | w :: ws => (x :: w) :: ws
           end
  end.

(** [sep.join(l)] *)
Fixpoint join (sep : str) (l : list str) : str :=
  match l with
  | [] => []
  | [w] => w
  | w :: ws => w ++ sep ++ join sep ws
  end.

(** [Py_UNICODE_ISSPACE]: what [str.isspace], [str.split()], [str.strip()]
    and the pattern [\s] of [re] on [str] accept. *)
Definition is_space (c : char) : bool :=
  ((9 <=? c) && (c <=? 13) || (28 <=? c) && (c <=? 32) ||
   (c =? 133) || (c =? 160) || (c =? 5760) ||
   (8192 <=? c) && (c <=? 8202) || (c =? 8232) || (c =? 8233) ||
   (c =? 8239) || (c =? 8287) || (c =? 12288))%N.

Fixpoint lstrip (s : str) : str :=
  match s with
  | [] => []
  | c :: s' => if is_space c then lstrip s' else s
  end.

Definition rstrip (s : str) : str := rev (lstrip (rev s)).

(** [s.strip()] *)
Definition strip (s : str) : str := rstrip (lstrip s).

(** [s.split()]: the maximal runs of non-space characters.  [cur] is the
    word being read, reversed. *)
Fixpoint split_ws_aux (cur : str) (s : str) : list str :=
  match s with
  | [] => match cur with [] => [] | _ => [rev cur] end
  | c :: s' =>
      if is_space c then
        match cur with
        | [] => split_ws_aux [] s'
        | _ => rev cur :: split_ws_aux [] s'
        end
      else split_ws_aux (c :: cur) s'
  end.

Definition split_ws (s : str) : list str := split_ws_aux [] s.

(** [s.lower()], on the code points whose lower case is an ASCII letter:
    A-Z and the Kelvin sign.  Every other code point with a lower-case
    mapping is sent outside ASCII by Python, so leaving it in place does
    not change any comparison with the ASCII extensions of this program. *)
Definition lower_char (c : char) : char :=
  if ((65 <=? c) && (c <=? 90))%N then (c + 32)%N
  else if (c =? 8490)%N then 107%N
  else c.

Definition lower (s : str) : str := map lower_char s.

(** Code point order on strings, as [sorted] uses it. *)
Fixpoint str_leb (a b : str) : bool :=
  match a, b with
  | [], _ => true
  | _ :: _, [] => false
  | x :: a', y :: b' =>
      if (x <? y)%N then true
      else if (y <? x)%N then false
      else str_leb a' b'
  end.

Fixpoint insert_sorted (x : str) (l : list str) : list str :=
  match l with
  | [] => [x]
  | y :: l' => if str_leb x y then x :: l else y :: insert_sorted x l'
  end.

(** [sorted(l)] on a list of strings (stable). *)
Definition sorted (l : list str) : list str :=
  fold_right insert_sorted [] l.

(** [str(n)] for a natural number. *)
Fixpoint uint_chars (d : Decimal.uint) : str :=
  match d with
  | Decimal.Nil => []
  | Decimal.D0 d' => 48%N :: uint_chars d'
  | Decimal.D1 d' => 49%N :: uint_chars d'
  | Decimal.D2 d' => 50%N :: uint_chars d'
  | Decimal.D3 d' => 51%N :: uint_chars d'
  | Decimal.D4 d' => 52%N :: uint_chars d'
  | Decimal.D5 d' => 53%N :: uint_chars d'
  | Decimal.D6 d' => 54%N :: uint_chars d'
  | Decimal.D7 d' => 55%N :: uint_chars d'
  | Decimal.D8 d' => 56%N :: uint_chars d'
  | Decimal.D9 d' => 57%N :: uint_chars d'
  end.

Definition str_of_N (n : N) : str := uint_chars (N.to_uint n).

(** [str(z)] for an integer. *)
Definition str_of_Z (z : Z) : str :=
  match z with
  | Zneg p => 45%N :: str_of_N (Npos p)
  | _ => str_of_N (Z.to_N z)
  end.

(** ** UTF-8 *)

Definition is_surrogate (c : char) : bool := ((55296 <=? c) && (c <=? 57343))%N.

(** The bytes of one code point; [None] where Python raises
    [UnicodeEncodeError] (a surrogate) or the value is no code point. *)
Definition utf8_encode_char (c : char) : option (list N) :=
  (if c <? 128 then Some [c]
   else if c <? 2048 then Some [192 + c / 64; 128 + c mod 64]
   else if is_surrogate c then None
   else if c <? 65536 then
     Some [224 + c / 4096; 128 + (c / 64) mod 64; 128 + c mod 64]
   else if c <? 1114112 then
     Some [240 + c / 262144; 128 + (c / 4096) mod 64;
           128 + (c / 64) mod 64; 128 + c mod 64]
   else None)%N.

(** [s.encode('utf-8')] *)
Fixpoint utf8_encode (s : str) : option (list N) :=
  match s with
  | [] => Some []
  | c :: s' =>
      match utf8_encode_char c, utf8_encode s' with
      | Some b, Some bs => Some (b ++ bs)
      | _, _ => None
      end
  end.

(** A text that [f.read()] can return: code points, none a surrogate. *)
Definition valid_char (c : char) : bool :=
  (c <? 1114112)%N && negb (is_surrogate c).

Definition valid_text (s : str) : bool := forallb valid_char s.

(** ** Exceptions and printed messages *)

Inductive exn :=
| ZeroDivisionError
| OverflowError
| UnicodeDecodeError
| UnicodeEncodeError
| OSError
| MinifierError.

Inductive result (A : Type) :=
| Ok (a : A)
| Raise (e : exn).

Arguments Ok {A} a.
Arguments Raise {A} e.

Definition bind {A B : Type} (r : result A) (k : A -> result B) : result B :=
  match r with
  | Ok a => k a
  | Raise e => Raise e
  end.

Notation "x <- r ;; k" := (bind r (fun x => k))
  (at level 61, r at next level, right associativity).

(** What the program prints; the text of the exception that some of the
    messages end with is not modelled. *)
Inductive message :=
| Warning_gitignore
| Warning_minification_failed (file_type : str)
| Warning_skipping_binary (file_path : str)
| Error_processing (file_path : str)
| Error_writing_output
| Error_not_a_directory (directory : str)
| Success_generated (output : str)
| Error_top.

(** ** Python floats: binary64 *)

Definition float := spec_float.

(** [float(z)] *)
Definition float_of_Z (z : Z) : float := binary_normalize 53 1024 z 0 false.

(** [a / b] on integers: the correctly rounded quotient. *)
Definition int_true_div (a b : Z) : result float :=
  match b with
  | Z0 => Raise ZeroDivisionError
  | _ =>
      match a with
      | Z0 => Ok (S754_zero (b <? 0)%Z)
      | _ =>
          match SFdiv 53 1024
                  (S754_finite (a <? 0)%Z (Z.to_pos (Z.abs a)) 0)
                  (S754_finite (b <? 0)%Z (Z.to_pos (Z.abs b)) 0) with
          | S754_infinity _ => Raise OverflowError
          | r => Ok r
          end
      end
  end.

(** [x * 100] for a float [x] *)
Definition float_mul_100 (x : float) : float :=
  SFmul 53 1024 x (float_of_Z 100).

(** [n / d] rounded to the nearest integer, ties to even ([0 <= n], [0 < d]). *)
Definition round_half_even_div (n d : Z) : Z :=
  let q := (n / d)%Z in
  match (2 * (n mod d) ?= d)%Z with
  | Lt => q
  | Gt => (q + 1)%Z
  | Eq => if Z.even q then q else (q + 1)%Z
  end.

(** [f"{x:.1f}"]: the exact value of [x] rounded to one decimal. *)
Definition format_1f (x : float) : str :=
  match x with
  | S754_nan => py "nan"
  | S754_infinity s => if s then py "-inf" else py "inf"
  | S754_zero s => (if s then py "-" else []) ++ py "0.0"
  | S754_finite s m e =>
      let t :=
        match e with
        | Zneg p => round_half_even_div (10 * Zpos m) (2 ^ Zpos p)
        | _ => (10 * Zpos m * 2 ^ e)%Z
        end in
      (if s then py "-" else []) ++
      str_of_Z (t / 10) ++ py "." ++ str_of_Z (t mod 10)
  end.

(** [f"{n:,}"]: the digits in groups of three. *)
Fixpoint group_thousands (k : nat) (rev_digits : str) : str :=
  match rev_digits with
  | [] => []
  | c :: s' =>
      match k with
      | 3 => 44%N :: c :: group_thousands 1 s'
      | _ => c :: group_thousands (S k) s'
      end
  end.

Definition format_thousands (z : Z) : str :=
  match z with
  | Zneg p => 45%N :: rev (group_thousands 0 (rev (str_of_N (Npos p))))
  | _ => rev (group_thousands 0 (rev (str_of_N (Z.to_N z))))
  end.

(** ** os.path and pathlib (POSIX) *)

Definition sep : char := 47%N.

Definition is_nil {A : Type} (l : list A) : bool :=
  match l with [] => true | _ => false end.

(** [os.path.join(a, b)] *)
Definition os_path_join (a b : str) : str :=
  if startswith [sep] b then b
  else if is_nil a || endswith [sep] a then a ++ b
  else a ++ [sep] ++ b.

(** [os.path.basename(p)] *)
Definition os_path_basename (p : str) : str := last (split_char sep p) [].

(** One turn of the loop of [os.path.normpath]. *)
Definition normpath_push (initial_slashes : nat) (new_comps : list str)
  (comp : str) : list str :=
  if str_eqb comp [] || str_eqb comp (py ".") then new_comps
  else if negb (str_eqb comp (py "..")) ||
          (Nat.eqb initial_slashes 0 && is_nil new_comps) ||
          (negb (is_nil new_comps) && str_eqb (last new_comps []) (py ".."))
       then new_comps ++ [comp]
       else removelast new_comps.

Definition initial_slashes_of (path : str) : nat :=
  if startswith [sep] path then
    if startswith [sep; sep] path && negb (startswith [sep; sep; sep] path)
    then 2 else 1
  else 0.

Definition normpath_comps (path : str) : list str :=
  fold_left (normpath_push (initial_slashes_of path)) (split_char sep path) [].

(** [os.path.normpath(path)] *)
Definition os_path_normpath (path : str) : str :=
  match path with
  | [] => py "."
  | _ =>
      match repeat sep (initial_slashes_of path) ++
            join [sep] (normpath_comps path) with
      | [] => py "."
      | p => p
      end
  end.

(** [os.path.abspath(path)], [cwd] being [os.getcwd()]. *)
Definition os_path_abspath (cwd path : str) : str :=
  os_path_normpath (if startswith [sep] path then path
                    else os_path_join cwd path).

Fixpoint commonprefix_len (a b : list str) : nat :=
  match a, b with
  | x :: a', y :: b' => if str_eqb x y then S (commonprefix_len a' b') else 0
  | _, _ => 0
  end.

Definition path_list (cwd path : str) : list str :=
  filter (fun x => negb (is_nil x)) (split_char sep (os_path_abspath cwd path)).

(** [os.path.relpath(path, start)].  Python raises [ValueError] for an
    empty [path]; the program only passes [os.path.join(root, name)] with
    a non-empty [root], so that case is left to the general computation.
    The components of [rel_list] hold no separator, so joining them with
    [os.path.join] is joining them with [sep]. *)
Definition os_path_relpath (cwd path start : str) : str :=
  let start_list := path_list cwd start in
  let path_list := path_list cwd path in
  let i := commonprefix_len start_list path_list in
  let rel_list :=
    repeat (py "..") (List.length start_list - i) ++ skipn i path_list in
  match rel_list with
  | [] => py "."
  | _ => join [sep] rel_list
  end.

(** [Path(p).name]: the last component that is neither empty nor ".". *)
Definition path_name (p : str) : str :=
  last (filter (fun x => negb (is_nil x) && negb (str_eqb x (py ".")))
          (split_char sep p)) [].

(** The part of [name] from its last dot on, when that dot is neither the
    first nor the last character.  [r] is [name] reversed, [acc] the
    characters after the dot read so far. *)
Fixpoint suffix_from_rev (acc : str) (r : str) : str :=
  match r with
  | [] => []
  | c :: r' =>
      if (c =? 46)%N then
        match acc, r' with
        | [], _ => []
        | _, [] => []
        | _, _ => c :: acc
        end
      else suffix_from_rev (c :: acc) r'
  end.

(** [Path(p).suffix] *)
Definition path_suffix (p : str) : str :=
  suffix_from_rev [] (rev (path_name p)).

(** ** The collaborators

    Third-party code the program calls.  A minifier that raises returns
    [None]; [pathspec_match lines p] is
    [PathSpec.from_lines('gitwildmatch', lines).match_file(p)];
    [float_of_literal] is [float] on a JSON number literal and
    [float_repr] is [float.__repr__]. *)
Record Libs := {
  jsmin_jsmin : str -> option str;
  csscompressor_compress : str -> option str;
  htmlmin_minify : str -> option str;
  pathspec_match : list str -> str -> bool;
  float_of_literal : str -> float;
  float_repr : float -> str
}.

(** ** The json module: [json.loads] and [json.dumps] *)

Inductive json :=
| JNull
| JBool (b : bool)
| JInt (z : Z)
| JFloat (f : float)
| JString (s : str)
| JArray (l : list json)
| JObject (d : list (str * json)).

Definition is_json_ws (c : char) : bool :=
  ((c =? 32) || (c =? 9) || (c =? 10) || (c =? 13))%N.

Fixpoint skip_ws (s : str) : str :=
  match s with
  | [] => []
  | c :: s' => if is_json_ws c then skip_ws s' else s
  end.

Definition is_digit (c : char) : bool := ((48 <=? c) && (c <=? 57))%N.

Definition hex_value (c : char) : option N :=
  (if is_digit c then Some (c - 48)
   else if (97 <=? c) && (c <=? 102) then Some (c - 87)
   else if (65 <=? c) && (c <=? 70) then Some (c - 55)
   else None)%N.

Definition hex4_value (a b c d : char) : option N :=
  match hex_value a, hex_value b, hex_value c, hex_value d with
  | Some x, Some y, Some z, Some w => Some (((x * 16 + y) * 16 + z) * 16 + w)%N
  | _, _, _, _ => None
  end.

Definition is_high_surrogate (c : char) : bool := ((55296 <=? c) && (c <=? 56319))%N.
Definition is_low_surrogate (c : char) : bool := ((56320 <=? c) && (c <=? 57343))%N.

Definition join_surrogates (hi lo : char) : char :=
  (65536 + (hi - 55296) * 1024 + (lo - 56320))%N.

(** The character a one-letter escape stands for. *)
Definition unescape (e : char) : option char :=
  (if e =? 34 then Some 34
   else if e =? 92 then Some 92
   else if e =? 47 then Some 47
   else if e =? 98 then Some 8
   else if e =? 102 then Some 12
   else if e =? 110 then Some 10
   else if e =? 114 then Some 13
   else if e =? 116 then Some 9
   else None)%N.

Definition cons_result (c : char) (r : option (str * str)) : option (str * str) :=
  match r with
  | Some (x, rest) => Some (c :: x, rest)
  | None => None
  end.

(** [scanstring] (strict): [s] starts after the opening quote; the result
    is the decoded string and what follows the closing quote. *)
Fixpoint scanstring (s : str) : option (str * str) :=
  match s with
  | [] => None
  | c :: t =>
      if (c =? 34)%N then Some ([], t)
      else if (c =? 92)%N then
        match t with
        | [] => None
        | e :: t' =>
            if (e =? 117)%N then
              match t' with
              | a :: b :: c1 :: d :: t2 =>
                  match hex4_value a b c1 d with
                  | None => None
                  | Some u =>
                      match t2 with
                      | x :: y :: a' :: b' :: c' :: d' :: t4 =>
                          match (if is_high_surrogate u && (x =? 92)%N && (y =? 117)%N
                                 then hex4_value a' b' c' d' else None) with
                          | Some u2 =>
                              if is_low_surrogate u2
                              then cons_result (join_surrogates u u2) (scanstring t4)
                              else cons_result u (scanstring t2)
                          | None => cons_result u (scanstring t2)
                          end
                      | _ => cons_result u (scanstring t2)
                      end
                  end
              | _ => None
              end
            else
              match unescape e with
              | Some ch => cons_result ch (scanstring t')
              | None => None
              end
        end
      else if (c <? 32)%N then None
      else cons_result c (scanstring t)
  end.

(** The longest prefix of digits, and the rest. *)
Fixpoint span_digits (s : str) : str * str :=
  match s with
  | [] => ([], [])
  | c :: s' =>
      if is_digit c then let (ds, r) := span_digits s' in (c :: ds, r)
      else ([], s)
  end.

Definition scan_int_part (s : str) : option (str * str) :=
  match s with
  | [] => None
  | c :: t =>
      if ((49 <=? c) && (c <=? 57))%N then
        let (ds, r) := span_digits t in Some (c :: ds, r)
      else if (c =? 48)%N then Some ([c], t)
      else None
  end.

Definition scan_frac (r : str) : str * str :=
  match r with
  | p :: d :: t =>
      if (p =? 46)%N && is_digit d then
        let (fd, r2) := span_digits t in (p :: d :: fd, r2)
      else ([], r)
  | _ => ([], r)
  end.

Definition scan_exp (r : str) : str * str :=
  match r with
  | e :: t =>
      if ((e =? 101) || (e =? 69))%N then
        let (sg, t2) :=
          match t with
          | x :: t2 => if ((x =? 45) || (x =? 43))%N then ([x], t2) else ([], t)
          | [] => ([], t)
          end in
        let (ed, r3) := span_digits t2 in
        match ed with
        | [] => ([], r)
        | _ => (e :: sg ++ ed, r3)
        end
      else ([], r)
  | [] => ([], r)
  end.

(** The number at the head of [s]: whether it is a float, its text, and
    the rest ([_match_number_unicode]). *)
Definition scan_number (s : str) : option (bool * str * str) :=
  let (sign, s1) :=
    match s with
    | c :: t => if (c =? 45)%N then ([c], t) else ([], s)
    | [] => ([], s)
    end in
  match scan_int_part s1 with
  | None => None
  | Some (ip, r) =>
      let (frac, r2) := scan_frac r in
      let (exp, r3) := scan_exp r2 in
      Some (negb (is_nil frac && is_nil exp), sign ++ ip ++ frac ++ exp, r3)
  end.

Fixpoint uint_of_chars (s : str) : Decimal.uint :=
  match s with
  | [] => Decimal.Nil
  | c :: s' =>
      let d := uint_of_chars s' in
      (if c =? 48 then Decimal.D0 d
       else if c =? 49 then Decimal.D1 d
       else if c =? 50 then Decimal.D2 d
       else if c =? 51 then Decimal.D3 d
       else if c =? 52 then Decimal.D4 d
       else if c =? 53 then Decimal.D5 d
       else if c =? 54 then Decimal.D6 d
       else if c =? 55 then Decimal.D7 d
       else if c =? 56 then Decimal.D8 d
       else Decimal.D9 d)%N
  end.

(** [int(s)] on an integer literal *)
Definition int_of_literal (s : str) : Z :=
  match s with
  | c :: t =>
      if (c =? 45)%N then Z.opp (Z.of_N (N.of_uint (uint_of_chars t)))
      else Z.of_N (N.of_uint (uint_of_chars s))
  | [] => 0%Z
  end.

(** Storing a key of an object: the last value wins, at the place of the
    first occurrence. *)
Fixpoint dict_set (d : list (str * json)) (k : str) (v : json) : list (str * json) :=
  match d with
  | [] => [(k, v)]
  | (k', v') :: d' =>
      if str_eqb k' k then (k', v) :: d' else (k', v') :: dict_set d' k v
  end.

Section Json.
Context (L : Libs).

Definition match_number (s : str) : option (json * str) :=
  match scan_number s with
  | Some (true, lex, r) => Some (JFloat (float_of_literal L lex), r)
  | Some (false, lex, r) => Some (JInt (int_of_literal lex), r)
  | None => None
  end.

(** [scan_once] with the array and object loops; [fuel] bounds the
    nesting of calls. *)
Fixpoint scan_once (fuel : nat) (s : str) {struct fuel} : option (json * str) :=
  match fuel with
  | O => None
  | S n =>
      match s with
      | [] => None
      | c :: t =>
          if (c =? 34)%N then
            match scanstring t with
            | Some (x, r) => Some (JString x, r)
            | None => None
            end
          else if (c =? 123)%N then
            match skip_ws t with
            | c1 :: t1 =>
                if (c1 =? 125)%N then Some (JObject [], t1)
                else parse_members n [] (c1 :: t1)
            | [] => None
            end
          else if (c =? 91)%N then
            match skip_ws t with
            | c1 :: t1 =>
                if (c1 =? 93)%N then Some (JArray [], t1)
                else parse_elements n [] (c1 :: t1)
            | [] => None
            end
          else if startswith (py "null") s then Some (JNull, skipn 4 s)
          else if startswith (py "true") s then Some (JBool true, skipn 4 s)
          else if startswith (py "false") s then Some (JBool false, skipn 5 s)
          else if startswith (py "NaN") s then Some (JFloat S754_nan, skipn 3 s)
          else if startswith (py "Infinity") s
               then Some (JFloat (S754_infinity false), skipn 8 s)
          else if startswith (py "-Infinity") s
               then Some (JFloat (S754_infinity true), skipn 9 s)
          else match_number s
      end
  end
with parse_elements (fuel : nat) (acc : list json) (s : str) {struct fuel}
  : option (json * str) :=
  match fuel with
  | O => None
  | S n =>
      match scan_once n s with
      | None => None
      | Some (v, r) =>
          match skip_ws r with
          | c :: t =>
              if (c =? 93)%N then Some (JArray (rev (v :: acc)), t)
              else if (c =? 44)%N then parse_elements n (v :: acc) (skip_ws t)
              else None
          | [] => None
          end
      end
  end
with parse_members (fuel : nat) (acc : list (str * json)) (s : str) {struct fuel}
  : option (json * str) :=
  match fuel with
  | O => None
  | S n =>
      match s with
      | c :: t =>
          if (c =? 34)%N then
            match scanstring t with
            | None => None
            | Some (k, r) =>
                match skip_ws r with
                | c2 :: t2 =>
                    if (c2 =? 58)%N then
                      match scan_once n (skip_ws t2) with
                      | None => None
                      | Some (v, r2) =>
                          match skip_ws r2 with
                          | c3 :: t3 =>
                              if (c3 =? 125)%N
                              then Some (JObject (dict_set acc k v), t3)
                              else if (c3 =? 44)%N
                              then parse_members n (dict_set acc k v) (skip_ws t3)
                              else None
                          | [] => None
                          end
                      end
                    else None
                | [] => None
                end
            end
          else None
      | [] => None
      end
  end.

(** [json.loads(s)]; [None] where Python raises [JSONDecodeError]. *)
Definition json_loads (s : str) : option json :=
  match scan_once (2 * List.length s + 2) (skip_ws s) with
  | Some (v, r) => if is_nil (skip_ws r) then Some v else None
  | None => None
  end.

Definition hex_digit (n : N) : char :=
  (if n <? 10 then 48 + n else 87 + n)%N.

(** [\uXXXX] *)
Definition u_escape (c : N) : str :=
  [92; 117; hex_digit (c / 4096); hex_digit ((c / 256) mod 16);
   hex_digit ((c / 16) mod 16); hex_digit (c mod 16)]%N.

(** One character of a string, as [ensure_ascii] writes it. *)
Definition escape_char (c : char) : str :=
  (if c =? 34 then [92; 34]
   else if c =? 92 then [92; 92]
   else if c =? 10 then [92; 110]
   else if c =? 13 then [92; 114]
   else if c =? 9 then [92; 116]
   else if c =? 8 then [92; 98]
   else if c =? 12 then [92; 102]
   else if (32 <=? c) && (c <=? 126) then [c]
   else if c <? 65536 then u_escape c
   else u_escape (55296 + (c - 65536) / 1024) ++
        u_escape (56320 + (c - 65536) mod 1024))%N.

Definition encode_basestring_ascii (s : str) : str :=
  [34%N] ++ flat_map escape_char s ++ [34%N].

Definition floatstr (f : float) : str :=
  match f with
  | S754_nan => py "NaN"
  | S754_infinity false => py "Infinity"
  | S754_infinity true => py "-Infinity"
  | _ => float_repr L f
  end.

(** [json.dumps(v, separators=(',', ':'))] *)
Fixpoint json_dumps (v : json) : str :=
  match v with
  | JNull => py "null"
  | JBool b => if b then py "true" else py "false"
  | JInt z => str_of_Z z
  | JFloat f => floatstr f
  | JString s => encode_basestring_ascii s
  | JArray l => py "[" ++ join (py ",") (map json_dumps l) ++ py "]"
  | JObject d =>
      py "{" ++
      join (py ",")
        (map (fun kv => encode_basestring_ascii (fst kv) ++ py ":" ++
                        json_dumps (snd kv)) d) ++
      py "}"
  end.

End Json.

(** ** The regular expressions of the svelte branch

    [re.sub] scans from the left; where the pattern matches, the match is
    replaced and the scan goes on after it.  In the functions below [skip]
    counts the characters of the current match that are still to be
    passed over. *)

Definition nl : str := [10%N].

(** Length of the match of [<!--[\s\S]*?-->] at the head of [s]. *)
Definition match_comment (s : str) : option nat :=
  if startswith (py "<!--") s then
    match find (py "-->") (skipn 4 s) with
    | Some i => Some (4 + i + 3)
    | None => None
    end
  else None.

(** [re.sub(r'<!--[\s\S]*?-->', '', s)] *)
Fixpoint sub_comments_from (skip : nat) (s : str) : str :=
  match s with
  | [] => []
  | c :: s' =>
      match skip with
      | S k => sub_comments_from k s'
      | O =>
          match match_comment s with
          | Some n => sub_comments_from (n - 1) s'
          | None => c :: sub_comments_from 0 s'
          end
      end
  end.

Definition sub_comments (s : str) : str := sub_comments_from 0 s.

(** The match of [<tag[^>]*>([\s\S]*?)</tag>] at the head of [s], [open]
    being [<tag] and [close] being [</tag>]: the body (group 1) and the
    length of the match. *)
Definition match_block (open close : str) (s : str) : option (str * nat) :=
  if startswith open s then
    let r := skipn (List.length open) s in
    match find [62%N] r with
    | None => None
    | Some a =>
        let r2 := skipn (a + 1) r in
        match find close r2 with
        | None => None
        | Some b =>
            Some (firstn b r2,
                  List.length open + a + 1 + b + List.length close)
        end
    end
  else None.

(** [re.sub(pattern, lambda m: f'<tag>{f(m.group(1))}</tag>', s)];
    [None] when [f] raises. *)
Fixpoint sub_blocks_from (f : str -> option str) (open close : str)
  (skip : nat) (s : str) : option str :=
  match s with
  | [] => Some []
  | c :: s' =>
      match skip with
      | S k => sub_blocks_from f open close k s'
      | O =>
          match match_block open close s with
          | Some (body, n) =>
              match f body with
              | None => None
              | Some m =>
                  option_map (app (open ++ [62%N] ++ m ++ close))
                    (sub_blocks_from f open close (n - 1) s')
              end
          | None => option_map (cons c) (sub_blocks_from f open close 0 s')
          end
      end
  end.

Definition sub_blocks (f : str -> option str) (open close : str) (s : str)
  : option str := sub_blocks_from f open close 0 s.

(** [re.sub(r'\s+', ' ', s)] *)
Fixpoint sub_spaces_from (in_run : bool) (s : str) : str :=
  match s with
  | [] => []
  | c :: s' =>
      if is_space c then
        if in_run then sub_spaces_from true s'
        else 32%N :: sub_spaces_from true s'
      else c :: sub_spaces_from false s'
  end.

Definition sub_spaces (s : str) : str := sub_spaces_from false s.

(** Length of the match of [>\s+<] at the head of [s]. *)
Definition match_gap (s : str) : option nat :=
  match s with
  | c :: t =>
      if (c =? 62)%N then
        match lstrip t with
        | d :: t' =>
            if (d =? 60)%N && negb (Nat.eqb (List.length t) (S (List.length t')))
            then Some (List.length s - List.length t')
            else None
        | [] => None
        end
      else None
  | [] => None
  end.

(** [re.sub(r'>\s+<', '><', s)] *)
Fixpoint sub_gaps_from (skip : nat) (s : str) : str :=
  match s with
  | [] => []
  | c :: s' =>
      match skip with
      | S k => sub_gaps_from k s'
      | O =>
          match match_gap s with
          | Some n => 62%N :: 60%N :: sub_gaps_from (n - 1) s'
          | None => c :: sub_gaps_from 0 s'
          end
      end
  end.

Definition sub_gaps (s : str) : str := sub_gaps_from 0 s.

(** The first match of [minified_size="(\d+)"] in [s], as
    [int(m.group(1))].  [\d] is read as the ASCII digits. *)
Definition match_minified_size (s : str) : option Z :=
  if startswith (pyq "minified_size='") s then
    match span_digits (skipn 15 s) with
    | (d :: ds, q :: _) =>
        if (q =? 34)%N then Some (int_of_literal (d :: ds)) else None
    | _ => None
    end
  else None.

Fixpoint search_minified_size (s : str) : option Z :=
  match match_minified_size s with
  | Some z => Some z
  | None =>
      match s with
      | [] => None
      | _ :: s' => search_minified_size s'
      end
  end.

(** [s.splitlines()] *)
Definition is_linebreak (c : char) : bool :=
  ((10 <=? c) && (c <=? 13) || (28 <=? c) && (c <=? 30) ||
   (c =? 133) || (c =? 8232) || (c =? 8233))%N.

Fixpoint splitlines_from (after_cr : bool) (cur : str) (s : str) : list str :=
  match s with
  | [] => match cur with [] => [] | _ => [rev cur] end
  | c :: s' =>
      if after_cr && (c =? 10)%N then splitlines_from false [] s'
      else if is_linebreak c then rev cur :: splitlines_from (c =? 13)%N [] s'
      else splitlines_from false (c :: cur) s'
  end.

Definition splitlines (s : str) : list str := splitlines_from false [] s.

(** ** The file system

    What [os.walk] and [open] see: a directory is the list of its entries
    in [os.scandir] order, a file carries what reading it as UTF-8 text
    gives (the text, or the exception raised).  Symbolic links are not
    modelled. *)
Inductive entry :=
| File (name : str) (data : result str)
| Dir (name : str) (entries : list entry).

Definition file_names (es : list entry) : list str :=
  flat_map (fun e => match e with File n _ => [n] | Dir _ _ => [] end) es.

(** [open(os.path.join(root, name)).read()] in the directory [es]. *)
Fixpoint read_file (name : str) (es : list entry) : result str :=
  match es with
  | [] => Raise OSError
  | File n data :: es' => if str_eqb n name then data else read_file name es'
  | Dir n _ :: es' => if str_eqb n name then Raise OSError else read_file name es'
  end.

(** [os.walk]: the directories visited, top down, each with its entries.
    [keep root d] tells whether the loop body left [d] in [dirs] while
    visiting [root]. *)
Fixpoint walk_entry (keep : str -> str -> bool) (parent : str) (e : entry)
  : list (str * list entry) :=
  match e with
  | File _ _ => []
  | Dir d es =>
      if keep parent d then
        let root := os_path_join parent d in
        (root, es) :: flat_map (walk_entry keep root) es
      else []
  end.

Definition os_walk (keep : str -> str -> bool) (top : str) (es : list entry)
  : list (str * list entry) :=
  (top, es) :: flat_map (walk_entry keep top) es.

(** The state of the process and of the file system at start. *)
Record world := {
  cwd : str;
  listing : option (list entry);
  output_writable : bool
}.

(** ** app.py *)

Definition str_in (x : str) (l : list str) : bool := existsb (str_eqb x) l.

(** [len(s.encode('utf-8'))] *)
Definition utf8_len (s : str) : result Z :=
  match utf8_encode s with
  | Some b => Ok (Z.of_nat (List.length b))
  | None => Raise UnicodeEncodeError
  end.

Section App.
Context (L : Libs).

(** *** class GitignoreFilter

    [spec] is [None] for [pathspec.PathSpec([])], which matches nothing,
    and the lines of the .gitignore file otherwise. *)
Record GitignoreFilter := {
  root_dir : str;
  spec : option (list str)
}.

(** [_load_gitignore]: [es] is the listing of [root_dir]. *)
Definition _load_gitignore (es : list entry) : option (list str) * list message :=
  if str_in (py ".gitignore")
       (map (fun e => match e with File n _ | Dir n _ => n end) es) then
    match read_file (py ".gitignore") es with
    | Ok gitignore => (Some (splitlines gitignore), [])
    | Raise _ => (None, [Warning_gitignore])
    end
  else (None, []).

Definition new_GitignoreFilter (root : str) (es : list entry)
  : GitignoreFilter * list message :=
  let (s, msgs) := _load_gitignore es in
  ({| root_dir := root; spec := s |}, msgs).

Definition match_file (s : option (list str)) (rel_path : str) : bool :=
  match s with
  | None => false
  | Some lines => pathspec_match L lines rel_path
  end.

Definition is_ignored (wd : str) (g : GitignoreFilter) (path : str) : bool :=
  let rel_path := os_path_relpath wd path (root_dir g) in
  match_file (spec g) rel_path.

(** *** minify_content

    The handler returns the variable [content]; the svelte branch has
    rebound it by the time a minifier can raise. *)
Definition minify_content (content file_type : str) : str * list message :=
  let handler (content : str) := (content, [Warning_minification_failed file_type]) in
  let returns (content : str) (r : option str) :=
    match r with
    | Some m => (m, [])
    | None => handler content
    end in
  if str_in file_type [py "javascript"; py "typescript"] then
    returns content (jsmin_jsmin L content)
  else if str_in file_type [py "css"; py "scss"] then
    returns content (csscompressor_compress L content)
  else if str_eqb file_type (py "html") then
    returns content (htmlmin_minify L content)
  else if str_eqb file_type (py "json") then
    returns content (option_map (json_dumps L) (json_loads L content))
  else if str_eqb file_type (py "svelte") then
    let content := sub_comments content in
    match sub_blocks (jsmin_jsmin L) (py "<script") (py "</script>") content with
    | None => handler content
    | Some content =>
        match sub_blocks (csscompressor_compress L) (py "<style") (py "</style>")
                content with
        | None => handler content
        | Some content =>
            let content := sub_spaces content in
            let content := sub_gaps content in
            (strip content, [])
        end
    end
  else (join (py " ") (split_ws content), []).

(** *** should_include_file *)
Definition skip_patterns : list str :=
  [py "node_modules"; py ".git"; py ".svelte-kit"; py "build";
   py "__pycache__"; py ".DS_Store"; py ".env"; py "package-lock.json";
   py "package.json"; py "yarn.lock"].

Definition binary_extensions : list str :=
  [py ".png"; py ".jpg"; py ".jpeg"; py ".gif"; py ".ico"; py ".woff";
   py ".woff2"; py ".ttf"; py ".eot"].

Definition should_include_file (wd : str) (file_path : str)
  (exclude_patterns : list str) (gitignore_filter : GitignoreFilter) : bool :=
  if is_ignored wd gitignore_filter file_path then false
  else if contains (py ".DS_Store") file_path then false
  else if contains (py "node_modules") file_path then false
  else if existsb (fun pattern => contains pattern file_path)
            (skip_patterns ++ exclude_patterns) then false
  else negb (str_in (lower (path_suffix file_path)) binary_extensions).

(** *** get_file_type *)
Definition file_types : list (str * str) :=
  [(py ".svelte", py "svelte"); (py ".ts", py "typescript");
   (py ".js", py "javascript"); (py ".css", py "css");
   (py ".scss", py "scss"); (py ".json", py "json");
   (py ".md", py "markdown"); (py ".html", py "html")].

Fixpoint dict_get (d : list (str * str)) (k : str) (default : str) : str :=
  match d with
  | [] => default
  | (k', v) :: d' => if str_eqb k' k then v else dict_get d' k default
  end.

Definition get_file_type (file_path : str) : str :=
  let ext := lower (path_suffix file_path) in
  dict_get file_types ext (py "text").

(** *** calculate_size_reduction *)
Definition calculate_size_reduction (original minified : str)
  : result (Z * Z * float) :=
  original_size <- utf8_len original ;;
  minified_size <- utf8_len minified ;;
  q <- int_true_div (original_size - minified_size) original_size ;;
  Ok (original_size, minified_size, float_mul_100 q).

(** *** format_file_content

    The messages are what [minify_content] printed, also when the
    function then raises. *)
Definition format_file_content (wd : str) (file_path content file_type : str)
  (minify : bool) : result str * list message :=
  let relative_path := os_path_relpath wd file_path (py ".") in
  let formatted_content :=
    pyq "<file path='" ++ relative_path ++ pyq "' type='" ++ file_type ++ pyq "'" in
  let finish (formatted_content content : str) : str :=
    formatted_content ++ py ">" ++ nl ++
    py "```" ++ file_type ++ nl ++
    content ++
    (if endswith nl content then [] else nl) ++
    py "```" ++ nl ++
    py "</file>" ++ nl ++ nl in
  if minify then
    let original_content := content in
    let (minified_content, msgs) := minify_content content file_type in
    match calculate_size_reduction original_content minified_content with
    | Raise e => (Raise e, msgs)
    | Ok (orig_size, min_size, reduction) =>
        (Ok (finish
               (formatted_content ++
                pyq " original_size='" ++ str_of_Z orig_size ++
                pyq "' minified_size='" ++ str_of_Z min_size ++
                pyq "' reduction='" ++ format_1f reduction ++ pyq "%'")
               minified_content),
         msgs)
    end
  else (Ok (finish formatted_content content), []).

(** *** process_directory: the structure pass *)

(** A line of the structure section, with the path it stands for. *)
Inductive structure_item :=
| Item_dir (indent : str) (root : str)
| Item_file (indent : str) (file_path : str) (file : str).

Definition render_item (i : structure_item) : str :=
  match i with
  | Item_dir indent root =>
      indent ++ py "- " ++ os_path_basename root ++ py "/" ++ nl
  | Item_file indent _ file => indent ++ py "  - " ++ file ++ nl
  end.

(** The filter that the structure pass assigns to [dirs[:]]. *)
Definition keep_dir (wd : str) (exclude_patterns : list str)
  (gitignore_filter : GitignoreFilter) (root d : str) : bool :=
  negb (is_ignored wd gitignore_filter (os_path_join root d)) &&
  negb (existsb (fun pattern => contains pattern d) exclude_patterns) &&
  negb (str_eqb d (py "node_modules")) &&
  negb (contains (py ".DS_Store") d).

Definition structure_of_visit (wd directory : str) (exclude_patterns : list str)
  (gitignore_filter : GitignoreFilter) (v : str * list entry)
  : list structure_item :=
  let (root, es) := v in
  let level := count_char sep (replace_with_empty directory root) in
  let indent := List.concat (repeat (py "  ") level) in
  let relative_path := os_path_relpath wd root directory in
  (if str_eqb relative_path (py ".") then [] else [Item_dir indent root]) ++
  flat_map
    (fun file =>
       let file_path := os_path_join root file in
       if should_include_file wd file_path exclude_patterns gitignore_filter
       then [Item_file indent file_path file] else [])
    (sorted (file_names es)).

Definition structure_items (wd directory : str) (es : list entry)
  (exclude_patterns : list str) (gitignore_filter : GitignoreFilter)
  : list structure_item :=
  flat_map (structure_of_visit wd directory exclude_patterns gitignore_filter)
    (os_walk (keep_dir wd exclude_patterns gitignore_filter) directory es).

(** *** process_directory: the content pass *)

(** What the loop over the files carries: the two totals, the blocks
    written so far (with the path of each), and the messages. *)
Record pass_state := {
  total_original_size : Z;
  total_minified_size : Z;
  blocks : list (str * str);
  printed : list message
}.

Definition print_in (st : pass_state) (msgs : list message) : pass_state :=
  {| total_original_size := total_original_size st;
     total_minified_size := total_minified_size st;
     blocks := blocks st;
     printed := printed st ++ msgs |}.

Definition add_original (st : pass_state) (n : Z) : pass_state :=
  {| total_original_size := total_original_size st + n;
     total_minified_size := total_minified_size st;
     blocks := blocks st;
     printed := printed st |}.

Definition add_block (st : pass_state) (min_size : Z) (file_path text : str)
  : pass_state :=
  {| total_original_size := total_original_size st;
     total_minified_size := total_minified_size st + min_size;
     blocks := blocks st ++ [(file_path, text)];
     printed := printed st |}.

(** The body of the [try] for one included file. *)
Definition process_file (wd : str) (minify : bool) (file_path : str)
  (data : result str) (st : pass_state) : pass_state :=
  match data with
  | Raise UnicodeDecodeError => print_in st [Warning_skipping_binary file_path]
  | Raise _ => print_in st [Error_processing file_path]
  | Ok content =>
      let file_type := get_file_type file_path in
      match (if minify then utf8_len content else Ok 0%Z) with
      | Raise _ => print_in st [Error_processing file_path]
      | Ok orig_size =>
          let st := add_original st orig_size in
          match format_file_content wd file_path content file_type minify with
          | (Raise _, msgs) => print_in st (msgs ++ [Error_processing file_path])
          | (Ok formatted_content, msgs) =>
              let st := print_in st msgs in
              if minify then
                match search_minified_size formatted_content with
                | None => print_in st [Error_processing file_path]
                | Some min_size => add_block st min_size file_path formatted_content
                end
              else add_block st 0 file_path formatted_content
          end
      end
  end.

Definition content_of_visit (wd : str) (exclude_patterns : list str)
  (gitignore_filter : GitignoreFilter) (minify : bool)
  (st : pass_state) (v : str * list entry) : pass_state :=
  let (root, es) := v in
  fold_left
    (fun st file =>
       let file_path := os_path_join root file in
       if should_include_file wd file_path exclude_patterns gitignore_filter
       then process_file wd minify file_path (read_file file es) st
       else st)
    (sorted (file_names es)) st.

Definition content_pass (wd directory : str) (es : list entry)
  (exclude_patterns : list str) (gitignore_filter : GitignoreFilter)
  (minify : bool) (st : pass_state) : pass_state :=
  fold_left (content_of_visit wd exclude_patterns gitignore_filter minify)
    (os_walk (fun _ _ => true) directory es) st.

(** *** process_directory

    [written] is the content of the output file when the function ends
    ([None]: the file could not be opened), [raised] the exception that
    left the function, if any. *)
Record run := {
  written : option str;
  messages : list message;
  raised : option exn
}.

Definition structure_section (items : list structure_item) : str :=
  py "<structure>" ++ nl ++ List.concat (map render_item items) ++
  py "</structure>" ++ nl ++ nl.

Definition files_section (bs : list (str * str)) : str :=
  py "<files>" ++ nl ++ List.concat (map snd bs) ++ py "</files>" ++ nl.

Definition statistics_section (total_original total_minified : Z)
  (total_reduction : float) : str :=
  nl ++ py "<statistics>" ++ nl ++
  py "Total original size: " ++ format_thousands total_original ++ py " bytes" ++ nl ++
  py "Total minified size: " ++ format_thousands total_minified ++ py " bytes" ++ nl ++
  py "Overall reduction: " ++ format_1f total_reduction ++ py "%" ++ nl ++
  py "</statistics>" ++ nl.

Definition process_directory (w : world) (directory : str) (es : list entry)
  (output_file : str) (exclude_patterns : list str) (minify : bool) : run :=
  let (gitignore_filter, msgs0) := new_GitignoreFilter directory es in
  if negb (output_writable w) then
    {| written := None; messages := msgs0 ++ [Error_writing_output];
       raised := Some OSError |}
  else
    let items :=
      structure_items (cwd w) directory es exclude_patterns gitignore_filter in
    let st :=
      content_pass (cwd w) directory es exclude_patterns gitignore_filter minify
        {| total_original_size := 0; total_minified_size := 0;
           blocks := []; printed := [] |} in
    let out :=
      py "<project>" ++ nl ++ nl ++ structure_section items ++
      files_section (blocks st) in
    if minify then
      match int_true_div (total_original_size st - total_minified_size st)
              (total_original_size st) with
      | Raise e =>
          {| written := Some out;
             messages := msgs0 ++ printed st ++ [Error_writing_output];
             raised := Some e |}
      | Ok q =>
          {| written :=
               Some (out ++
                     statistics_section (total_original_size st)
                       (total_minified_size st) (float_mul_100 q) ++
                     py "</project>");
             messages := msgs0 ++ printed st;
             raised := None |}
      end
    else
      {| written := Some (out ++ py "</project>");
         messages := msgs0 ++ printed st;
         raised := None |}.

(** *** main *)
Record args := {
  directory : str;
  output : str;
  exclude : list str;
  minify : bool
}.

(** [os.path.isdir] of the [directory] argument. *)
Definition os_path_isdir (w : world) (path : str) : bool :=
  negb (is_nil path) &&
  match listing w with Some _ => true | None => false end.

(** What a run leaves behind: the value [main] returns ([None] for a
    bare [return]), the output file, and what was printed. *)
Record outcome := {
  returned : option Z;
  output_file : option str;
  stdout : list message
}.

Definition main (w : world) (a : args) : outcome :=
  match listing w with
  | Some es =>
      if os_path_isdir w (directory a) then
        let r := process_directory w (directory a) es (output a) (exclude a) (minify a) in
        match raised r with
        | None =>
            {| returned := Some 0%Z; output_file := written r;
               stdout := messages r ++ [Success_generated (output a)] |}
        | Some _ =>
            {| returned := Some 1%Z; output_file := written r;
               stdout := messages r ++ [Error_top] |}
        end
      else
        {| returned := None; output_file := None;
           stdout := [Error_not_a_directory (directory a)] |}
  | None =>
      {| returned := None; output_file := None;
         stdout := [Error_not_a_directory (directory a)] |}
  end.

(** [exit(main())]: the exit status of the process. *)
Definition exit_status (returned : option Z) : Z :=
  match returned with
  | None => 0%Z
  | Some n => n
  end.

End App.

(** ** Concrete collaborators and inputs for the examples *)

(** Stand-ins for the collaborators, to run the model: minifiers that
    return their input, ignore rules that match a path equal to one of
    the lines, and a float conversion that only knows zero. *)
Definition demo_libs : Libs := {|
  jsmin_jsmin := fun s => Some s;
  csscompressor_compress := fun s => Some s;
  htmlmin_minify := fun s => Some s;
  pathspec_match := fun lines p => existsb (str_eqb p) lines;
  float_of_literal := fun _ => S754_zero false;
  float_repr := fun _ => py "0.0"
|}.

(** Whether some [url(data:] in [s] is followed by text that holds no
    closing parenthesis. *)
Fixpoint unclosed_data_url (s : str) : bool :=
  match s with
  | [] => false
  | _ :: s' =>
      (startswith (py "url(data:") s &&
       let rest := skipn 9 s in
       negb (is_nil rest) && negb (contains (py ")") rest)) ||
      unclosed_data_url s'
  end.

(** The same, with a style-sheet minifier that raises on such a text,
    one of the inputs on which csscompressor raises ("malformed css");
    on any other text it returns its input. *)
Definition strict_css (s : str) : option str :=
  if unclosed_data_url s then None else Some s.

Definition strict_css_libs : Libs := {|
  jsmin_jsmin := fun s => Some s;
  csscompressor_compress := strict_css;
  htmlmin_minify := fun s => Some s;
  pathspec_match := fun lines p => existsb (str_eqb p) lines;
  float_of_literal := fun _ => S754_zero false;
  float_repr := fun _ => py "0.0"
|}.

Definition world_of (wd : str) (es : list entry) : world :=
  {| cwd := wd; listing := Some es; output_writable := true |}.

Definition args_of (dir : str) (excl : list str) (m : bool) : args :=
  {| directory := dir; output := py "project_context.txt";
     exclude := excl; minify := m |}.

(** ** Reading the two sections *)

(** A name that a directory entry can have. *)
Definition valid_name (n : str) : bool :=
  negb (is_nil n) && negb (existsb (N.eqb sep) n) &&
  negb (str_eqb n (py ".")) && negb (str_eqb n (py "..")).

Fixpoint valid_entry (e : entry) : bool :=
  match e with
  | File n _ => valid_name n
  | Dir n es => valid_name n && forallb valid_entry es
  end.

(** The paths of the files that the structure section lists. *)
Definition structure_file_paths (items : list structure_item) : list str :=
  flat_map (fun i => match i with
                     | Item_file _ file_path _ => [file_path]
                     | Item_dir _ _ => []
                     end) items.


(** The files of one visited directory that pass the inclusion filter, in
    the order of the loop, each with what reading it gives. *)
Definition included_files (L : Libs) (wd : str) (exclude_patterns : list str)
  (g : GitignoreFilter) (v : str * list entry) : list (str * result str) :=
  let (root, es) := v in
  flat_map
    (fun file =>
       let file_path := os_path_join root file in
       if should_include_file L wd file_path exclude_patterns g
       then [(file_path, read_file file es)] else [])
    (sorted (file_names es)).

Definition empty_state : pass_state :=
  {| total_original_size := 0; total_minified_size := 0;
     blocks := []; printed := [] |}.



(** The checks of [should_include_file] that do not consult the ignore
    rules. *)
Definition passes_fixed_rules (file_path : str) (exclude_patterns : list str) : bool :=
  negb (contains (py ".DS_Store") file_path) &&
  negb (contains (py "node_modules") file_path) &&
  negb (existsb (fun pattern => contains pattern file_path)
          (skip_patterns ++ exclude_patterns)) &&
  negb (str_in (lower (path_suffix file_path)) binary_extensions).

(** ** Auxiliary notions on paths *)

(** A string that holds no separator. *)
Definition sep_free (s : str) : Prop := existsb (N.eqb sep) s = false.

(** The number of separators a path starts with. *)
Fixpoint leading_seps (s : str) : nat :=
  match s with
  | [] => 0
  | c :: s' => if N.eqb c sep then S (leading_seps s') else 0
  end.

(** The string that [os.path.abspath] normalises. *)
Definition abs_string (wd path : str) : str :=
  if startswith [sep] path then path else os_path_join wd path.

(** [os.path.join(directory, n1, ..., nk)], the path of an entry that
    the walk reaches beneath [directory]. *)
Definition path_under (directory : str) (names : list str) : str :=
  fold_left os_path_join names directory.

(** A component that [normpath] keeps: non-empty, without separator. *)
Definition component (s : str) : Prop := s <> [] /\ sep_free s.

(** ** Auxiliary notions on JSON texts *)

(** What can follow a value in a text written by [json.dumps]: nothing,
    a comma, or a closing bracket or brace. *)
Definition delim (rest : str) : bool :=
  match rest with
  | [] => true
  | h :: _ => ((h =? 44) || (h =? 93) || (h =? 125))%N
  end.

(** ** Auxiliary notions on texts *)

(** A file type for which [minify_content] reaches its last branch. *)
Definition plain_type (file_type : str) : bool :=
  negb (str_in file_type
          [py "javascript"; py "typescript"; py "css"; py "scss";
           py "html"; py "json"; py "svelte"]).

(** A character that is no white space. *)
Definition nonspace (c : char) : bool := negb (is_space c).

(** A word: a non-empty run of characters, none of them white space. *)
Definition word (w : str) : bool := negb (is_nil w) && forallb nonspace w.

(** ** Auxiliary notions on directory trees *)

(** The name of a directory entry. *)
Definition entry_name (e : entry) : str :=
  match e with File n _ | Dir n _ => n end.

(** A text whose only white space is the plain space. *)
Definition plain_spaced (s : str) : bool :=
  forallb (fun c => negb (is_space c) || (c =? 32)%N) s.

(** ** Auxiliary notions on JSON values *)

(** Whether a string starts with a low surrogate. *)
Definition low_head (x : str) : bool :=
  match x with
  | d :: _ => is_low_surrogate d
  | [] => false
  end.

(** Whether a text starts with the escape of a low surrogate, which
    [scanstring] joins to a high surrogate read just before. *)
Definition peek_low (s : str) : bool :=
  match s with
  | x :: y :: a :: b :: c :: d :: _ =>
      (x =? 92)%N && (y =? 117)%N &&
      match hex4_value a b c d with
      | Some u2 => is_low_surrogate u2
      | None => false
      end
  | _ => false
  end.

(** The strings that [json.loads] returns for a text read from a file:
    code points, a high surrogate never directly followed by a low one
    (such a pair of escapes is read as one character). *)
Fixpoint wf_str (s : str) : bool :=
  match s with
  | [] => true
  | c :: t =>
      (c <? 1114112)%N && negb (is_high_surrogate c && low_head t) && wf_str t
  end.

(** A text that starts like a number: a digit, or a minus sign and a
    digit. *)
Definition number_head (s : str) : bool :=
  match s with
  | c :: t =>
      if (c =? 45)%N then
        match t with
        | d :: _ => is_digit d
        | [] => false
        end
      else is_digit c
  | [] => false
  end.

(** A text that starts like a value: no white space, no closing
    bracket. *)
Definition value_head (s : str) : bool :=
  match s with
  | c :: _ => negb (is_json_ws c) && negb (c =? 93)%N
  | [] => false
  end.

Section JsonValues.
Context (L : Libs).

(** A float that [repr] writes as a number literal which reads back as
    the same float.  [NaN] and the infinities are written by name. *)
Definition wf_float (f : float) : Prop :=
  match f with
  | S754_nan | S754_infinity _ => True
  | _ =>
      scan_number (float_repr L f) = Some (true, float_repr L f, []) /\
      float_of_literal L (float_repr L f) = f
  end.

(** What is asked of the float conversions: [repr] of a float that
    [float] returned for a number literal round-trips. *)
Definition repr_round_trips : Prop :=
  forall lex : str, wf_float (float_of_literal L lex).

(** The values that [json.loads] returns for a text read from a file. *)
Inductive wf_json : json -> Prop :=
| wf_JNull : wf_json JNull
| wf_JBool (b : bool) : wf_json (JBool b)
| wf_JInt (z : Z) : wf_json (JInt z)
| wf_JFloat (f : float) : wf_float f -> wf_json (JFloat f)
| wf_JString (s : str) : wf_str s = true -> wf_json (JString s)
| wf_JArray (l : list json) : Forall wf_json l -> wf_json (JArray l)
| wf_JObject (d : list (str * json)) :
    NoDup (map fst d) ->
    Forall (fun kv => wf_str (fst kv) = true /\ wf_json (snd kv)) d ->
    wf_json (JObject d).

(** One member of an object, as [json.dumps] writes it. *)
Definition dumps_member (kv : str * json) : str :=
  encode_basestring_ascii (fst kv) ++ py ":" ++ json_dumps L (snd kv).

End JsonValues.

(** A text of ASCII characters only. *)
Definition ascii_only (s : str) : bool := forallb (fun c => c <? 128)%N s.


(** Ignore rules that match a path when one of its components is one of
    the lines: what a line without wildcard or separator does in a
    .gitignore file, to the entries of that name and to everything
    beneath them. *)
Definition component_match (lines : list str) (p : str) : bool :=
  existsb (fun l => str_in l (split_char sep p)) lines.

Definition component_libs : Libs := {|
  jsmin_jsmin := fun s => Some s;
  csscompressor_compress := fun s => Some s;
  htmlmin_minify := fun s => Some s;
  pathspec_match := component_match;
  float_of_literal := fun _ => S754_zero false;
  float_repr := fun _ => py "0.0"
|}.

(** ** Reading a svelte text *)











(** * Part II: examples, lemmas and the verified properties *)

Example py_literal : py "a.b" = [97; 46; 98]%N.
Proof. reflexivity. Qed.

Example contains_example :
  contains (py ".git") (py "proj/.gitignore") = true.
Proof. reflexivity. Qed.

Example replace_example :
  replace_with_empty (py "a/b") (py "a/b/x/a/b") = py "/x/".
Proof. reflexivity. Qed.

Example split_example :
  split_char 47%N (py "/a//b/") = [[]; py "a"; []; py "b"; []].
Proof. reflexivity. Qed.

Example split_ws_example :
  join (py " ") (split_ws (py "  a   b
 c ")) = py "a b c".
Proof. reflexivity. Qed.

Example sorted_example :
  sorted [py "b.txt"; py "a.json"; py ".gitignore"] =
  [py ".gitignore"; py "a.json"; py "b.txt"].
Proof. reflexivity. Qed.

Example str_of_Z_example : str_of_Z 1204 = py "1204".
Proof. reflexivity. Qed.

Example utf8_example : utf8_encode [233; 8364; 128512]%N =
  Some [195; 169; 226; 130; 172; 240; 159; 152; 128]%N.
Proof. reflexivity. Qed.

Example true_div_example :
  option_map format_1f
    (match int_true_div 2 10 with Ok x => Some (float_mul_100 x) | Raise _ => None end)
  = Some (py "20.0").
Proof. vm_compute. reflexivity. Qed.

Example format_1f_examples :
  map (fun '(a, b) =>
         match int_true_div a b with
         | Ok x => format_1f (float_mul_100 x)
         | Raise _ => py "!"
         end)
      [(1, 3); (-1, 8); (0, 7); (1, 0); (5, 5); (1, 2000); (-1, 2500); (3, 16); (1, 16)]%Z
  = [py "33.3"; py "-12.5"; py "0.0"; py "!"; py "100.0"; py "0.1"; py "-0.0"; py "18.8"; py "6.2"].
Proof. vm_compute. reflexivity. Qed.

Example format_thousands_example :
  map format_thousands [0; 999; 1000; 1234567; 12345]%Z =
  [py "0"; py "999"; py "1,000"; py "1,234,567"; py "12,345"].
Proof. vm_compute. reflexivity. Qed.

Example normpath_examples :
  map os_path_normpath
    [py "/a/b/../c/./d//e/"; py "a/../.."; py "//x"; py "///x"; py "/.."; []] =
  [py "/a/c/d/e"; py ".."; py "//x"; py "/x"; py "/"; py "."].
Proof. vm_compute. reflexivity. Qed.

Example relpath_examples :
  [os_path_relpath (py "/a/b") (py "../b/f.txt") (py ".");
   os_path_relpath (py "/a/b") (py "proj/src/x.js") (py "proj");
   os_path_relpath (py "/a/b") (py "/a/c/x.js") (py ".");
   os_path_relpath (py "/a/b") (py "/a/b") (py "/a/b")] =
  [py "f.txt"; py "src/x.js"; py "../c/x.js"; py "."].
Proof. vm_compute. reflexivity. Qed.

Example suffix_examples :
  map path_suffix
    [py "a/b/logo.PNG"; py "x/.gitignore"; py "a.tar.gz"; py "a."; py "noext"; py "d.x/f"] =
  [py ".PNG"; []; py ".gz"; []; []; []].
Proof. vm_compute. reflexivity. Qed.

Example json_examples :
  map (fun s => option_map (json_dumps demo_libs) (json_loads demo_libs (pyq s)))
    ["{'a':   1}"; " [1, -20 , true,null, 'x\ty' ] ";
     "{'a':1,'b':[],'a':{}}"; "[1,]"; "01"; "-0"; "[NaN, -Infinity]";
     "'\ud800A'"; "{} x"; "'\ud83d\ude00'"]%string
  = [Some (pyq "{'a':1}"); Some (pyq "[1,-20,true,null,'x\ty']");
     Some (pyq "{'a':{},'b':[]}"); None; None; Some (py "0");
     Some (py "[NaN,-Infinity]"); Some (pyq "'\ud800A'"); None;
     Some (pyq "'\ud83d\ude00'")].
Proof. vm_compute. reflexivity. Qed.

Example json_unicode_example :
  option_map (json_dumps demo_libs)
    (json_loads demo_libs ([34; 233; 128512; 10]%N ++ pyq "\u00e9'"))
  = None /\
  option_map (json_dumps demo_libs)
    (json_loads demo_libs ([34; 233; 128512]%N ++ pyq "\u00E9\n'"))
  = Some (pyq "'\u00e9\ud83d\ude00\u00e9\n'").
Proof. vm_compute. split; reflexivity. Qed.

Example sub_comments_example :
  sub_comments (py "a<!-- x --><!--y-->b<!--c") = py "ab<!--c".
Proof. vm_compute. reflexivity. Qed.

Example sub_blocks_example :
  sub_blocks (fun b => Some (strip b)) (py "<script") (py "</script>")
    (pyq "x<script lang='ts'> let a; </script>y<script>z") =
  Some (py "x<script>let a;</script>y<script>z").
Proof. vm_compute. reflexivity. Qed.

Example sub_spaces_gaps_example :
  sub_gaps (sub_spaces (py "<a>   <b> x </b> <c>")) = py "<a><b> x </b><c>".
Proof. vm_compute. reflexivity. Qed.

Example search_minified_size_example :
  map search_minified_size
    [pyq "<file path='p' minified_size='x' minified_size='0042' minified_size='7'>";
     pyq "minified_size='12"] =
  [Some 42%Z; None] /\
  search_minified_size (pyq "original_size='10' minified_size='7' x") = Some 7%Z.
Proof. vm_compute. split; reflexivity. Qed.

Example splitlines_example :
  splitlines ([97; 13; 10; 98; 10; 10; 99; 13]%N) = [py "a"; py "b"; []; py "c"].
Proof. vm_compute. reflexivity. Qed.

(** * Basic facts *)

Lemma str_eqb_eq (a b : str) : str_eqb a b = true <-> a = b.
Proof.
  revert b; induction a as [|x a IH]; intros [|y b]; simpl; split;
    try congruence; try reflexivity.
  - intros H. apply andb_true_iff in H as [H1 H2].
    apply N.eqb_eq in H1. apply IH in H2. congruence.
  - intros H. injection H as -> ->. rewrite N.eqb_refl. simpl.
    apply IH. reflexivity.
Qed.

Lemma str_eqb_refl (a : str) : str_eqb a a = true.
Proof. apply str_eqb_eq. reflexivity. Qed.

Lemma str_eqb_neq (a b : str) : str_eqb a b = false <-> a <> b.
Proof.
  split.
  - intros H E. apply str_eqb_eq in E. congruence.
  - intros H. destruct (str_eqb a b) eqn:E; [|reflexivity].
    apply str_eqb_eq in E. contradiction.
Qed.

Lemma In_insert_sorted (x y : str) (l : list str) :
  In x (insert_sorted y l) <-> x = y \/ In x l.
Proof.
  induction l as [|z l IH]; simpl.
  - intuition.
  - destruct (str_leb y z); simpl; [intuition|].
    rewrite IH. intuition.
Qed.

Lemma In_sorted (x : str) (l : list str) : In x (sorted l) <-> In x l.
Proof.
  induction l as [|y l IH]; simpl; [tauto|].
  unfold sorted in *. simpl. rewrite In_insert_sorted, IH. intuition.
Qed.

(** * C3: an invalid root directory *)

(** C3 (the code departs from the claim): when the root argument does not
    name an existing directory, [main] prints the error and writes no
    output file, but it leaves through a bare [return], so the process
    exits with status zero, the status of a successful run. *)
Theorem main_invalid_directory_exits_zero (L : Libs) (wd : str) (wr : bool) (a : args) :
  let o := main L {| cwd := wd; listing := None; output_writable := wr |} a in
  stdout o = [Error_not_a_directory (directory a)] /\
  output_file o = None /\
  returned o = None /\
  exit_status (returned o) = 0%Z.
Proof. simpl. repeat split. Qed.

(** * C8: minification with nothing to bundle *)

Lemma fold_left_unchanged {A B : Type} (f : A -> B -> A) (l : list B) (a : A) :
  (forall x b, In b l -> f x b = x) -> fold_left f l a = a.
Proof.
  revert a; induction l as [|b l IH]; intros a H; simpl; [reflexivity|].
  rewrite H by (left; reflexivity). apply IH.
  intros x b' Hb. apply H. right. exact Hb.
Qed.

Lemma content_of_visit_nothing_included (L : Libs) (wd : str) (excl : list str)
  (g : GitignoreFilter) (m : bool) (st : pass_state) (root : str) (es : list entry) :
  (forall file, In file (file_names es) ->
     should_include_file L wd (os_path_join root file) excl g = false) ->
  content_of_visit L wd excl g m st (root, es) = st.
Proof.
  intros H. unfold content_of_visit. apply fold_left_unchanged.
  intros x file Hin. apply (proj1 (In_sorted _ _)) in Hin.
  rewrite (H file Hin). reflexivity.
Qed.

Lemma content_pass_nothing_included (L : Libs) (wd dir : str) (es : list entry)
  (excl : list str) (g : GitignoreFilter) (m : bool) (st : pass_state) :
  (forall root es' file,
     In (root, es') (os_walk (fun _ _ => true) dir es) ->
     In file (file_names es') ->
     should_include_file L wd (os_path_join root file) excl g = false) ->
  content_pass L wd dir es excl g m st = st.
Proof.
  intros H. unfold content_pass. apply fold_left_unchanged.
  intros x [root es'] Hin. apply content_of_visit_nothing_included.
  intros file Hf. exact (H root es' file Hin Hf).
Qed.

(** C8: with minification enabled and no file passing the inclusion
    filter, both totals stay zero, the overall reduction divides by zero,
    [process_directory] raises [ZeroDivisionError] after the files section
    (no statistics block, no closing project tag), and the process exits
    with status 1. *)
Theorem minify_without_included_file_fails (L : Libs) (w : world) (a : args)
  (es : list entry) :
  listing w = Some es ->
  directory a <> [] ->
  output_writable w = true ->
  minify a = true ->
  (forall root es' file,
     In (root, es') (os_walk (fun _ _ => true) (directory a) es) ->
     In file (file_names es') ->
     should_include_file L (cwd w) (os_path_join root file) (exclude a)
       (fst (new_GitignoreFilter (directory a) es)) = false) ->
  raised (process_directory L w (directory a) es (output a) (exclude a) true)
    = Some ZeroDivisionError /\
  output_file (main L w a) =
    Some (py "<project>" ++ nl ++ nl ++
          structure_section
            (structure_items L (cwd w) (directory a) es (exclude a)
               (fst (new_GitignoreFilter (directory a) es))) ++
          files_section []) /\
  returned (main L w a) = Some 1%Z /\
  exit_status (returned (main L w a)) = 1%Z.
Proof.
  intros Hl Hd Hw Hm Hnone.
  assert (Hrun :
    process_directory L w (directory a) es (output a) (exclude a) true =
    {| written :=
         Some (py "<project>" ++ nl ++ nl ++
               structure_section
                 (structure_items L (cwd w) (directory a) es (exclude a)
                    (fst (new_GitignoreFilter (directory a) es))) ++
               files_section []);
       messages :=
         snd (new_GitignoreFilter (directory a) es) ++ [] ++ [Error_writing_output];
       raised := Some ZeroDivisionError |}).
  { unfold process_directory.
    destruct (new_GitignoreFilter (directory a) es) as [g msgs0] eqn:Eg.
    simpl in Hnone. rewrite Hw. simpl negb. cbv iota.
    rewrite (content_pass_nothing_included L (cwd w) (directory a) es
               (exclude a) g true _ Hnone).
    reflexivity. }
  unfold main. rewrite Hl.
  assert (Hisdir : os_path_isdir w (directory a) = true).
  { unfold os_path_isdir. rewrite Hl.
    destruct (directory a); [contradiction|reflexivity]. }
  rewrite Hisdir, Hm, Hrun. simpl. repeat split.
Qed.

Lemma minify_without_included_file_fails_witness :
  let w := world_of (py "/home/u") [File (py "logo.png") (Raise UnicodeDecodeError)] in
  let a := args_of (py "proj") [] true in
  raised (process_directory demo_libs w (directory a)
            [File (py "logo.png") (Raise UnicodeDecodeError)]
            (output a) (exclude a) true)
    = Some ZeroDivisionError /\
  output_file (main demo_libs w a) =
    Some (py "<project>" ++ nl ++ nl ++
          structure_section
            (structure_items demo_libs (cwd w) (directory a)
               [File (py "logo.png") (Raise UnicodeDecodeError)] (exclude a)
               (fst (new_GitignoreFilter (directory a)
                       [File (py "logo.png") (Raise UnicodeDecodeError)]))) ++
          files_section []) /\
  returned (main demo_libs w a) = Some 1%Z /\
  exit_status (returned (main demo_libs w a)) = 1%Z.
Proof.
  intros w a.
  apply (minify_without_included_file_fails demo_libs w a
           [File (py "logo.png") (Raise UnicodeDecodeError)]).
  - reflexivity.
  - discriminate.
  - reflexivity.
  - reflexivity.
  - intros root es' file Hin Hf.
    simpl in Hin. destruct Hin as [E|[]].
    injection E as <- <-. simpl in Hf. destruct Hf as [<-|[]].
    vm_compute. reflexivity.
Defined.

Example only_an_image_with_minify :
  let o := main demo_libs
             (world_of (py "/home/u") [File (py "logo.png") (Raise UnicodeDecodeError)])
             (args_of (py "proj") [] true) in
  output_file o = Some (py "<project>

<structure>
</structure>

<files>
</files>
") /\ stdout o = [Error_writing_output; Error_top].
Proof. vm_compute. split; reflexivity. Qed.

(** * C5: a minifier that raises *)

(** Outside the svelte branch the handler returns the text it was given. *)
Lemma minify_content_fallback_is_original (L : Libs) (content file_type : str) :
  str_eqb file_type (py "svelte") = false ->
  snd (minify_content L content file_type) = [] \/
  minify_content L content file_type =
    (content, [Warning_minification_failed file_type]).
Proof.
  intros Hs. unfold minify_content.
  destruct (str_in file_type [py "javascript"; py "typescript"]).
  { destruct (jsmin_jsmin L content); [left|right]; reflexivity. }
  destruct (str_in file_type [py "css"; py "scss"]).
  { destruct (csscompressor_compress L content); [left|right]; reflexivity. }
  destruct (str_eqb file_type (py "html")).
  { destruct (htmlmin_minify L content); [left|right]; reflexivity. }
  destruct (str_eqb file_type (py "json")).
  { destruct (json_loads L content); [left|right]; reflexivity. }
  rewrite Hs. left. reflexivity.
Qed.

(** In the svelte branch a failure of the script minifier returns the
    text without its comments, and a failure of the style minifier the
    text without its comments and with its script blocks rewritten. *)
Lemma minify_content_svelte_fallback (L : Libs) (content : str) :
  snd (minify_content L content (py "svelte")) = [] \/
  minify_content L content (py "svelte") =
    (sub_comments content, [Warning_minification_failed (py "svelte")]) \/
  exists c2,
    sub_blocks (jsmin_jsmin L) (py "<script") (py "</script>") (sub_comments content)
      = Some c2 /\
    minify_content L content (py "svelte") =
      (c2, [Warning_minification_failed (py "svelte")]).
Proof.
  unfold minify_content.
  change (str_in (py "svelte") [py "javascript"; py "typescript"]) with false.
  change (str_in (py "svelte") [py "css"; py "scss"]) with false.
  change (str_eqb (py "svelte") (py "html")) with false.
  change (str_eqb (py "svelte") (py "json")) with false.
  change (str_eqb (py "svelte") (py "svelte")) with true.
  cbv iota.
  destruct (sub_blocks (jsmin_jsmin L) (py "<script") (py "</script>")
              (sub_comments content)) as [c2|] eqn:E2.
  - destruct (sub_blocks (csscompressor_compress L) (py "<style") (py "</style>") c2).
    + left. reflexivity.
    + right. right. exists c2. split; reflexivity.
  - right. left. reflexivity.
Qed.

(** * C6: the totals of the statistics block *)

(** C6 (the code departs from the claim): the minified size added to the
    total is read back from the formatted block with a search for
    [minified_size="(\d+)"], and the first match can lie in the path
    attribute.  For a file named [minified_size="0".txt] holding
    [hello  world] the block reports [minified_size="11"], and the
    statistics block a total minified size of 0 bytes. *)
Theorem statistics_total_read_from_path :
  let o := main demo_libs
             (world_of (py "/home/u")
                [File (pyq "minified_size='0'.txt") (Ok (py "hello  world"))])
             (args_of (py "proj") [] true) in
  returned o = Some 0%Z /\
  output_file o = Some (pyq "<project>

<structure>
  - minified_size='0'.txt
</structure>

<files>
<file path='proj/minified_size='0'.txt' type='text' original_size='12' minified_size='11' reduction='8.3%'>
```text
hello world
```
</file>

</files>

<statistics>
Total original size: 12 bytes
Total minified size: 0 bytes
Overall reduction: 100.0%
</statistics>
</project>").
Proof. vm_compute. split; reflexivity. Qed.

(** * Substrings and joined paths *)

Lemma startswith_app (p a b : str) :
  startswith p a = true -> startswith p (a ++ b) = true.
Proof.
  revert a; induction p as [|x p IH]; intros [|y a] H; simpl in *;
    try reflexivity; try discriminate.
  apply andb_true_iff in H as [H1 H2]. rewrite H1, (IH _ H2). reflexivity.
Qed.

Lemma contains_app_l (p a b : str) :
  contains p a = true -> contains p (a ++ b) = true.
Proof.
  induction a as [|y a IH]; intros H.
  - simpl in H. rewrite orb_false_r in H.
    destruct p; [|discriminate]. destruct b; reflexivity.
  - simpl in H. apply orb_true_iff in H as [H|H].
    + change ((y :: a) ++ b) with (y :: (a ++ b)).
      simpl. apply orb_true_iff. left.
      exact (startswith_app p (y :: a) b H).
    + simpl. apply orb_true_iff. right. exact (IH H).
Qed.



Lemma valid_name_relative (n : str) :
  valid_name n = true -> startswith [sep] n = false.
Proof.
  destruct n as [|c n]; intros H; [discriminate H|].
  change (N.eqb sep c && true = false).
  destruct (N.eqb sep c) eqn:E; [|reflexivity].
  unfold valid_name in H.
  change (existsb (N.eqb sep) (c :: n))
    with (N.eqb sep c || existsb (N.eqb sep) n) in H.
  rewrite E in H. discriminate H.
Qed.

Lemma os_path_join_valid (a n : str) :
  valid_name n = true ->
  os_path_join a n = a ++ n \/ os_path_join a n = a ++ [sep] ++ n.
Proof.
  intros H. unfold os_path_join. rewrite (valid_name_relative n H).
  destruct (is_nil a || endswith [sep] a); [left|right]; reflexivity.
Qed.

Lemma contains_join_l (p a n : str) :
  valid_name n = true -> contains p a = true ->
  contains p (os_path_join a n) = true.
Proof.
  intros Hn H. destruct (os_path_join_valid a n Hn) as [-> | ->];
    apply contains_app_l; exact H.
Qed.




(** * The inclusion filter *)

Lemma should_include_file_skips (L : Libs) (wd fp : str) (excl : list str)
  (g : GitignoreFilter) :
  should_include_file L wd fp excl g = true ->
  is_ignored L wd g fp = false /\
  (forall p, In p (skip_patterns ++ excl) -> contains p fp = false) /\
  str_in (lower (path_suffix fp)) binary_extensions = false.
Proof.
  unfold should_include_file.
  destruct (is_ignored L wd g fp); [discriminate|].
  destruct (contains (py ".DS_Store") fp); [discriminate|].
  destruct (contains (py "node_modules") fp); [discriminate|].
  destruct (existsb (fun pattern => contains pattern fp) (skip_patterns ++ excl))
    eqn:E; [discriminate|].
  intros H. split; [reflexivity|]. split.
  - intros p Hin. destruct (contains p fp) eqn:Ep; [|reflexivity].
    assert (existsb (fun pattern => contains pattern fp) (skip_patterns ++ excl) = true)
      by (apply existsb_exists; exists p; split; assumption).
    congruence.
  - apply negb_true_iff. exact H.
Qed.


Section Dead.
Context (L : Libs) (wd : str) (excl : list str) (g : GitignoreFilter).

(** The ignore rules that reject a path reject what lies beneath it. *)
Hypothesis ignore_closed :
  forall path n, valid_name n = true ->
    is_ignored L wd g path = true ->
    is_ignored L wd g (os_path_join path n) = true.



End Dead.

(** * The two walks *)

Lemma entry_ind' (P : entry -> Prop)
  (HF : forall n d, P (File n d))
  (HD : forall n es, Forall P es -> P (Dir n es)) :
  forall e, P e.
Proof.
  fix IH 1. intros [n d|n es]; [apply HF|apply HD].
  induction es as [|e es IHes]; constructor; [apply IH|exact IHes].
Qed.

Lemma flat_map_nil {A B : Type} (f : A -> list B) (l : list A) :
  (forall x, In x l -> f x = []) -> flat_map f l = [].
Proof.
  induction l as [|x l IH]; intros H; simpl; [reflexivity|].
  rewrite (H x (or_introl eq_refl)), IH; [reflexivity|].
  intros y Hy. apply H. right. exact Hy.
Qed.



Lemma valid_file_names (es : list entry) :
  forallb valid_entry es = true ->
  forall n, In n (file_names es) -> valid_name n = true.
Proof.
  induction es as [|e es IH]; intros H n Hin; [destruct Hin|].
  simpl in H. apply andb_true_iff in H as [He Hes].
  unfold file_names in Hin. simpl in Hin. apply in_app_or in Hin as [Hin|Hin].
  - destruct e as [m d|m es']; [|destruct Hin].
    destruct Hin as [<-|[]]. exact He.
  - apply IH; assumption.
Qed.

Section Walks.
Context (L : Libs) (wd : str) (excl : list str) (g : GitignoreFilter).

Hypothesis ignore_closed :
  forall path n, valid_name n = true ->
    is_ignored L wd g path = true ->
    is_ignored L wd g (os_path_join path n) = true.






End Walks.

(** * What the two sections list *)

Lemma structure_file_paths_app (a b : list structure_item) :
  structure_file_paths (a ++ b) = structure_file_paths a ++ structure_file_paths b.
Proof. unfold structure_file_paths. apply flat_map_app. Qed.


Lemma structure_of_visit_files (L : Libs) (wd dir : str) (excl : list str)
  (g : GitignoreFilter) (v : str * list entry) :
  structure_file_paths (structure_of_visit L wd dir excl g v) =
  map fst (included_files L wd excl g v).
Proof.
  destruct v as [root es]. unfold structure_of_visit, included_files.
  rewrite structure_file_paths_app.
  replace (structure_file_paths
             (if str_eqb (os_path_relpath wd root dir) (py ".") then []
              else [Item_dir
                      (List.concat
                         (repeat (py "  ")
                            (count_char sep (replace_with_empty dir root))))
                      root]))
    with (@nil str) by (destruct (str_eqb _ _); reflexivity).
  cbn [app].
  induction (sorted (file_names es)) as [|file l IH]; [reflexivity|].
  cbn [flat_map]. rewrite structure_file_paths_app, map_app, IH. f_equal.
  destruct (should_include_file L wd (os_path_join root file) excl g);
    reflexivity.
Qed.

Lemma structure_items_files (L : Libs) (wd dir : str) (es : list entry)
  (excl : list str) (g : GitignoreFilter) :
  structure_file_paths (structure_items L wd dir es excl g) =
  map fst (flat_map (included_files L wd excl g)
             (os_walk (keep_dir L wd excl g) dir es)).
Proof.
  unfold structure_items.
  induction (os_walk (keep_dir L wd excl g) dir es) as [|v l IH];
    [reflexivity|].
  cbn [flat_map]. rewrite structure_file_paths_app, map_app, IH.
  rewrite structure_of_visit_files. reflexivity.
Qed.

Lemma process_file_blocks (L : Libs) (wd : str) (m : bool) (fp : str)
  (data : result str) (st : pass_state) :
  blocks (process_file L wd m fp data st) =
  blocks st ++ blocks (process_file L wd m fp data empty_state).
Proof.
  unfold process_file.
  destruct data as [content|e].
  2:{ destruct e; cbn; rewrite app_nil_r; reflexivity. }
  destruct (if m then utf8_len content else Ok 0%Z) as [n|e].
  2:{ cbn; rewrite app_nil_r; reflexivity. }
  destruct (format_file_content L wd fp content (get_file_type fp) m)
    as [[text|e] msgs].
  2:{ cbn; rewrite app_nil_r; reflexivity. }
  destruct m.
  - destruct (search_minified_size text); cbn;
      [reflexivity|rewrite app_nil_r; reflexivity].
  - reflexivity.
Qed.




Lemma is_ignored_empty_spec (L : Libs) (wd : str) (g : GitignoreFilter) (p : str) :
  spec g = None -> is_ignored L wd g p = false.
Proof. intros H. unfold is_ignored. rewrite H. reflexivity. Qed.

(** The output file of a run that could open it: the structure section,
    rendered from [structure_items], then the files section, the blocks
    of [content_pass]. *)
Lemma process_directory_sections (L : Libs) (w : world) (dir : str)
  (es : list entry) (out : str) (excl : list str) (m : bool) :
  output_writable w = true ->
  let g := fst (new_GitignoreFilter dir es) in
  exists tail,
    written (process_directory L w dir es out excl m) =
    Some (py "<project>" ++ nl ++ nl ++
          structure_section (structure_items L (cwd w) dir es excl g) ++
          files_section
            (blocks (content_pass L (cwd w) dir es excl g m empty_state)) ++
          tail).
Proof.
  intros Hw g. unfold process_directory. subst g.
  destruct (new_GitignoreFilter dir es) as [g msgs0]. cbn [fst].
  rewrite Hw. cbn [negb].
  fold empty_state.
  set (st := content_pass L (cwd w) dir es excl g m empty_state).
  destruct m.
  - destruct (int_true_div _ _) as [q|e]; cbn [written].
    + eexists. rewrite <- !app_assoc. reflexivity.
    + exists []. rewrite !app_nil_r, <- ?app_assoc. reflexivity.
  - cbn [written]. eexists. rewrite <- !app_assoc. reflexivity.
Qed.

(** * C2: the structure section and the files section *)


Example undecodable_file_output :
  let o := main demo_libs
             (world_of (py "/home/u") [File (py "data.bin") (Raise UnicodeDecodeError)])
             (args_of (py "proj") [] false) in
  output_file o = Some (py "<project>

<structure>
  - data.bin
</structure>

<files>
</files>
</project>") /\
  stdout o = [Warning_skipping_binary (py "proj/data.bin");
              Success_generated (py "project_context.txt")].
Proof. vm_compute. split; reflexivity. Qed.

(** * Splitting paths *)

Lemma split_char_nonempty (c : char) (s : str) : split_char c s <> [].
Proof.
  induction s as [|x s IH]; simpl; [discriminate|].
  destruct (N.eqb x c); [discriminate|].
  destruct (split_char c s); [contradiction|discriminate].
Qed.

Lemma split_char_app (c : char) (x y : str) :
  split_char c (x ++ c :: y) = split_char c x ++ split_char c y.
Proof.
  induction x as [|h x IH]; cbn [app split_char].
  - rewrite N.eqb_refl. reflexivity.
  - destruct (N.eqb h c); [rewrite IH; reflexivity|].
    rewrite IH. destruct (split_char c x) as [|w ws] eqn:E; [|reflexivity].
    exfalso. exact (split_char_nonempty c x E).
Qed.

Lemma split_char_no_sep (c : char) (s : str) :
  existsb (N.eqb c) s = false -> split_char c s = [s].
Proof.
  induction s as [|x s IH]; intros H; [reflexivity|].
  cbn [existsb] in H. apply orb_false_iff in H as [Hx Hs].
  cbn [split_char]. rewrite N.eqb_sym, Hx, (IH Hs). reflexivity.
Qed.

Lemma valid_name_no_sep (n : str) :
  valid_name n = true -> existsb (N.eqb sep) n = false.
Proof.
  unfold valid_name. intros H.
  destruct (existsb (N.eqb sep) n); [|reflexivity].
  destruct (is_nil n); discriminate H.
Qed.

Lemma endswith_sep_inv (a : str) :
  endswith [sep] a = true -> exists a', a = a' ++ [sep].
Proof.
  unfold endswith. cbn [rev app]. intros H.
  destruct (rev a) as [|c r] eqn:E; [discriminate H|].
  cbn [startswith] in H. apply andb_true_iff in H as [Hc _].
  apply N.eqb_eq in Hc. subst c.
  exists (rev r). rewrite <- (rev_involutive a), E. reflexivity.
Qed.

Lemma os_path_basename_join (a n : str) :
  valid_name n = true -> os_path_basename (os_path_join a n) = n.
Proof.
  intros Hn. unfold os_path_basename, os_path_join.
  rewrite (valid_name_relative n Hn).
  assert (Hs := split_char_no_sep sep n (valid_name_no_sep n Hn)).
  destruct a as [|c a]; cbn [is_nil orb].
  - cbn [app]. rewrite Hs. reflexivity.
  - destruct (endswith [sep] (c :: a)) eqn:E.
    + apply endswith_sep_inv in E as [a' ->].
      rewrite <- app_assoc. cbn [app].
      rewrite split_char_app, Hs, last_last. reflexivity.
    + cbn [app].
      change (c :: a ++ sep :: n) with ((c :: a) ++ sep :: n).
      rewrite split_char_app, Hs, last_last. reflexivity.
Qed.

(** * Visited directories *)


Lemma commonprefix_len_refl (l : list str) : commonprefix_len l l = List.length l.
Proof.
  induction l as [|x l IH]; [reflexivity|].
  cbn [commonprefix_len]. rewrite str_eqb_refl, IH. reflexivity.
Qed.

Lemma os_path_relpath_self (wd p : str) : os_path_relpath wd p p = py ".".
Proof.
  unfold os_path_relpath. rewrite commonprefix_len_refl, Nat.sub_diag, skipn_all.
  reflexivity.
Qed.


(** * C4: noise directories *)




(** * C1: the scenario with a.json, b.txt and .gitignore *)

Lemma should_include_file_eq (L : Libs) (wd fp : str) (excl : list str)
  (g : GitignoreFilter) :
  should_include_file L wd fp excl g =
  negb (is_ignored L wd g fp) && passes_fixed_rules fp excl.
Proof.
  unfold should_include_file, passes_fixed_rules.
  destruct (is_ignored L wd g fp); [reflexivity|].
  destruct (contains (py ".DS_Store") fp); [reflexivity|].
  destruct (contains (py "node_modules") fp); [reflexivity|].
  destruct (existsb _ _); reflexivity.
Qed.

(** C1, as stated, fails: in the scenario the minified content
    [{"a":1}] is 7 bytes long, so the block of a.json carries
    [minified_size="7"] and [reduction="30.0%"], not 8 and 20.0%. *)
Lemma scenario_minified_size_is_seven :
  let es := [File (py "a.json") (Ok (pyq "{'a':   1}"));
             File (py "b.txt") (Ok (py "hello"));
             File (py ".gitignore") (Ok (py "b.txt"))] in
  let o := main demo_libs (world_of (py "/home/u") es)
             (args_of (py "proj") [] true) in
  exists out,
    output_file o = Some out /\
    utf8_len (pyq "{'a':1}") = Ok 7%Z /\
    contains (pyq "original_size='10' minified_size='7' reduction='30.0%'") out = true /\
    contains (pyq "minified_size='8'") out = false /\
    contains (pyq "reduction='20.0%'") out = false.
Proof. vm_compute. eexists. repeat split. Qed.

(** C1, amended: in the scenario, whatever b.txt holds and for every
    ignore-rule matcher that matches b.txt and not a.json under the rule
    [b.txt], the run succeeds; the structure section and the files section
    contain a.json only; its block carries the minified content [{"a":1}]
    with [original_size="10"], [minified_size="7"] and
    [reduction="30.0%"]; b.txt appears in neither section. *)
Theorem scenario_a_json_only (L : Libs) (b : result str) :
  pathspec_match L [py "b.txt"] (py "b.txt") = true ->
  pathspec_match L [py "b.txt"] (py "a.json") = false ->
  let es := [File (py "a.json") (Ok (pyq "{'a':   1}"));
             File (py "b.txt") b;
             File (py ".gitignore") (Ok (py "b.txt"))] in
  let o := main L (world_of (py "/home/u") es) (args_of (py "proj") [] true) in
  returned o = Some 0%Z /\
  output_file o = Some (pyq "<project>

<structure>
  - a.json
</structure>

<files>
<file path='proj/a.json' type='json' original_size='10' minified_size='7' reduction='30.0%'>
```json
{'a':1}
```
</file>

</files>

<statistics>
Total original size: 10 bytes
Total minified size: 7 bytes
Overall reduction: 30.0%
</statistics>
</project>").
Proof.
  intros H1 H2 es o. subst o es.
  set (g := {| root_dir := py "proj"; spec := Some [py "b.txt"] |}).
  assert (Hg : forall b',
             new_GitignoreFilter (py "proj")
               [File (py "a.json") (Ok (pyq "{'a':   1}")); File (py "b.txt") b';
                File (py ".gitignore") (Ok (py "b.txt"))] = (g, []))
    by reflexivity.
  assert (Ha : should_include_file L (py "/home/u") (py "proj/a.json") [] g = true).
  { rewrite should_include_file_eq. unfold is_ignored, match_file.
    cbn [spec root_dir g].
    replace (os_path_relpath (py "/home/u") (py "proj/a.json") (py "proj"))
      with (py "a.json") by (vm_compute; reflexivity).
    rewrite H2. vm_compute. reflexivity. }
  assert (Hb : should_include_file L (py "/home/u") (py "proj/b.txt") [] g = false).
  { rewrite should_include_file_eq. unfold is_ignored, match_file.
    cbn [spec root_dir g].
    replace (os_path_relpath (py "/home/u") (py "proj/b.txt") (py "proj"))
      with (py "b.txt") by (vm_compute; reflexivity).
    rewrite H1. reflexivity. }
  assert (Hc : should_include_file L (py "/home/u") (py "proj/.gitignore") [] g
               = false).
  { rewrite should_include_file_eq.
    replace (passes_fixed_rules (py "proj/.gitignore") []) with false
      by (vm_compute; reflexivity).
    apply andb_false_r. }
  unfold main, world_of, args_of.
  cbn [listing directory output exclude minify os_path_isdir].
  unfold process_directory. rewrite Hg. cbn [output_writable negb cwd].
  unfold structure_items, content_pass, os_walk.
  cbn [flat_map walk_entry app fold_left].
  unfold structure_of_visit, content_of_visit.
  replace (sorted (file_names
                     [File (py "a.json") (Ok (pyq "{'a':   1}")); File (py "b.txt") b;
                      File (py ".gitignore") (Ok (py "b.txt"))]))
    with [py ".gitignore"; py "a.json"; py "b.txt"] by (vm_compute; reflexivity).
  cbn [flat_map fold_left].
  replace (os_path_join (py "proj") (py "a.json")) with (py "proj/a.json")
    by (vm_compute; reflexivity).
  replace (os_path_join (py "proj") (py "b.txt")) with (py "proj/b.txt")
    by (vm_compute; reflexivity).
  replace (os_path_join (py "proj") (py ".gitignore")) with (py "proj/.gitignore")
    by (vm_compute; reflexivity).
  rewrite Ha, Hb, Hc.
  vm_compute. split; reflexivity.
Qed.

Lemma scenario_a_json_only_witness :
  let es := [File (py "a.json") (Ok (pyq "{'a':   1}"));
             File (py "b.txt") (Ok (py "hello"));
             File (py ".gitignore") (Ok (py "b.txt"))] in
  let o := main demo_libs (world_of (py "/home/u") es)
             (args_of (py "proj") [] true) in
  returned o = Some 0%Z /\
  output_file o = Some (pyq "<project>

<structure>
  - a.json
</structure>

<files>
<file path='proj/a.json' type='json' original_size='10' minified_size='7' reduction='30.0%'>
```json
{'a':1}
```
</file>

</files>

<statistics>
Total original size: 10 bytes
Total minified size: 7 bytes
Overall reduction: 30.0%
</statistics>
</project>").
Proof.
  apply (scenario_a_json_only demo_libs (Ok (py "hello"))); reflexivity.
Defined.

(** * Components of a path *)

Lemma split_char_sep_free (s : str) :
  Forall sep_free (split_char sep s).
Proof.
  induction s as [|x s IH]; cbn [split_char].
  - constructor; [reflexivity|constructor].
  - destruct (N.eqb x sep) eqn:E.
    + constructor; [reflexivity|exact IH].
    + destruct (split_char sep s) as [|w ws]; [repeat constructor|].
      * unfold sep_free. cbn [existsb]. rewrite N.eqb_sym, E. reflexivity.
      * inversion IH as [|? ? Hw Hws]; subst. constructor; [|exact Hws].
        unfold sep_free in *. cbn [existsb]. rewrite N.eqb_sym, E. exact Hw.
Qed.

Lemma split_char_join (l : list str) :
  l <> [] -> Forall sep_free l -> split_char sep (join [sep] l) = l.
Proof.
  induction l as [|w l IH]; intros Hne Hf; [contradiction|].
  inversion Hf as [|? ? Hw Hl]; subst.
  destruct l as [|w' l].
  - cbn [join]. apply split_char_no_sep. exact Hw.
  - change (join [sep] (w :: w' :: l)) with (w ++ [sep] ++ join [sep] (w' :: l)).
    cbn [app]. rewrite split_char_app, (split_char_no_sep sep w Hw).
    rewrite IH; [reflexivity|discriminate|exact Hl].
Qed.

Lemma valid_name_sep_free (n : str) : valid_name n = true -> sep_free n.
Proof. apply valid_name_no_sep. Qed.

Lemma valid_name_not_dots (n : str) :
  valid_name n = true -> n <> [] /\ n <> py "." /\ n <> py "..".
Proof.
  unfold valid_name. intros H.
  apply andb_true_iff in H as [H H3]. apply andb_true_iff in H as [H H2].
  apply andb_true_iff in H as [H0 H1].
  repeat split.
  - intros ->. discriminate H0.
  - apply str_eqb_neq. apply negb_true_iff. exact H2.
  - apply str_eqb_neq. apply negb_true_iff. exact H3.
Qed.

(** * normpath on a path extended by a name *)

Lemma initial_slashes_of_leading (s : str) :
  initial_slashes_of s =
  match leading_seps s with
  | 0 => 0
  | 2 => 2
  | _ => 1
  end.
Proof.
  unfold initial_slashes_of.
  destruct s as [|a s]; [reflexivity|].
  cbn [startswith leading_seps]. rewrite (N.eqb_sym sep a).
  destruct (N.eqb a sep); [|reflexivity].
  destruct s as [|b s]; [reflexivity|].
  cbn [startswith leading_seps andb]. rewrite (N.eqb_sym sep b).
  destruct (N.eqb b sep); [|reflexivity].
  destruct s as [|c s]; [reflexivity|].
  cbn [startswith leading_seps andb]. rewrite (N.eqb_sym sep c).
  destruct (N.eqb c sep); reflexivity.
Qed.

Lemma leading_seps_app_name (p n : str) :
  valid_name n = true ->
  leading_seps (p ++ n) = leading_seps p /\
  leading_seps (p ++ sep :: n) =
    if Nat.eqb (leading_seps p) (List.length p) then S (List.length p)
    else leading_seps p.
Proof.
  intros Hn.
  assert (Hn0 : leading_seps n = 0).
  { assert (H := valid_name_relative n Hn). destruct n as [|c n]; [reflexivity|].
    cbn [startswith] in H. cbn [leading_seps]. rewrite N.eqb_sym.
    destruct (N.eqb sep c); [discriminate H|reflexivity]. }
  induction p as [|c p [IH1 IH2]].
  - cbn [app leading_seps List.length Nat.eqb]. rewrite N.eqb_refl, Hn0.
    split; reflexivity.
  - cbn [app leading_seps List.length]. destruct (N.eqb c sep).
    + rewrite IH1, IH2. split; [reflexivity|].
      cbn [Nat.eqb]. destruct (Nat.eqb (leading_seps p) (List.length p));
        reflexivity.
    + split; reflexivity.
Qed.

Lemma leading_seps_le (p : str) : leading_seps p <= List.length p.
Proof.
  induction p as [|c p IH]; cbn [leading_seps List.length]; [lia|].
  destruct (N.eqb c sep); lia.
Qed.

Lemma leading_seps_all_ends (p : str) :
  p <> [] -> leading_seps p = List.length p -> endswith [sep] p = true.
Proof.
  intros Hne H.
  assert (Hall : forall q, leading_seps q = List.length q ->
                           q = repeat sep (List.length q)).
  { induction q as [|c q IHq]; [reflexivity|].
    cbn [leading_seps List.length repeat]. destruct (N.eqb_spec c sep) as [->|Hc].
    - intros E. injection E as E. rewrite <- (IHq E). reflexivity.
    - discriminate. }
  rewrite (Hall p H). destruct (List.length p) as [|k] eqn:E.
  - destruct p; [contradiction|discriminate E].
  - unfold endswith. cbn [rev app].
    replace (rev (repeat sep (S k))) with (repeat sep (S k)).
    + cbn [repeat startswith]. rewrite N.eqb_refl. reflexivity.
    + clear. induction k as [|k IH]; [reflexivity|].
      change (repeat sep (S (S k))) with (sep :: repeat sep (S k)) at 2.
      cbn [rev]. rewrite <- IH. clear IH.
      induction (S k) as [|j IHj]; [reflexivity|].
      cbn [repeat app]. rewrite <- IHj. reflexivity.
Qed.

Lemma endswith_sep_app (x y : str) :
  y <> [] -> endswith [sep] (x ++ y) = endswith [sep] y.
Proof.
  intros Hy. unfold endswith. rewrite rev_app_distr.
  destruct (rev y) as [|c r] eqn:E.
  - exfalso. apply Hy. rewrite <- (rev_involutive y), E. reflexivity.
  - reflexivity.
Qed.

Lemma os_path_join_relative (a q : str) :
  a <> [] -> startswith [sep] q = false ->
  os_path_join a q = if endswith [sep] a then a ++ q else a ++ sep :: q.
Proof.
  intros Ha Hq. unfold os_path_join. rewrite Hq.
  destruct a as [|c a]; [contradiction|]. cbn [is_nil orb].
  destruct (endswith [sep] (c :: a)); reflexivity.
Qed.

Lemma os_path_join_nonempty (a n : str) :
  a <> [] -> valid_name n = true ->
  os_path_join a n = if endswith [sep] a then a ++ n else a ++ sep :: n.
Proof.
  intros Ha Hn. apply os_path_join_relative; [exact Ha|].
  exact (valid_name_relative n Hn).
Qed.

(** The string that [abspath] normalises for a path extended by a name
    is the one for the path, extended by the name. *)
Lemma abs_string_join (wd p n : str) :
  startswith [sep] wd = true -> valid_name n = true ->
  startswith [sep] (abs_string wd p) = true /\
  abs_string wd (os_path_join p n) =
    if endswith [sep] (abs_string wd p) then abs_string wd p ++ n
    else abs_string wd p ++ sep :: n.
Proof.
  intros Hwd Hn.
  assert (Hwd0 : wd <> []) by (intros ->; discriminate Hwd).
  assert (Hnrel := valid_name_relative n Hn).
  assert (Hn0 : n <> []) by (apply (valid_name_not_dots n Hn)).
  destruct (startswith [sep] p) eqn:Ep.
  - (* an absolute path *)
    assert (Hp0 : p <> []) by (intros ->; discriminate Ep).
    assert (HP : abs_string wd p = p) by (unfold abs_string; rewrite Ep; reflexivity).
    rewrite HP. split; [exact Ep|].
    rewrite (os_path_join_nonempty p n Hp0 Hn). unfold abs_string.
    destruct (endswith [sep] p).
    + rewrite (startswith_app [sep] p n Ep). reflexivity.
    + rewrite (startswith_app [sep] p (sep :: n) Ep). reflexivity.
  - assert (HP : abs_string wd p =
                 if endswith [sep] wd then wd ++ p else wd ++ sep :: p).
    { unfold abs_string. rewrite Ep. apply os_path_join_relative; assumption. }
    assert (Hj0 : startswith [sep] (os_path_join p n) = false).
    { destruct p as [|c p].
      - unfold os_path_join. rewrite Hnrel. exact Hnrel.
      - rewrite (os_path_join_nonempty (c :: p) n) by (discriminate || exact Hn).
        cbn [startswith] in Ep |- *.
        destruct (endswith [sep] (c :: p)); cbn [app startswith]; exact Ep. }
    assert (HP' : abs_string wd (os_path_join p n) =
                  if endswith [sep] wd then wd ++ os_path_join p n
                  else wd ++ sep :: os_path_join p n).
    { unfold abs_string. rewrite Hj0. apply os_path_join_relative; assumption. }
    rewrite HP', HP. clear HP HP'.
    split.
    { destruct (endswith [sep] wd); apply startswith_app; exact Hwd. }
    destruct p as [|c p].
    + (* the empty path *)
      assert (Hj : os_path_join [] n = n)
        by (unfold os_path_join; rewrite Hnrel; reflexivity).
      rewrite Hj.
      destruct (endswith [sep] wd) eqn:Ew.
      * rewrite app_nil_r, Ew. reflexivity.
      * rewrite (endswith_sep_app wd [sep]) by discriminate.
        change (endswith [sep] [sep]) with true. cbv iota.
        rewrite <- app_assoc. reflexivity.
    + (* a relative path *)
      assert (Hp0 : c :: p <> []) by discriminate.
      rewrite (os_path_join_nonempty (c :: p) n Hp0 Hn).
      destruct (endswith [sep] wd) eqn:Ew.
      * rewrite (endswith_sep_app wd (c :: p) Hp0).
        destruct (endswith [sep] (c :: p)); rewrite <- app_assoc; reflexivity.
      * rewrite (endswith_sep_app wd (sep :: c :: p)) by discriminate.
        rewrite (endswith_sep_app [sep] (c :: p) Hp0 :
                   endswith [sep] (sep :: c :: p) = endswith [sep] (c :: p)).
        destruct (endswith [sep] (c :: p)).
        -- change (wd ++ sep :: (c :: p) ++ n) with (wd ++ (sep :: c :: p) ++ n).
           rewrite app_assoc. reflexivity.
        -- change (wd ++ sep :: (c :: p) ++ sep :: n)
             with (wd ++ (sep :: c :: p) ++ sep :: n).
           rewrite app_assoc. reflexivity.
Qed.

Lemma normpath_push_name (k : nat) (comps : list str) (n : str) :
  valid_name n = true -> normpath_push k comps n = comps ++ [n].
Proof.
  intros Hn. destruct (valid_name_not_dots n Hn) as [H0 [H1 H2]].
  unfold normpath_push.
  rewrite (proj2 (str_eqb_neq n []) H0), (proj2 (str_eqb_neq n (py ".")) H1),
    (proj2 (str_eqb_neq n (py "..")) H2).
  reflexivity.
Qed.

Lemma normpath_push_empty (k : nat) (comps : list str) :
  normpath_push k comps [] = comps.
Proof. reflexivity. Qed.

Lemma normpath_comps_extended (P n : str) :
  P <> [] -> valid_name n = true ->
  normpath_comps (if endswith [sep] P then P ++ n else P ++ sep :: n) =
  normpath_comps P ++ [n].
Proof.
  intros HP Hn. unfold normpath_comps.
  assert (Hsplit := split_char_no_sep sep n (valid_name_no_sep n Hn)).
  destruct (endswith [sep] P) eqn:E.
  - destruct (endswith_sep_inv P E) as [Q ->].
    replace (initial_slashes_of ((Q ++ [sep]) ++ n))
      with (initial_slashes_of (Q ++ [sep])).
    2:{ rewrite !initial_slashes_of_leading.
        rewrite (proj1 (leading_seps_app_name (Q ++ [sep]) n Hn)). reflexivity. }
    rewrite <- app_assoc. cbn [app].
    rewrite !split_char_app, Hsplit. cbn [split_char].
    rewrite !fold_left_app. cbn [fold_left].
    rewrite normpath_push_empty. apply normpath_push_name. exact Hn.
  - replace (initial_slashes_of (P ++ sep :: n)) with (initial_slashes_of P).
    2:{ rewrite !initial_slashes_of_leading.
        rewrite (proj2 (leading_seps_app_name P n Hn)).
        destruct (Nat.eqb (leading_seps P) (List.length P)) eqn:El; [|reflexivity].
        apply Nat.eqb_eq in El.
        rewrite (leading_seps_all_ends P HP El) in E. discriminate E. }
    rewrite split_char_app, Hsplit, fold_left_app. cbn [fold_left].
    apply normpath_push_name. exact Hn.
Qed.

Lemma Forall_removelast {A : Type} (P : A -> Prop) (l : list A) :
  Forall P l -> Forall P (removelast l).
Proof.
  induction 1 as [|x l Hx Hl IH]; [constructor|].
  cbn [removelast]. destruct l; [constructor|].
  constructor; [exact Hx|exact IH].
Qed.

Lemma normpath_push_components (k : nat) (comps : list str) (c : str) :
  Forall component comps -> sep_free c ->
  Forall component (normpath_push k comps c).
Proof.
  intros Hc Hs. unfold normpath_push.
  destruct (str_eqb c []) eqn:E0; [exact Hc|].
  cbn [orb]. destruct (str_eqb c (py ".")); [exact Hc|].
  destruct (negb (str_eqb c (py "..")) || _ || _).
  - apply Forall_app. split; [exact Hc|]. constructor; [|constructor].
    split; [|exact Hs]. apply str_eqb_neq. exact E0.
  - apply Forall_removelast. exact Hc.
Qed.

Lemma normpath_comps_components (P : str) : Forall component (normpath_comps P).
Proof.
  unfold normpath_comps.
  assert (H : forall l acc, Forall sep_free l -> Forall component acc ->
              Forall component
                (fold_left (normpath_push (initial_slashes_of P)) l acc)).
  { induction l as [|c l IH]; intros acc Hl Hacc; [exact Hacc|].
    inversion Hl; subst. cbn [fold_left]. apply IH; [assumption|].
    apply normpath_push_components; assumption. }
  apply H; [apply split_char_sep_free|constructor].
Qed.

Lemma split_char_leading (k : nat) (s : str) :
  filter (fun x => negb (is_nil x)) (split_char sep (repeat sep k ++ s)) =
  filter (fun x => negb (is_nil x)) (split_char sep s).
Proof.
  induction k as [|k IH]; [reflexivity|].
  cbn [repeat app split_char]. rewrite N.eqb_refl. cbn [filter is_nil negb].
  exact IH.
Qed.

Lemma filter_components (l : list str) :
  Forall component l -> filter (fun x => negb (is_nil x)) l = l.
Proof.
  induction 1 as [|x l [Hx _] Hl IH]; [reflexivity|].
  cbn [filter]. destruct x; [contradiction|]. cbn [is_nil negb].
  rewrite IH. reflexivity.
Qed.

Lemma Forall_component_sep_free (l : list str) :
  Forall component l -> Forall sep_free l.
Proof. apply Forall_impl. intros a [_ H]. exact H. Qed.

(** For an absolute path, the list that [relpath] works on is the list of
    components that [normpath] keeps. *)
Lemma path_list_comps (wd p : str) :
  startswith [sep] (abs_string wd p) = true ->
  path_list wd p = normpath_comps (abs_string wd p).
Proof.
  intros Habs. unfold path_list, os_path_abspath.
  fold (abs_string wd p). set (P := abs_string wd p) in *.
  assert (HP : P <> []) by (intros E; rewrite E in Habs; discriminate Habs).
  assert (Hk : initial_slashes_of P = 1 \/ initial_slashes_of P = 2).
  { unfold initial_slashes_of. rewrite Habs.
    destruct (startswith [sep; sep] P && negb (startswith [sep; sep; sep] P));
      [right|left]; reflexivity. }
  assert (Hc := normpath_comps_components P).
  unfold os_path_normpath. destruct P as [|c0 P0] eqn:EP; [contradiction|].
  rewrite <- EP in *.
  set (k := initial_slashes_of P) in *.
  set (comps := normpath_comps P) in *.
  assert (Hne : repeat sep k ++ join [sep] comps <> []).
  { destruct Hk as [-> | ->]; discriminate. }
  destruct (repeat sep k ++ join [sep] comps) as [|x r] eqn:Er; [contradiction|].
  rewrite <- Er. rewrite split_char_leading.
  destruct comps as [|w ws] eqn:Ec; [reflexivity|].
  rewrite split_char_join; [|discriminate|apply Forall_component_sep_free; exact Hc].
  apply filter_components. exact Hc.
Qed.

Lemma path_list_join (wd p n : str) :
  startswith [sep] wd = true -> valid_name n = true ->
  path_list wd (os_path_join p n) = path_list wd p ++ [n].
Proof.
  intros Hwd Hn.
  destruct (abs_string_join wd p n Hwd Hn) as [Habs Hext].
  assert (Habs' : startswith [sep] (abs_string wd (os_path_join p n)) = true).
  { rewrite Hext. destruct (endswith [sep] (abs_string wd p));
      apply startswith_app; exact Habs. }
  rewrite (path_list_comps wd (os_path_join p n) Habs').
  rewrite (path_list_comps wd p Habs), Hext.
  apply normpath_comps_extended; [|exact Hn].
  intros E. rewrite E in Habs. discriminate Habs.
Qed.

Lemma path_list_under (wd dir : str) (names : list str) :
  startswith [sep] wd = true -> forallb valid_name names = true ->
  path_list wd (path_under dir names) = path_list wd dir ++ names.
Proof.
  intros Hwd. unfold path_under. revert dir.
  induction names as [|n names IH]; intros dir Hn.
  - cbn. rewrite app_nil_r. reflexivity.
  - cbn [forallb] in Hn. apply andb_true_iff in Hn as [Hn Hns].
    cbn [fold_left]. rewrite (IH _ Hns), (path_list_join wd dir n Hwd Hn).
    rewrite <- app_assoc. reflexivity.
Qed.

(** * relpath *)

Lemma commonprefix_len_app (r x : list str) :
  commonprefix_len r (r ++ x) = List.length r.
Proof.
  induction r as [|a r IH]; [destruct x; reflexivity|].
  cbn [app commonprefix_len List.length]. rewrite str_eqb_refl, IH. reflexivity.
Qed.

Lemma commonprefix_len_le (a b : list str) :
  commonprefix_len a b <= List.length a.
Proof.
  revert b; induction a as [|x a IH]; intros [|y b]; cbn [commonprefix_len List.length];
    try lia.
  destruct (str_eqb x y); [specialize (IH b)|]; lia.
Qed.

Lemma commonprefix_len_le_r (a b : list str) :
  commonprefix_len a b <= List.length b.
Proof.
  revert b; induction a as [|x a IH]; intros [|y b]; cbn [commonprefix_len List.length];
    try lia.
  destruct (str_eqb x y); [specialize (IH b)|]; lia.
Qed.

Lemma commonprefix_len_full (a b : list str) :
  commonprefix_len a b = List.length a -> firstn (List.length a) b = a.
Proof.
  revert b; induction a as [|x a IH]; intros b H; [reflexivity|].
  destruct b as [|y b]; [discriminate H|].
  cbn [commonprefix_len List.length] in H.
  destruct (str_eqb x y) eqn:E; [|discriminate H].
  apply str_eqb_eq in E. subst y. injection H as H.
  cbn [List.length firstn]. rewrite (IH b H). reflexivity.
Qed.

Lemma path_list_components (wd p : str) : Forall sep_free (path_list wd p).
Proof.
  unfold path_list.
  assert (H := split_char_sep_free (os_path_abspath wd p)).
  induction H as [|x l Hx Hl IH]; [constructor|].
  cbn [filter]. destruct (negb (is_nil x)); [constructor|]; assumption.
Qed.

(** Relative to the root, the path of an entry is its names joined. *)
Lemma os_path_relpath_root (wd dir : str) (names : list str) :
  startswith [sep] wd = true -> forallb valid_name names = true ->
  names <> [] ->
  os_path_relpath wd (path_under dir names) dir = join [sep] names.
Proof.
  intros Hwd Hn Hne. unfold os_path_relpath.
  rewrite (path_list_under wd dir names Hwd Hn).
  rewrite commonprefix_len_app, Nat.sub_diag. cbn [repeat app].
  rewrite skipn_app, skipn_all, Nat.sub_diag. cbn [skipn app].
  destruct names; [contradiction|reflexivity].
Qed.

Lemma forallb_valid_sep_free (names : list str) :
  forallb valid_name names = true -> Forall sep_free names.
Proof.
  intros H. apply Forall_forall. intros n Hin.
  rewrite forallb_forall in H. apply valid_name_sep_free. exact (H n Hin).
Qed.

(** Relative to a working directory that is not the root, the path of an
    entry is not its root-relative path. *)
Lemma os_path_relpath_cwd_differs (wd dir : str) (names : list str) :
  startswith [sep] wd = true -> forallb valid_name names = true ->
  names <> [] ->
  path_list wd dir <> path_list wd (py ".") ->
  os_path_relpath wd (path_under dir names) (py ".") <> join [sep] names.
Proof.
  intros Hwd Hn Hne Hdiff Heq.
  unfold os_path_relpath in Heq.
  rewrite (path_list_under wd dir names Hwd Hn) in Heq.
  set (C := path_list wd (py ".")) in *.
  set (R := path_list wd dir) in *.
  set (i := commonprefix_len C (R ++ names)) in *.
  assert (Hi : i <= List.length C) by apply commonprefix_len_le.
  assert (Hnames := forallb_valid_sep_free names Hn).
  assert (Hsplit : split_char sep (join [sep] names) = names)
    by (apply split_char_join; assumption).
  destruct names as [|n1 names']; [contradiction|].
  assert (Hn1 : valid_name n1 = true).
  { cbn [forallb] in Hn. apply andb_true_iff in Hn as [H _]. exact H. }
  destruct (valid_name_not_dots n1 Hn1) as [_ [Hdot Hdots]].
  set (names := n1 :: names') in *.
  destruct (repeat (py "..") (List.length C - i) ++ skipn i (R ++ names))
    as [|x rel] eqn:Erel.
  - (* the path is the working directory itself *)
    rewrite <- Heq in Hsplit. cbn in Hsplit.
    injection Hsplit as Hsplit _. symmetry in Hsplit. contradiction.
  - assert (Hrel : Forall sep_free (x :: rel)).
    { rewrite <- Erel. apply Forall_app. split.
      - apply Forall_forall. intros y Hy. apply repeat_spec in Hy. subst y.
        reflexivity.
      - apply Forall_forall. intros y Hy.
        assert (Hy' : In y (R ++ names)).
        { rewrite <- (firstn_skipn i (R ++ names)). apply in_or_app. right.
          exact Hy. }
        assert (Hall : Forall sep_free (R ++ names)).
        { apply Forall_app. split; [apply path_list_components|exact Hnames]. }
        rewrite Forall_forall in Hall. exact (Hall y Hy'). }
    assert (Hlist : x :: rel = names).
    { rewrite <- Hsplit, <- Heq. symmetry. apply split_char_join;
        [discriminate|exact Hrel]. }
    rewrite <- Erel in Hlist.
    destruct (List.length C - i) as [|k] eqn:Ek.
    + (* the working directory is an ancestor of the path *)
      cbn [repeat app] in Hlist.
      assert (Hic : i = List.length C) by lia.
      assert (Hlen : List.length (skipn i (R ++ names)) = List.length names)
        by (rewrite Hlist; reflexivity).
      rewrite length_skipn, length_app in Hlen.
      assert (Hir : i <= List.length R + List.length names).
      { rewrite <- length_app. apply commonprefix_len_le_r. }
      assert (Hpre := commonprefix_len_full C (R ++ names)).
      fold i in Hpre. specialize (Hpre Hic).
      assert (Hlr : List.length R = List.length C) by lia.
      rewrite <- Hlr in Hpre.
      rewrite firstn_app, firstn_all, Nat.sub_diag in Hpre.
      cbn [firstn] in Hpre. rewrite app_nil_r in Hpre.
      apply Hdiff. exact Hpre.
    + (* the path leaves the working directory *)
      cbn [repeat app] in Hlist. injection Hlist as Hx _.
      symmetry in Hx. contradiction.
Qed.

(** * The blocks of the files section *)

Lemma format_file_content_path (L : Libs) (wd fp content ft : str) (m : bool)
  (text : str) (msgs : list message) :
  format_file_content L wd fp content ft m = (Ok text, msgs) ->
  exists rest,
    text = pyq "<file path='" ++ os_path_relpath wd fp (py ".") ++
           pyq "' type='" ++ rest.
Proof.
  unfold format_file_content. destruct m.
  - destruct (minify_content L content ft) as [mc ms].
    destruct (calculate_size_reduction content mc) as [[[o mi] red]|e];
      [|discriminate].
    intros H. injection H as <- _. eexists. rewrite <- !app_assoc. reflexivity.
  - intros H. injection H as <- _. eexists. rewrite <- !app_assoc. reflexivity.
Qed.

Lemma process_file_block_text (L : Libs) (wd : str) (m : bool) (fp : str)
  (data : result str) (b : str * str) :
  In b (blocks (process_file L wd m fp data empty_state)) ->
  fst b = fp /\
  exists content msgs,
    data = Ok content /\
    format_file_content L wd fp content (get_file_type fp) m = (Ok (snd b), msgs).
Proof.
  unfold process_file.
  destruct data as [content|e]; [|destruct e; intros []].
  destruct (if m then utf8_len content else Ok 0%Z) as [n|e]; [|intros []].
  destruct (format_file_content L wd fp content (get_file_type fp) m)
    as [[text|e] msgs] eqn:Ef; [|intros []].
  destruct m.
  - destruct (search_minified_size text); [|intros []].
    cbn [blocks add_block print_in app empty_state]. intros [<-|[]].
    split; [reflexivity|].
    exists content, msgs. split; [reflexivity|exact Ef].
  - cbn [blocks add_block print_in app empty_state]. intros [<-|[]].
    split; [reflexivity|].
    exists content, msgs. split; [reflexivity|exact Ef].
Qed.

Lemma content_of_visit_all_blocks (L : Libs) (wd : str) (excl : list str)
  (g : GitignoreFilter) (m : bool) (v : str * list entry) (st : pass_state) :
  blocks (content_of_visit L wd excl g m st v) =
  blocks st ++
  flat_map (fun f => blocks (process_file L wd m (fst f) (snd f) empty_state))
    (included_files L wd excl g v).
Proof.
  destruct v as [root es]. unfold content_of_visit, included_files.
  revert st. induction (sorted (file_names es)) as [|file l IH]; intros st.
  - cbn. rewrite app_nil_r. reflexivity.
  - cbn [fold_left flat_map]. rewrite IH. clear IH.
    rewrite flat_map_app, app_assoc. f_equal.
    destruct (should_include_file L wd (os_path_join root file) excl g).
    + rewrite process_file_blocks. cbn [flat_map fst snd].
      rewrite app_nil_r. reflexivity.
    + cbn. rewrite app_nil_r. reflexivity.
Qed.

Lemma content_pass_all_blocks (L : Libs) (wd dir : str) (es : list entry)
  (excl : list str) (g : GitignoreFilter) (m : bool) (st : pass_state) :
  blocks (content_pass L wd dir es excl g m st) =
  blocks st ++
  flat_map (fun f => blocks (process_file L wd m (fst f) (snd f) empty_state))
    (flat_map (included_files L wd excl g) (os_walk (fun _ _ => true) dir es)).
Proof.
  unfold content_pass. revert st.
  induction (os_walk (fun _ _ => true) dir es) as [|v l IH]; intros st.
  - cbn. rewrite app_nil_r. reflexivity.
  - cbn [fold_left flat_map]. rewrite IH, content_of_visit_all_blocks.
    rewrite flat_map_app, app_assoc. reflexivity.
Qed.

Lemma included_file_path (L : Libs) (wd : str) (excl : list str)
  (g : GitignoreFilter) (root : str) (es : list entry) (f : str * result str) :
  In f (included_files L wd excl g (root, es)) ->
  exists file, In file (file_names es) /\ fst f = os_path_join root file.
Proof.
  unfold included_files. intros H.
  apply in_flat_map in H as [file [Hin H]].
  destruct (should_include_file L wd (os_path_join root file) excl g);
    [|destruct H].
  destruct H as [<-|[]]. exists file. split; [|reflexivity].
  apply In_sorted. exact Hin.
Qed.


Lemma walk_entry_under (keep : str -> str -> bool) (e : entry) :
  forall parent root es',
    valid_entry e = true ->
    In (root, es') (walk_entry keep parent e) ->
    exists names,
      forallb valid_name names = true /\ root = path_under parent names /\
      forallb valid_entry es' = true.
Proof.
  induction e as [n d|n es IH] using entry_ind'; intros parent root es' Hv Hin;
    [destruct Hin|].
  simpl in Hv. apply andb_true_iff in Hv as [Hn Hes].
  cbn [walk_entry] in Hin.
  destruct (keep parent n); [|destruct Hin].
  destruct Hin as [E|Hin].
  - injection E as <- <-. exists [n]. cbn [forallb]. rewrite Hn.
    repeat split. exact Hes.
  - apply in_flat_map in Hin as [e [He Hin]].
    rewrite Forall_forall in IH.
    destruct (IH e He (os_path_join parent n) root es') as [names [H1 [H2 H3]]];
      [rewrite forallb_forall in Hes; exact (Hes e He)|exact Hin|].
    exists (n :: names). cbn [forallb]. rewrite Hn, H1.
    repeat split; [|exact H3]. rewrite H2. reflexivity.
Qed.

Lemma os_walk_under (keep : str -> str -> bool) (dir : str) (es : list entry)
  (root : str) (es' : list entry) :
  forallb valid_entry es = true ->
  In (root, es') (os_walk keep dir es) ->
  exists names,
    forallb valid_name names = true /\ root = path_under dir names /\
    forallb valid_entry es' = true.
Proof.
  intros Hes [E|Hin].
  - injection E as <- <-. exists []. repeat split. exact Hes.
  - apply in_flat_map in Hin as [e [He Hin]].
    apply (walk_entry_under keep e dir root es'); [|exact Hin].
    rewrite forallb_forall in Hes. exact (Hes e He).
Qed.

(** * C10: the path attribute *)

(** C10, as stated, fails: with the working directory [/a/b] and the root
    argument [..], the file [/a/b/f.txt] gets the path attribute [f.txt],
    which carries neither the root prefix nor a [../] segment (and is not
    the root-relative path [b/f.txt] either). *)
Lemma path_attribute_without_prefix :
  let es := [Dir (py "b") [File (py "f.txt") (Ok (py "hi"))]] in
  output_file (main demo_libs (world_of (py "/a/b") es)
                 (args_of (py "..") [] false)) =
  Some (pyq "<project>

<structure>
  - b/
    - f.txt
</structure>

<files>
<file path='f.txt' type='text'>
```text
hi
```
</file>

</files>
</project>") /\
  os_path_relpath (py "/a/b") (py "../b/f.txt") (py "..") = py "b/f.txt" /\
  startswith (py "..") (py "f.txt") = false /\
  contains (py "../") (py "f.txt") = false.
Proof. vm_compute. repeat split. Qed.

(** C10, amended: the path attribute of each emitted file block is the
    path of the file relative to the working directory of the process;
    whenever the root argument is not the working directory, it differs
    from the root-relative path of the file (the names from the root to
    the file, joined). *)
Theorem block_path_is_cwd_relative (L : Libs) (wd dir : str) (es : list entry)
  (excl : list str) (m : bool) (fp text : str) :
  let g := fst (new_GitignoreFilter dir es) in
  startswith [sep] wd = true ->
  forallb valid_entry es = true ->
  path_list wd dir <> path_list wd (py ".") ->
  In (fp, text) (blocks (content_pass L wd dir es excl g m empty_state)) ->
  exists names,
    forallb valid_name names = true /\
    fp = path_under dir names /\
    (exists rest,
       text = pyq "<file path='" ++ os_path_relpath wd fp (py ".") ++
              pyq "' type='" ++ rest) /\
    os_path_relpath wd fp dir = join [sep] names /\
    os_path_relpath wd fp (py ".") <> os_path_relpath wd fp dir.
Proof.
  intros g Hwd Hes Hdiff Hin.
  rewrite content_pass_all_blocks in Hin. cbn [blocks empty_state app] in Hin.
  apply in_flat_map in Hin as [f [Hf Hb]].
  apply in_flat_map in Hf as [[root es'] [Hv Hf]].
  destruct (os_walk_under _ dir es root es' Hes Hv) as [names [Hn [-> Hes']]].
  destruct (included_file_path L wd excl g _ es' f Hf) as [file [Hfile Hpath]].
  destruct (process_file_block_text L wd m (fst f) (snd f) (fp, text) Hb)
    as [Hfp [content [msgs [_ Hfmt]]]].
  cbn [fst snd] in Hfp, Hfmt. rewrite Hpath in Hfp. subst fp.
  assert (Hvf : valid_name file = true)
    by (exact (valid_file_names es' Hes' file Hfile)).
  exists (names ++ [file]).
  assert (Hns : forallb valid_name (names ++ [file]) = true).
  { rewrite forallb_app, Hn. cbn [forallb]. rewrite Hvf. reflexivity. }
  assert (Hp : os_path_join (path_under dir names) file =
               path_under dir (names ++ [file])).
  { unfold path_under. rewrite fold_left_app. reflexivity. }
  rewrite Hpath in Hfmt. rewrite Hp in *.
  assert (Hne : names ++ [file] <> []) by (destruct names; discriminate).
  split; [exact Hns|]. split; [reflexivity|]. split.
  { exact (format_file_content_path L wd _ content _ m text msgs Hfmt). }
  rewrite (os_path_relpath_root wd dir (names ++ [file]) Hwd Hns Hne).
  split; [reflexivity|].
  apply os_path_relpath_cwd_differs; assumption.
Qed.

Lemma block_path_is_cwd_relative_witness :
  let es := [Dir (py "b") [File (py "f.txt") (Ok (py "hi"))]] in
  let fp := py "../b/f.txt" in
  let text := pyq "<file path='f.txt' type='text'>
```text
hi
```
</file>

" in
  exists names,
    forallb valid_name names = true /\
    fp = path_under (py "..") names /\
    (exists rest,
       text = pyq "<file path='" ++ os_path_relpath (py "/a/b") fp (py ".") ++
              pyq "' type='" ++ rest) /\
    os_path_relpath (py "/a/b") fp (py "..") = join [sep] names /\
    os_path_relpath (py "/a/b") fp (py ".") <>
    os_path_relpath (py "/a/b") fp (py "..").
Proof.
  intros es fp text.
  apply (block_path_is_cwd_relative demo_libs (py "/a/b") (py "..") es [] false
           fp text).
  - reflexivity.
  - reflexivity.
  - vm_compute. discriminate.
  - vm_compute. left. reflexivity.
Defined.

(** * Searching *)

Lemma startswith_self_app (p x : str) : startswith p (p ++ x) = true.
Proof.
  induction p as [|c p IH]; [reflexivity|].
  cbn [app startswith]. rewrite N.eqb_refl. exact IH.
Qed.

Lemma startswith_split (p s : str) :
  startswith p s = true -> s = p ++ skipn (List.length p) s.
Proof.
  revert s; induction p as [|c p IH]; intros s H; [reflexivity|].
  destruct s as [|d s]; [discriminate H|].
  cbn [startswith] in H. apply andb_true_iff in H as [Hc Hs].
  apply N.eqb_eq in Hc. subst d.
  cbn [List.length skipn app]. rewrite <- (IH s Hs). reflexivity.
Qed.

Lemma contains_find (p s : str) :
  contains p s = true -> exists b, find p s = Some b.
Proof.
  induction s as [|c s IH]; cbn [contains find]; intros H.
  - rewrite orb_false_r in H. rewrite H. exists 0. reflexivity.
  - destruct (startswith p (c :: s)); [exists 0; reflexivity|].
    cbn [orb] in H. destruct (IH H) as [b Hb]. rewrite Hb.
    exists (S b). reflexivity.
Qed.

Lemma find_split (p s : str) (b : nat) :
  find p s = Some b ->
  s = firstn b s ++ p ++ skipn (b + List.length p) s.
Proof.
  revert b; induction s as [|c s IH]; intros b; cbn [find].
  - destruct (startswith p []) eqn:E; [|discriminate].
    intros H. injection H as <-. destruct p; [reflexivity|discriminate E].
  - destruct (startswith p (c :: s)) eqn:E.
    + intros H. injection H as <-. cbn [firstn app Nat.add].
      apply startswith_split. exact E.
    + destruct (find p s) as [b'|]; [|discriminate].
      cbn [option_map]. intros H. injection H as <-.
      cbn [firstn skipn app Nat.add]. f_equal. apply IH. reflexivity.
Qed.

Lemma find_le (p s : str) (b : nat) :
  find p s = Some b -> b <= List.length s.
Proof.
  revert b; induction s as [|c s IH]; intros b; cbn [find List.length].
  - destruct (startswith p []); [|discriminate].
    intros H. injection H as <-. lia.
  - destruct (startswith p (c :: s)).
    + intros H. injection H as <-. lia.
    + destruct (find p s) as [b'|]; [|discriminate].
      cbn [option_map]. intros H. injection H as <-.
      specialize (IH b' eq_refl). lia.
Qed.

Lemma find_char_first (c : char) (x y : str) :
  existsb (N.eqb c) x = false -> find [c] (x ++ c :: y) = Some (List.length x).
Proof.
  induction x as [|d x IH]; intros H.
  - cbn [app find startswith]. rewrite N.eqb_refl. reflexivity.
  - cbn [existsb] in H. apply orb_false_iff in H as [Hd Hx].
    cbn [app find startswith]. rewrite Hd. cbn [andb].
    rewrite (IH Hx). reflexivity.
Qed.

Lemma contains_tail (p : str) (c : char) (s : str) :
  contains p (c :: s) = false -> contains p s = false.
Proof.
  cbn [contains]. intros H. apply orb_false_iff in H as [_ H]. exact H.
Qed.

Lemma contains_head (p s : str) :
  contains p s = false -> startswith p s = false.
Proof.
  destruct s; cbn [contains]; intros H; apply orb_false_iff in H as [H _];
    exact H.
Qed.


(** * The substitutions of the svelte branch *)

Lemma sub_comments_from_none (s : str) :
  contains (py "<!--") s = false -> sub_comments_from 0 s = s.
Proof.
  induction s as [|c s IH]; intros H; [reflexivity|].
  cbn [sub_comments_from]. unfold match_comment.
  rewrite (contains_head _ _ H).
  rewrite (IH (contains_tail _ _ _ H)). reflexivity.
Qed.

Lemma sub_blocks_from_skip (f : str -> option str) (open close x rest : str) :
  sub_blocks_from f open close (List.length x) (x ++ rest) =
  sub_blocks_from f open close 0 rest.
Proof.
  induction x as [|c x IH]; [destruct rest; reflexivity|].
  cbn [List.length app sub_blocks_from]. exact IH.
Qed.

Lemma sub_blocks_from_none (f : str -> option str) (open close s : str) :
  contains open s = false -> sub_blocks_from f open close 0 s = Some s.
Proof.
  induction s as [|c s IH]; intros H; [reflexivity|].
  cbn [sub_blocks_from]. unfold match_block.
  rewrite (contains_head _ _ H).
  rewrite (IH (contains_tail _ _ _ H)). reflexivity.
Qed.

(** The match at the head of a text that opens a block. *)
Lemma match_block_head (open close attrs tail : str) (b : nat) :
  existsb (N.eqb 62%N) attrs = false ->
  find close tail = Some b ->
  match_block open close (open ++ attrs ++ 62%N :: tail) =
  Some (firstn b tail,
        List.length open + List.length attrs + 1 + b + List.length close).
Proof.
  intros Ha Hb. unfold match_block. cbv zeta.
  rewrite startswith_self_app, skipn_app, skipn_all, Nat.sub_diag.
  cbn [skipn app].
  rewrite (find_char_first 62%N attrs tail Ha).
  replace (List.length attrs + 1) with (List.length (attrs ++ [62%N]))
    by (rewrite length_app; reflexivity).
  replace (attrs ++ 62%N :: tail) with ((attrs ++ [62%N]) ++ tail)
    by (rewrite <- app_assoc; reflexivity).
  rewrite skipn_app, skipn_all, Nat.sub_diag. cbn [skipn app].
  rewrite Hb. reflexivity.
Qed.

(** The substitution on a text that opens a block: the tag becomes bare,
    the body is minified, and the scan goes on after the closing tag. *)
Lemma sub_blocks_head (f : str -> option str) (open close attrs tail : str)
  (b : nat) :
  open <> [] ->
  existsb (N.eqb 62%N) attrs = false ->
  find close tail = Some b ->
  sub_blocks f open close (open ++ attrs ++ 62%N :: tail) =
  match f (firstn b tail) with
  | None => None
  | Some m =>
      option_map (app (open ++ [62%N] ++ m ++ close))
        (sub_blocks f open close (skipn (b + List.length close) tail))
  end.
Proof.
  intros Ho Ha Hb. unfold sub_blocks.
  destruct open as [|o open']; [contradiction|].
  destruct ((o :: open') ++ attrs ++ 62%N :: tail) as [|c s'] eqn:Es;
    [discriminate Es|].
  cbn [sub_blocks_from]. rewrite <- Es.
  rewrite (match_block_head (o :: open') close attrs tail b Ha Hb).
  destruct (f (firstn b tail)) as [m|]; [|reflexivity].
  f_equal.
  assert (Hs' : s' = (open' ++ attrs ++ 62%N :: firstn b tail ++ close) ++
                     skipn (b + List.length close) tail).
  { cbn [app] in Es. injection Es as _ Es. rewrite <- Es.
    rewrite (find_split close tail b Hb) at 1.
    rewrite <- !app_assoc. cbn [app]. rewrite <- !app_assoc. reflexivity. }
  rewrite Hs' at 1.
  replace (List.length (o :: open') + List.length attrs + 1 + b +
           List.length close - 1)
    with (List.length (open' ++ attrs ++ 62%N :: firstn b tail ++ close)).
  - apply sub_blocks_from_skip.
  - rewrite !length_app. cbn [List.length]. rewrite length_app.
    assert (Hfb : List.length (firstn b tail) = b).
    { apply firstn_length_le. exact (find_le close tail b Hb). }
    rewrite Hfb. lia.
Qed.

(** * The svelte branch, step by step *)

Lemma minify_content_svelte_unfold (L : Libs) (content : str) :
  minify_content L content (py "svelte") =
  match sub_blocks (jsmin_jsmin L) (py "<script") (py "</script>")
          (sub_comments content) with
  | None => (sub_comments content, [Warning_minification_failed (py "svelte")])
  | Some c2 =>
      match sub_blocks (csscompressor_compress L) (py "<style") (py "</style>") c2 with
      | None => (c2, [Warning_minification_failed (py "svelte")])
      | Some c3 => (strip (sub_gaps (sub_spaces c3)), [])
      end
  end.
Proof. reflexivity. Qed.

Example svelte_example :
  minify_content demo_libs
    (pyq "<script lang='ts'>let x = 1;</script>
<!-- greeting -->
<style scoped>p { color: red }</style>
<p>  hi  </p>
") (py "svelte") =
  (pyq "<script>let x = 1;</script><style>p { color: red }</style><p> hi </p>", []).
Proof. vm_compute. reflexivity. Qed.

(** * The json module: numbers *)

Lemma delim_cases (rest : str) :
  delim rest = true ->
  rest = [] \/
  exists h t, rest = h :: t /\ (h = 44 \/ h = 93 \/ h = 125)%N.
Proof.
  destruct rest as [|h t]; [left; reflexivity|]. cbn [delim]. intros H.
  right. exists h, t. split; [reflexivity|].
  apply orb_true_iff in H as [H|H]; [apply orb_true_iff in H as [H|H]|];
    apply N.eqb_eq in H; auto.
Qed.

Lemma span_digits_app (x rest : str) :
  delim rest = true ->
  span_digits (x ++ rest) = (fst (span_digits x), snd (span_digits x) ++ rest).
Proof.
  intros Hd. induction x as [|c x IH].
  - destruct (delim_cases rest Hd) as [->|[h [t [-> Hh]]]]; [reflexivity|].
    cbn [app span_digits]. destruct Hh as [->|[->| ->]]; reflexivity.
  - cbn [app span_digits]. destruct (is_digit c); [|reflexivity].
    rewrite IH. destruct (span_digits x). reflexivity.
Qed.

Lemma scan_int_part_app (s rest ip r : str) :
  delim rest = true ->
  scan_int_part s = Some (ip, r) ->
  scan_int_part (s ++ rest) = Some (ip, r ++ rest).
Proof.
  intros Hd. destruct s as [|c t]; [discriminate|].
  cbn [app scan_int_part].
  destruct ((49 <=? c) && (c <=? 57))%N.
  - rewrite (span_digits_app t rest Hd). destruct (span_digits t) as [ds r'].
    cbn [fst snd]. intros H. injection H as <- <-. reflexivity.
  - destruct (c =? 48)%N; [|discriminate].
    intros H. injection H as <- <-. reflexivity.
Qed.

Lemma scan_frac_app (r rest : str) :
  delim rest = true ->
  scan_frac (r ++ rest) = (fst (scan_frac r), snd (scan_frac r) ++ rest).
Proof.
  intros Hd. destruct r as [|p [|d t]].
  - destruct (delim_cases rest Hd) as [->|[h [t [-> Hh]]]]; [reflexivity|].
    cbn [app scan_frac]. destruct t as [|d t]; [reflexivity|].
    destruct Hh as [->|[->| ->]]; reflexivity.
  - destruct (delim_cases rest Hd) as [->|[h [t [-> Hh]]]]; [reflexivity|].
    cbn [app scan_frac].
    replace (is_digit h) with false
      by (destruct Hh as [->|[->| ->]]; reflexivity).
    rewrite andb_false_r. reflexivity.
  - cbn [app scan_frac]. destruct ((p =? 46)%N && is_digit d); [|reflexivity].
    rewrite (span_digits_app t rest Hd). destruct (span_digits t). reflexivity.
Qed.

Lemma scan_exp_app (r rest : str) :
  delim rest = true ->
  scan_exp (r ++ rest) = (fst (scan_exp r), snd (scan_exp r) ++ rest).
Proof.
  intros Hd. destruct r as [|e t].
  - destruct (delim_cases rest Hd) as [->|[h [t [-> Hh]]]]; [reflexivity|].
    cbn [app scan_exp]. destruct Hh as [->|[->| ->]]; reflexivity.
  - cbn [app scan_exp]. destruct ((e =? 101) || (e =? 69))%N; [|reflexivity].
    destruct t as [|x t2].
    + cbn [app]. assert (Hs := span_digits_app [] rest Hd).
      cbn [app span_digits fst snd] in Hs.
      destruct (delim_cases rest Hd) as [->|[h [t [-> Hh]]]]; [reflexivity|].
      replace ((h =? 45) || (h =? 43))%N with false
        by (destruct Hh as [->|[->| ->]]; reflexivity).
      rewrite Hs. reflexivity.
    + cbn [app]. destruct ((x =? 45) || (x =? 43))%N.
      * rewrite (span_digits_app t2 rest Hd). destruct (span_digits t2) as [ed r3].
        cbn [fst snd]. destruct ed; reflexivity.
      * change (x :: t2 ++ rest) with ((x :: t2) ++ rest).
        rewrite (span_digits_app (x :: t2) rest Hd).
        destruct (span_digits (x :: t2)) as [ed r3].
        cbn [fst snd]. destruct ed; reflexivity.
Qed.

(** A number is read the same in front of a delimiter. *)
Lemma scan_number_app (s rest lex r : str) (b : bool) :
  delim rest = true ->
  scan_number s = Some (b, lex, r) ->
  scan_number (s ++ rest) = Some (b, lex, r ++ rest).
Proof.
  intros Hd. unfold scan_number.
  assert (Hsign :
    (match s ++ rest with
     | c :: t => if (c =? 45)%N then ([c], t) else ([], s ++ rest)
     | [] => ([], s ++ rest)
     end) =
    (fst (match s with
          | c :: t => if (c =? 45)%N then ([c], t) else ([], s)
          | [] => ([], s)
          end),
     snd (match s with
          | c :: t => if (c =? 45)%N then ([c], t) else ([], s)
          | [] => ([], s)
          end) ++ rest) \/ s = []).
  { destruct s as [|c t]; [right; reflexivity|left].
    cbn [app]. destruct (c =? 45)%N; reflexivity. }
  destruct Hsign as [Hsign| ->]; [|discriminate].
  rewrite Hsign.
  destruct (match s with
            | c :: t => if (c =? 45)%N then ([c], t) else ([], s)
            | [] => ([], s)
            end) as [sign s1].
  cbn [fst snd].
  destruct (scan_int_part s1) as [[ip r1]|] eqn:Ei; [|discriminate].
  rewrite (scan_int_part_app s1 rest ip r1 Hd Ei).
  rewrite (scan_frac_app r1 rest Hd).
  destruct (scan_frac r1) as [frac r2]. cbn [fst snd].
  rewrite (scan_exp_app r2 rest Hd).
  destruct (scan_exp r2) as [ex r3]. cbn [fst snd].
  intros H. injection H as <- <- <-. reflexivity.
Qed.

(** ** Integers *)

Lemma uint_of_chars_uint_chars (d : Decimal.uint) :
  uint_of_chars (uint_chars d) = d.
Proof.
  induction d; cbn [uint_chars uint_of_chars]; [reflexivity|..];
    cbv zeta; rewrite IHd; reflexivity.
Qed.

Lemma span_digits_uint_chars (d : Decimal.uint) :
  span_digits (uint_chars d) = (uint_chars d, []).
Proof. induction d; cbn [uint_chars span_digits]; try reflexivity;
  change (is_digit _) with true; cbv iota; rewrite IHd; reflexivity. Qed.

Lemma pos_to_uint_head (p : positive) :
  exists c ds,
    uint_chars (Pos.to_uint p) = c :: uint_chars ds /\
    ((49 <=? c) && (c <=? 57))%N = true.
Proof.
  assert (Hn : Decimal.unorm (Pos.to_uint p) = Pos.to_uint p).
  { rewrite <- (DecimalN.Unsigned.to_of (Pos.to_uint p)).
    rewrite DecimalPos.Unsigned.of_to. reflexivity. }
  assert (Hz := DecimalPos.Unsigned.to_uint_nonzero p).
  assert (Hh : Decimal.nzhead (Pos.to_uint p) = Pos.to_uint p).
  { unfold Decimal.unorm in Hn.
    destruct (Decimal.nzhead (Pos.to_uint p)) eqn:E; try exact Hn.
    exfalso. apply Hz. symmetry. exact Hn. }
  assert (H0 := DecimalFacts.nzhead_nonzero (Pos.to_uint p)).
  rewrite Hh in H0.
  destruct (Pos.to_uint p) as [|d|d|d|d|d|d|d|d|d|d] eqn:E.
  - exfalso. exact (DecimalPos.Unsigned.to_uint_nonnil p E).
  - exfalso. exact (H0 d eq_refl).
  - exists 49%N, d. split; reflexivity.
  - exists 50%N, d. split; reflexivity.
  - exists 51%N, d. split; reflexivity.
  - exists 52%N, d. split; reflexivity.
  - exists 53%N, d. split; reflexivity.
  - exists 54%N, d. split; reflexivity.
  - exists 55%N, d. split; reflexivity.
  - exists 56%N, d. split; reflexivity.
  - exists 57%N, d. split; reflexivity.
Qed.

Lemma scan_number_pos (p : positive) :
  scan_number (str_of_N (Npos p)) = Some (false, str_of_N (Npos p), []).
Proof.
  unfold str_of_N. cbn [N.to_uint].
  destruct (pos_to_uint_head p) as [c [ds [E Hc]]]. rewrite E.
  assert (Hc45 : (c =? 45)%N = false).
  { apply andb_true_iff in Hc as [H1 _]. apply N.leb_le in H1.
    apply N.eqb_neq. lia. }
  unfold scan_number. rewrite Hc45. cbn [scan_int_part]. rewrite Hc.
  rewrite span_digits_uint_chars. cbn [scan_frac scan_exp is_nil andb negb app].
  rewrite app_nil_r. reflexivity.
Qed.

Lemma scan_number_str_of_Z (z : Z) :
  scan_number (str_of_Z z) = Some (false, str_of_Z z, []).
Proof.
  destruct z as [|p|p].
  - reflexivity.
  - exact (scan_number_pos p).
  - unfold str_of_Z. assert (H := scan_number_pos p).
    unfold scan_number in H |- *. cbn [N.eqb Pos.eqb].
    destruct (pos_to_uint_head p) as [c [ds [E Hc]]].
    unfold str_of_N in *. cbn [N.to_uint] in *. rewrite E in *.
    assert (Hc45 : (c =? 45)%N = false).
    { apply andb_true_iff in Hc as [H1 _]. apply N.leb_le in H1.
      apply N.eqb_neq. lia. }
    rewrite Hc45 in H.
    destruct (scan_int_part (c :: uint_chars ds)) as [[ip r]|]; [|discriminate H].
    destruct (scan_frac r) as [frac r2]. destruct (scan_exp r2) as [ex r3].
    injection H as H1 H2 H3. rewrite H1, H3. cbn [app] in *. rewrite H2.
    reflexivity.
Qed.

Lemma int_of_literal_str_of_Z (z : Z) : int_of_literal (str_of_Z z) = z.
Proof.
  destruct z as [|p|p].
  - reflexivity.
  - unfold str_of_Z, str_of_N. cbn [Z.to_N N.to_uint].
    destruct (pos_to_uint_head p) as [c [ds [E Hc]]].
    assert (Hc45 : (c =? 45)%N = false).
    { apply andb_true_iff in Hc as [H1 _]. apply N.leb_le in H1.
      apply N.eqb_neq. lia. }
    unfold int_of_literal. rewrite E, Hc45, <- E.
    rewrite uint_of_chars_uint_chars.
    change (N.of_uint (Pos.to_uint p)) with (N.of_uint (N.to_uint (Npos p))).
    rewrite DecimalN.Unsigned.of_to. reflexivity.
  - unfold str_of_Z, str_of_N, int_of_literal. cbn [N.eqb Pos.eqb N.to_uint].
    rewrite uint_of_chars_uint_chars.
    change (N.of_uint (Pos.to_uint p)) with (N.of_uint (N.to_uint (Npos p))).
    rewrite DecimalN.Unsigned.of_to. reflexivity.
Qed.

(** * Further properties of app.py *)

(** ** minify_content: the file types without a minifier *)

Lemma minify_content_plain (L : Libs) (content file_type : str) :
  plain_type file_type = true ->
  minify_content L content file_type = (join (py " ") (split_ws content), []).
Proof.
  unfold plain_type, str_in. intros H. apply negb_true_iff in H.
  cbn [existsb] in H.
  repeat (apply orb_false_iff in H; destruct H as [? H]).
  unfold minify_content, str_in. cbn [existsb].
  repeat match goal with
         | E : str_eqb file_type _ = false |- _ => rewrite E; clear E
         end.
  reflexivity.
Qed.

Lemma split_ws_aux_word (w cur rest : str) :
  forallb nonspace w = true ->
  split_ws_aux cur (w ++ rest) = split_ws_aux (rev w ++ cur) rest.
Proof.
  revert cur. induction w as [|c w IH]; intros cur H; [reflexivity|].
  cbn [forallb] in H. apply andb_true_iff in H as [Hc Hw].
  apply negb_true_iff in Hc.
  cbn [app split_ws_aux rev]. rewrite Hc, (IH _ Hw), <- app_assoc. reflexivity.
Qed.

Lemma word_rev (c : char) (cur : str) :
  forallb nonspace (c :: cur) = true -> word (rev (c :: cur)) = true.
Proof.
  intros H. unfold word. apply andb_true_iff. split.
  - cbn [rev]. destruct (rev cur); reflexivity.
  - apply forallb_forall. intros x Hx. apply in_rev in Hx.
    rewrite forallb_forall in H. exact (H x Hx).
Qed.

Lemma split_ws_aux_words (s cur : str) :
  forallb nonspace cur = true ->
  forallb word (split_ws_aux cur s) = true.
Proof.
  revert cur. induction s as [|c s IH]; intros cur H.
  - destruct cur as [|d cur]; [reflexivity|].
    cbn [split_ws_aux forallb]. rewrite (word_rev d cur H). reflexivity.
  - cbn [split_ws_aux]. destruct (is_space c) eqn:Ec.
    + destruct cur as [|d cur]; [apply IH; reflexivity|].
      cbn [forallb]. rewrite (word_rev d cur H). apply IH. reflexivity.
    + apply IH. cbn [forallb]. unfold nonspace at 1. rewrite Ec. exact H.
Qed.

Lemma word_rev_nonempty (w : str) : word w = true -> rev w ++ [] <> [].
Proof.
  destruct w as [|c w]; [discriminate|]. intros _. cbn [rev].
  destruct (rev w); discriminate.
Qed.

Lemma split_ws_join (ws : list str) :
  forallb word ws = true -> split_ws (join (py " ") ws) = ws.
Proof.
  unfold split_ws. induction ws as [|w ws IH]; intros H; [reflexivity|].
  cbn [forallb] in H. apply andb_true_iff in H as [Hw Hws].
  assert (Hne := word_rev_nonempty w Hw).
  unfold word in Hw. apply andb_true_iff in Hw as [_ Hw].
  destruct ws as [|w2 l].
  - cbn [join]. rewrite <- (app_nil_r w) at 1.
    rewrite (split_ws_aux_word w [] [] Hw).
    destruct (rev w ++ []) as [|d r] eqn:E; [contradiction|].
    cbn [split_ws_aux]. rewrite <- E, app_nil_r, rev_involutive. reflexivity.
  - change (join (py " ") (w :: w2 :: l))
      with (w ++ 32%N :: join (py " ") (w2 :: l)).
    rewrite (split_ws_aux_word w [] _ Hw).
    destruct (rev w ++ []) as [|d r] eqn:E; [contradiction|].
    cbn [split_ws_aux]. change (is_space 32) with true. cbv iota.
    rewrite (IH Hws). rewrite <- E, app_nil_r, rev_involutive. reflexivity.
Qed.

(** X1: for a file type that has no minifier of its own (markdown, text
    and every unknown type), [minify_content] prints nothing, keeps the
    words of the text, and minifying its result again changes nothing. *)
Theorem minify_content_plain_idempotent (L : Libs) (content file_type : str) :
  plain_type file_type = true ->
  let m := fst (minify_content L content file_type) in
  snd (minify_content L content file_type) = [] /\
  split_ws m = split_ws content /\
  minify_content L m file_type = (m, []).
Proof.
  intros H m. subst m. rewrite !(minify_content_plain L _ file_type H).
  cbn [fst snd].
  assert (E : split_ws (join (py " ") (split_ws content)) = split_ws content).
  { apply split_ws_join. apply split_ws_aux_words. reflexivity. }
  rewrite E. repeat split.
Qed.

Lemma minify_content_plain_idempotent_witness :
  let content := [35; 32; 84; 105; 116; 108; 101; 10; 10; 32; 32; 97; 9; 98; 32]%N in
  let m := fst (minify_content demo_libs content (py "markdown")) in
  snd (minify_content demo_libs content (py "markdown")) = [] /\
  split_ws m = split_ws content /\
  minify_content demo_libs m (py "markdown") = (m, []).
Proof.
  intros content.
  apply (minify_content_plain_idempotent demo_libs content (py "markdown")).
  reflexivity.
Defined.

(** ** An empty file *)

Lemma calculate_size_reduction_empty (minified : str) :
  calculate_size_reduction [] minified =
  match utf8_len minified with
  | Ok _ => Raise ZeroDivisionError
  | Raise e => Raise e
  end.
Proof.
  unfold calculate_size_reduction, bind. cbn [utf8_len utf8_encode List.length Z.of_nat].
  destruct (utf8_len minified); reflexivity.
Qed.

(** X2: with minification, an empty file makes
    [calculate_size_reduction] divide by zero: the content pass writes no
    block for it, leaves both totals as they were and prints "Error
    processing" for its path; without minification the same file gets a
    block. *)
Theorem empty_file_dropped_when_minifying (L : Libs) (wd file_path : str)
  (st : pass_state) :
  (let st' := process_file L wd true file_path (Ok []) st in
   blocks st' = blocks st /\
   total_original_size st' = total_original_size st /\
   total_minified_size st' = total_minified_size st /\
   exists msgs, printed st' = printed st ++ msgs ++ [Error_processing file_path]) /\
  exists text,
    blocks (process_file L wd false file_path (Ok []) st) =
    blocks st ++ [(file_path, text)].
Proof.
  split.
  - unfold process_file, format_file_content.
    cbn [utf8_len utf8_encode List.length Z.of_nat].
    destruct (minify_content L [] (get_file_type file_path)) as [m msgs].
    rewrite calculate_size_reduction_empty.
    destruct (utf8_len m);
      cbn [blocks total_original_size total_minified_size printed print_in
           add_original];
      (repeat split; [apply Z.add_0_r | exists msgs; reflexivity]).
  - unfold process_file, format_file_content. eexists. reflexivity.
Qed.

(** ** The shape of a block *)

Lemma endswith_nl_inv (c : str) :
  endswith nl c = true -> exists c', c = c' ++ nl.
Proof.
  unfold endswith, nl. cbn [rev app]. intros H.
  destruct (rev c) as [|x r] eqn:E; [discriminate H|].
  cbn [startswith] in H. apply andb_true_iff in H as [Hx _].
  apply N.eqb_eq in Hx. subst x.
  exists (rev r). rewrite <- (rev_involutive c), E. reflexivity.
Qed.

Lemma block_body_ends_with_newline (c : str) :
  exists body, c ++ (if endswith nl c then [] else nl) = body ++ nl.
Proof.
  destruct (endswith nl c) eqn:E.
  - destruct (endswith_nl_inv c E) as [c' ->]. exists c'. apply app_nil_r.
  - exists c. reflexivity.
Qed.

Lemma block_tail_shape (a b c t : str) :
  exists body,
    (a ++ b) ++ c ++ (if endswith nl c then [] else nl) ++ t =
    a ++ body ++ nl ++ t.
Proof.
  destruct (block_body_ends_with_newline c) as [x Hx].
  exists (b ++ x).
  replace (c ++ (if endswith nl c then [] else nl) ++ t)
    with ((c ++ (if endswith nl c then [] else nl)) ++ t)
    by (symmetry; apply app_assoc).
  rewrite Hx, <- !app_assoc. reflexivity.
Qed.

(** X3: whatever the content (empty, with or without a final newline,
    minified or not), a block that [format_file_content] returns opens
    with the file tag and closes with the fence on a line of its own,
    followed by the closing tag and an empty line. *)
Theorem format_file_content_fence_on_own_line (L : Libs)
  (wd file_path content file_type : str) (minify : bool) (block : str)
  (msgs : list message) :
  format_file_content L wd file_path content file_type minify = (Ok block, msgs) ->
  exists body,
    block = pyq "<file path='" ++ body ++ nl ++
            py "```" ++ nl ++ py "</file>" ++ nl ++ nl.
Proof.
  unfold format_file_content. destruct minify.
  - destruct (minify_content L content file_type) as [m msgs'].
    destruct (calculate_size_reduction content m) as [[[o mi] red]|e];
      [|discriminate].
    intros H.
    match type of H with
    | (Ok ?x, _) = _ => assert (E : x = block) by congruence
    end.
    rewrite <- E. clear H E.
    destruct (block_tail_shape (pyq "<file path='")
                (os_path_relpath wd file_path (py ".") ++ pyq "' type='" ++
                 file_type ++ pyq "'" ++
                 pyq " original_size='" ++ str_of_Z o ++
                 pyq "' minified_size='" ++ str_of_Z mi ++
                 pyq "' reduction='" ++ format_1f red ++ pyq "%'" ++
                 py ">" ++ nl ++ py "```" ++ file_type ++ nl)
                m (py "```" ++ nl ++ py "</file>" ++ nl ++ nl)) as [body Hb].
    exists body. etransitivity; [|exact Hb].
    rewrite <- !app_assoc. reflexivity.
  - intros H.
    match type of H with
    | (Ok ?x, _) = _ => assert (E : x = block) by congruence
    end.
    rewrite <- E. clear H E.
    destruct (block_tail_shape (pyq "<file path='")
                (os_path_relpath wd file_path (py ".") ++ pyq "' type='" ++
                 file_type ++ pyq "'" ++
                 py ">" ++ nl ++ py "```" ++ file_type ++ nl)
                content (py "```" ++ nl ++ py "</file>" ++ nl ++ nl)) as [body Hb].
    exists body. etransitivity; [|exact Hb].
    rewrite <- !app_assoc. reflexivity.
Qed.

Lemma format_file_content_fence_on_own_line_witness :
  exists body,
    pyq "<file path='proj/a.md' type='markdown'>
```markdown
# a
```
</file>

" = pyq "<file path='" ++ body ++ nl ++
    py "```" ++ nl ++ py "</file>" ++ nl ++ nl.
Proof.
  apply (format_file_content_fence_on_own_line demo_libs (py "/home/u")
           (py "proj/a.md") (py "# a") (py "markdown") false _ []).
  reflexivity.
Defined.

(** ** The exclude patterns *)

Lemma contains_empty (s : str) : contains [] s = true.
Proof. destruct s; reflexivity. Qed.

(** X4: the exclude patterns only ever remove files: a file that passes
    the filter with more patterns passes it with fewer; and an empty
    pattern, being a substring of every path, removes every file. *)
Theorem exclude_patterns_only_remove (L : Libs) (wd file_path : str)
  (exclude_patterns more : list str) (g : GitignoreFilter) :
  (should_include_file L wd file_path (exclude_patterns ++ more) g = true ->
   should_include_file L wd file_path exclude_patterns g = true) /\
  (In [] exclude_patterns ->
   should_include_file L wd file_path exclude_patterns g = false).
Proof.
  split.
  - unfold should_include_file.
    destruct (is_ignored L wd g file_path); [discriminate|].
    destruct (contains (py ".DS_Store") file_path); [discriminate|].
    destruct (contains (py "node_modules") file_path); [discriminate|].
    rewrite app_assoc, existsb_app.
    destruct (existsb (fun pattern => contains pattern file_path)
                (skip_patterns ++ exclude_patterns)); [discriminate|].
    destruct (existsb (fun pattern => contains pattern file_path) more);
      [discriminate|].
    intros H. exact H.
  - intros Hin. unfold should_include_file.
    destruct (is_ignored L wd g file_path); [reflexivity|].
    destruct (contains (py ".DS_Store") file_path); [reflexivity|].
    destruct (contains (py "node_modules") file_path); [reflexivity|].
    replace (existsb (fun pattern => contains pattern file_path)
               (skip_patterns ++ exclude_patterns)) with true; [reflexivity|].
    symmetry. apply existsb_exists. exists []. split.
    + apply in_or_app. right. exact Hin.
    + apply contains_empty.
Qed.

Lemma exclude_patterns_only_remove_witness :
  should_include_file demo_libs (py "/home/u") (py "proj/src/a.ts")
    [py "test"] {| root_dir := py "proj"; spec := None |} = true /\
  should_include_file demo_libs (py "/home/u") (py "proj/src/a.ts")
    [py "test"; []] {| root_dir := py "proj"; spec := None |} = false.
Proof.
  split.
  - apply (proj1 (exclude_patterns_only_remove demo_libs (py "/home/u")
                    (py "proj/src/a.ts") [py "test"] [py "docs"]
                    {| root_dir := py "proj"; spec := None |})).
    reflexivity.
  - apply (proj2 (exclude_patterns_only_remove demo_libs (py "/home/u")
                    (py "proj/src/a.ts") [py "test"; []] []
                    {| root_dir := py "proj"; spec := None |})).
    right. left. reflexivity.
Defined.

(** ** A root whose own path holds a skip pattern *)

Lemma contains_path_under (p dir : str) (names : list str) :
  forallb valid_name names = true ->
  contains p dir = true -> contains p (path_under dir names) = true.
Proof.
  unfold path_under. revert dir.
  induction names as [|n names IH]; intros dir Hn H; [exact H|].
  cbn [forallb] in Hn. apply andb_true_iff in Hn as [Hn Hns].
  cbn [fold_left]. apply IH; [exact Hns|].
  apply contains_join_l; assumption.
Qed.

Lemma root_pattern_excludes_visit (L : Libs) (wd dir : str) (es : list entry)
  (excl : list str) (g : GitignoreFilter) (keep : str -> str -> bool)
  (root : str) (es' : list entry) (file : str) :
  existsb (fun pattern => contains pattern dir) (skip_patterns ++ excl) = true ->
  forallb valid_entry es = true ->
  In (root, es') (os_walk keep dir es) ->
  In file (file_names es') ->
  should_include_file L wd (os_path_join root file) excl g = false.
Proof.
  intros Hp Hes Hin Hf.
  destruct (os_walk_under keep dir es root es' Hes Hin) as [names [Hn [-> Hes']]].
  apply existsb_exists in Hp as [p [Hp Hc]].
  destruct (should_include_file L wd (os_path_join (path_under dir names) file)
              excl g) eqn:E; [|reflexivity].
  apply should_include_file_skips in E as [_ [E _]].
  assert (Hc' : contains p (os_path_join (path_under dir names) file) = true).
  { apply contains_join_l.
    - exact (valid_file_names es' Hes' file Hf).
    - apply contains_path_under; assumption. }
  rewrite (E p Hp) in Hc'. discriminate Hc'.
Qed.

(** X5: the filter looks for the skip patterns in the whole path of a
    file, the root argument included: when the root path itself holds a
    skip pattern or an exclude pattern (a project kept under [build/],
    say), no file is listed in the structure section and the files
    section is empty. *)
Theorem root_with_skip_pattern_hides_every_file (L : Libs) (w : world)
  (dir : str) (es : list entry) (out : str) (excl : list str) (m : bool) :
  existsb (fun pattern => contains pattern dir) (skip_patterns ++ excl) = true ->
  forallb valid_entry es = true ->
  output_writable w = true ->
  let g := fst (new_GitignoreFilter dir es) in
  structure_file_paths (structure_items L (cwd w) dir es excl g) = [] /\
  exists tail,
    written (process_directory L w dir es out excl m) =
    Some (py "<project>" ++ nl ++ nl ++
          structure_section (structure_items L (cwd w) dir es excl g) ++
          py "<files>" ++ nl ++ py "</files>" ++ nl ++ tail).
Proof.
  intros Hp Hes Hw g. split.
  - rewrite structure_items_files.
    replace (flat_map (included_files L (cwd w) excl g)
               (os_walk (keep_dir L (cwd w) excl g) dir es))
      with (@nil (str * result str)); [reflexivity|].
    symmetry. apply flat_map_nil. intros [root es'] Hin.
    unfold included_files. apply flat_map_nil. intros file Hf.
    apply (proj1 (In_sorted _ _)) in Hf.
    rewrite (root_pattern_excludes_visit L (cwd w) dir es excl g _ root es' file
               Hp Hes Hin Hf).
    reflexivity.
  - destruct (process_directory_sections L w dir es out excl m Hw) as [tail Ht].
    exists tail. rewrite Ht. fold g.
    rewrite (content_pass_nothing_included L (cwd w) dir es excl g m empty_state).
    + reflexivity.
    + intros root es' file Hin Hf.
      exact (root_pattern_excludes_visit L (cwd w) dir es excl g _ root es' file
               Hp Hes Hin Hf).
Qed.

Lemma root_with_skip_pattern_hides_every_file_witness :
  let es := [File (py "main.ts") (Ok (py "let x = 1;"));
             Dir (py "src") [File (py "a.svelte") (Ok (py "<p>a</p>"))]] in
  let w := world_of (py "/home/u") es in
  let g := fst (new_GitignoreFilter (py "rebuild/app") es) in
  structure_file_paths
    (structure_items demo_libs (cwd w) (py "rebuild/app") es [] g) = [] /\
  exists tail,
    written (process_directory demo_libs w (py "rebuild/app") es (py "out.txt")
               [] false) =
    Some (py "<project>" ++ nl ++ nl ++
          structure_section
            (structure_items demo_libs (cwd w) (py "rebuild/app") es [] g) ++
          py "<files>" ++ nl ++ py "</files>" ++ nl ++ tail).
Proof.
  intros es w.
  apply (root_with_skip_pattern_hides_every_file demo_libs w (py "rebuild/app")
           es (py "out.txt") [] false); reflexivity.
Defined.

(** ** A missing or unreadable .gitignore *)

(** X6: when the root holds no readable .gitignore (no entry of that
    name, a directory of that name, a file that cannot be read or
    decoded), the filter ignores nothing: a file is included exactly when
    it passes the fixed rules, and the warning is printed exactly when an
    entry named .gitignore exists. *)
Theorem unreadable_gitignore_ignores_nothing (L : Libs) (dir : str)
  (es : list entry) :
  (forall content, read_file (py ".gitignore") es <> Ok content) ->
  let g := fst (new_GitignoreFilter dir es) in
  (forall wd path, is_ignored L wd g path = false) /\
  (forall wd file_path excl,
     should_include_file L wd file_path excl g =
     passes_fixed_rules file_path excl) /\
  snd (new_GitignoreFilter dir es) =
    if str_in (py ".gitignore") (map entry_name es)
    then [Warning_gitignore] else [].
Proof.
  intros Hr g.
  assert (Hload : _load_gitignore es =
                  (None, if str_in (py ".gitignore") (map entry_name es)
                         then [Warning_gitignore] else [])).
  { unfold _load_gitignore.
    change (map (fun e => match e with File n _ | Dir n _ => n end) es)
      with (map entry_name es).
    destruct (str_in (py ".gitignore") (map entry_name es)); [|reflexivity].
    destruct (read_file (py ".gitignore") es) as [c|e] eqn:E; [|reflexivity].
    exfalso. exact (Hr c eq_refl). }
  assert (Hspec : spec g = None).
  { subst g. unfold new_GitignoreFilter. rewrite Hload. reflexivity. }
  assert (Hig : forall wd path, is_ignored L wd g path = false).
  { intros wd path. apply is_ignored_empty_spec. exact Hspec. }
  split; [exact Hig|]. split.
  - intros wd fp excl. rewrite should_include_file_eq, Hig. reflexivity.
  - unfold new_GitignoreFilter. rewrite Hload. reflexivity.
Qed.

Lemma unreadable_gitignore_ignores_nothing_witness :
  let es := [Dir (py ".gitignore") []; File (py "a.ts") (Ok (py "x"))] in
  let g := fst (new_GitignoreFilter (py "proj") es) in
  (forall wd path, is_ignored demo_libs wd g path = false) /\
  (forall wd file_path excl,
     should_include_file demo_libs wd file_path excl g =
     passes_fixed_rules file_path excl) /\
  snd (new_GitignoreFilter (py "proj") es) =
    if str_in (py ".gitignore") (map entry_name es)
    then [Warning_gitignore] else [].
Proof.
  intros es.
  apply (unreadable_gitignore_ignores_nothing demo_libs (py "proj") es).
  intros content. discriminate.
Defined.

(** ** An output file that cannot be opened *)

(** X8: when the output file cannot be opened, nothing is walked:
    [process_directory] prints its error and raises, [main] prints the
    error again, writes no file and returns 1; a warning about the
    .gitignore file, which is read first, comes before both. *)
Theorem unwritable_output_returns_one (L : Libs) (w : world) (a : args)
  (es : list entry) :
  listing w = Some es ->
  directory a <> [] ->
  output_writable w = false ->
  let o := main L w a in
  returned o = Some 1%Z /\
  exit_status (returned o) = 1%Z /\
  output_file o = None /\
  stdout o =
    snd (new_GitignoreFilter (directory a) es) ++
    [Error_writing_output; Error_top].
Proof.
  intros Hl Hd Hw o. subst o.
  unfold main. rewrite Hl.
  assert (Hisdir : os_path_isdir w (directory a) = true).
  { unfold os_path_isdir. rewrite Hl.
    destruct (directory a); [contradiction|reflexivity]. }
  rewrite Hisdir. unfold process_directory.
  destruct (new_GitignoreFilter (directory a) es) as [g msgs0].
  rewrite Hw. cbn [negb snd raised written messages returned output_file stdout
                   exit_status].
  repeat split. rewrite <- app_assoc. reflexivity.
Qed.

Lemma unwritable_output_returns_one_witness :
  let es := [File (py ".gitignore") (Raise UnicodeDecodeError);
             File (py "a.ts") (Ok (py "x"))] in
  let w := {| cwd := py "/home/u"; listing := Some es;
              output_writable := false |} in
  let a := args_of (py "proj") [] true in
  let o := main demo_libs w a in
  returned o = Some 1%Z /\
  exit_status (returned o) = 1%Z /\
  output_file o = None /\
  stdout o =
    snd (new_GitignoreFilter (directory a) es) ++
    [Error_writing_output; Error_top].
Proof.
  intros es w a.
  apply (unwritable_output_returns_one demo_libs w a es);
    (reflexivity || discriminate).
Defined.

(** ** The extension of a file *)

Lemma path_name_join (a n : str) :
  valid_name n = true -> path_name (os_path_join a n) = n.
Proof.
  intros Hn. unfold path_name, os_path_join.
  rewrite (valid_name_relative n Hn).
  assert (Hs := split_char_no_sep sep n (valid_name_no_sep n Hn)).
  destruct (valid_name_not_dots n Hn) as [H0 [H1 _]].
  assert (Hk : negb (is_nil n) && negb (str_eqb n (py ".")) = true).
  { apply andb_true_iff. split.
    - destruct n; [contradiction|reflexivity].
    - apply negb_true_iff. apply str_eqb_neq. exact H1. }
  assert (Hlast : forall x : str,
            last (filter (fun x => negb (is_nil x) && negb (str_eqb x (py ".")))
                    (split_char sep (x ++ sep :: n))) [] = n).
  { intros x. rewrite split_char_app, Hs, filter_app. cbn [filter].
    rewrite Hk. apply last_last. }
  destruct a as [|c a]; cbn [is_nil orb].
  - cbn [app]. rewrite Hs. cbn [filter]. rewrite Hk. reflexivity.
  - destruct (endswith [sep] (c :: a)) eqn:E.
    + apply endswith_sep_inv in E as [a' ->].
      rewrite <- app_assoc. cbn [app]. apply Hlast.
    + cbn [app]. exact (Hlast (c :: a)).
Qed.

Lemma suffix_from_rev_no_dot (x acc r : str) :
  existsb (N.eqb 46%N) x = false ->
  suffix_from_rev acc (x ++ r) = suffix_from_rev (rev x ++ acc) r.
Proof.
  revert acc. induction x as [|c x IH]; intros acc H; [reflexivity|].
  cbn [existsb] in H. apply orb_false_iff in H as [Hc Hx].
  cbn [app suffix_from_rev rev]. rewrite N.eqb_sym, Hc, (IH _ Hx), <- app_assoc.
  reflexivity.
Qed.

Lemma existsb_rev_false {A : Type} (f : A -> bool) (l : list A) :
  existsb f l = false -> existsb f (rev l) = false.
Proof.
  intros H. destruct (existsb f (rev l)) eqn:E; [|reflexivity].
  apply existsb_exists in E as [x [Hx Hf]]. apply in_rev in Hx.
  assert (existsb f l = true) by (apply existsb_exists; exists x; split; assumption).
  congruence.
Qed.

Lemma suffix_of_name (stem ext : str) :
  stem <> [] -> ext <> [] -> existsb (N.eqb 46%N) ext = false ->
  suffix_from_rev [] (rev (stem ++ 46%N :: ext)) = 46%N :: ext.
Proof.
  intros Hs He Hd.
  rewrite rev_app_distr. cbn [rev]. rewrite <- app_assoc. cbn [app].
  rewrite (suffix_from_rev_no_dot (rev ext) [] _ (existsb_rev_false _ _ Hd)).
  rewrite rev_involutive, app_nil_r. cbn [suffix_from_rev N.eqb Pos.eqb].
  destruct ext as [|e ext]; [contradiction|].
  destruct (rev stem) as [|s r] eqn:E; [|reflexivity].
  exfalso. apply Hs. rewrite <- (rev_involutive stem), E. reflexivity.
Qed.

Lemma suffix_of_plain_name (c : char) (t : str) :
  existsb (N.eqb 46%N) t = false ->
  suffix_from_rev [] (rev (c :: t)) = [].
Proof.
  intros Hd. cbn [rev].
  rewrite (suffix_from_rev_no_dot (rev t) [] [c] (existsb_rev_false _ _ Hd)).
  rewrite rev_involutive, app_nil_r. cbn [suffix_from_rev].
  destruct (c =? 46)%N; [destruct t|]; reflexivity.
Qed.

Lemma path_suffix_join (root stem ext : str) :
  valid_name (stem ++ 46%N :: ext) = true ->
  stem <> [] -> ext <> [] -> existsb (N.eqb 46%N) ext = false ->
  path_suffix (os_path_join root (stem ++ 46%N :: ext)) = 46%N :: ext.
Proof.
  intros Hv Hs He Hd. unfold path_suffix.
  rewrite (path_name_join root _ Hv). apply suffix_of_name; assumption.
Qed.

Lemma lower_char_idempotent (c : char) : lower_char (lower_char c) = lower_char c.
Proof.
  unfold lower_char.
  destruct ((65 <=? c) && (c <=? 90))%N eqn:E1.
  - apply andb_true_iff in E1 as [H1 H2].
    apply N.leb_le in H1. apply N.leb_le in H2.
    replace ((65 <=? c + 32) && (c + 32 <=? 90))%N with false.
    + replace (c + 32 =? 8490)%N with false; [reflexivity|].
      symmetry. apply N.eqb_neq. lia.
    + symmetry. apply andb_false_iff. right. apply N.leb_gt. lia.
  - destruct (c =? 8490)%N eqn:E2.
    + reflexivity.
    + rewrite E1, E2. reflexivity.
Qed.

Lemma lower_idempotent (s : str) : lower (lower s) = lower s.
Proof.
  unfold lower. rewrite map_map. apply map_ext. apply lower_char_idempotent.
Qed.

Lemma lower_no_dot (s : str) :
  existsb (N.eqb 46%N) s = false -> existsb (N.eqb 46%N) (lower s) = false.
Proof.
  induction s as [|c s IH]; intros H; [reflexivity|].
  cbn [existsb] in H. apply orb_false_iff in H as [Hc Hs].
  cbn [lower map existsb]. fold (lower s). rewrite (IH Hs), orb_false_r.
  apply N.eqb_neq in Hc. apply N.eqb_neq. unfold lower_char.
  destruct ((65 <=? c) && (c <=? 90))%N eqn:E1.
  - apply andb_true_iff in E1 as [H1 _]. apply N.leb_le in H1. lia.
  - destruct (c =? 8490)%N; [lia|exact Hc].
Qed.

(** X9: the type of a file is decided by the part of its name after the
    last dot, letter case apart: wherever the file lies and whatever
    comes before the dot, it has the type of [x.ext] with the extension
    in lower case; and a name with no dot after its first character (no
    extension, or a hidden file such as [.json]) has the type text. *)
Theorem get_file_type_is_by_extension (root stem ext : str) (c : char) (t : str) :
  (valid_name (stem ++ 46%N :: ext) = true ->
   stem <> [] -> ext <> [] -> existsb (N.eqb 46%N) ext = false ->
   get_file_type (os_path_join root (stem ++ 46%N :: ext)) =
   get_file_type (py "x." ++ lower ext)) /\
  (valid_name (c :: t) = true -> existsb (N.eqb 46%N) t = false ->
   get_file_type (os_path_join root (c :: t)) = py "text").
Proof.
  split.
  - intros Hv Hs He Hd. unfold get_file_type.
    rewrite (path_suffix_join root stem ext Hv Hs He Hd).
    assert (Hx : path_suffix (py "x." ++ lower ext) = 46%N :: lower ext).
    { unfold path_suffix.
      assert (Hn : path_name (py "x." ++ lower ext) = py "x." ++ lower ext).
      { unfold path_name.
        assert (Hsf : existsb (N.eqb sep) (py "x." ++ lower ext) = false).
        { apply valid_name_no_sep in Hv. rewrite existsb_app in Hv.
          apply orb_false_iff in Hv as [_ Hv]. cbn [existsb] in Hv.
          apply orb_false_iff in Hv as [_ Hv].
          change (py "x." ++ lower ext) with (120%N :: 46%N :: lower ext).
          cbn [existsb]. change (sep =? 120)%N with false.
          change (sep =? 46)%N with false. cbn [orb].
          clear -Hv. induction ext as [|e ext IH]; [reflexivity|].
          cbn [existsb] in Hv. apply orb_false_iff in Hv as [H1 H2].
          cbn [lower map existsb]. fold (lower ext). rewrite (IH H2), orb_false_r.
          apply N.eqb_neq in H1. apply N.eqb_neq. unfold lower_char.
          unfold sep in *.
          destruct ((65 <=? e) && (e <=? 90))%N eqn:E1.
          - apply andb_true_iff in E1 as [H3 _]. apply N.leb_le in H3. lia.
          - destruct (e =? 8490)%N; [lia|exact H1]. }
        rewrite (split_char_no_sep sep _ Hsf). reflexivity. }
      rewrite Hn.
      change (py "x." ++ lower ext) with ([120%N] ++ 46%N :: lower ext).
      apply suffix_of_name.
      - discriminate.
      - destruct ext; [contradiction|discriminate].
      - apply lower_no_dot. exact Hd. }
    rewrite Hx.
    change (lower (46%N :: ext)) with (46%N :: lower ext).
    change (lower (46%N :: lower ext)) with (46%N :: lower (lower ext)).
    rewrite lower_idempotent. reflexivity.
  - intros Hv Hd. unfold get_file_type, path_suffix.
    rewrite (path_name_join root _ Hv), (suffix_of_plain_name c t Hd).
    reflexivity.
Qed.

Lemma get_file_type_is_by_extension_witness :
  get_file_type (os_path_join (py "proj/src/lib") (py "App.test" ++ 46%N :: py "TS")) =
  get_file_type (py "x." ++ lower (py "TS")) /\
  get_file_type (os_path_join (py "proj") (py ".json")) = py "text".
Proof.
  split.
  - apply (proj1 (get_file_type_is_by_extension (py "proj/src/lib")
                    (py "App.test") (py "TS") 46%N (py "json")));
      (reflexivity || discriminate).
  - apply (proj2 (get_file_type_is_by_extension (py "proj") (py "a") (py "b")
                    46%N (py "json"))); reflexivity.
Defined.

(** X10: a file whose extension is one of the nine binary extensions, in
    any letter case, is left out wherever it lies and whatever the
    options are. *)
Theorem binary_extension_excluded (L : Libs) (wd root stem ext : str)
  (excl : list str) (g : GitignoreFilter) :
  valid_name (stem ++ 46%N :: ext) = true ->
  stem <> [] ->
  str_in (46%N :: lower ext) binary_extensions = true ->
  should_include_file L wd (os_path_join root (stem ++ 46%N :: ext)) excl g = false.
Proof.
  intros Hv Hs Hb.
  assert (He : ext <> []) by (intros ->; discriminate Hb).
  assert (Hd : existsb (N.eqb 46%N) ext = false).
  { destruct (existsb (N.eqb 46%N) ext) eqn:E; [|reflexivity]. exfalso.
    assert (Hl : existsb (N.eqb 46%N) (lower ext) = true).
    { apply existsb_exists in E as [x [Hx Hx']]. apply N.eqb_eq in Hx'. subst x.
      apply existsb_exists. exists 46%N. split; [|reflexivity].
      unfold lower. change 46%N with (lower_char 46%N) at 1.
      apply in_map. exact Hx. }
    unfold str_in, binary_extensions in Hb. cbn [existsb] in Hb.
    repeat (apply orb_true_iff in Hb as [Hb|Hb];
            [apply str_eqb_eq in Hb; injection Hb as Hb;
             rewrite Hb in Hl; discriminate Hl|]).
    discriminate Hb. }
  rewrite should_include_file_eq. unfold passes_fixed_rules.
  rewrite (path_suffix_join root stem ext Hv Hs He Hd).
  change (lower (46%N :: ext)) with (46%N :: lower ext).
  rewrite Hb. cbn [negb]. rewrite !andb_false_r. reflexivity.
Qed.

Lemma binary_extension_excluded_witness :
  should_include_file demo_libs (py "/home/u")
    (os_path_join (py "proj/static") (py "Logo.v2" ++ 46%N :: py "PNG")) []
    {| root_dir := py "proj"; spec := None |} = false.
Proof.
  apply (binary_extension_excluded demo_libs (py "/home/u") (py "proj/static")
           (py "Logo.v2") (py "PNG") [] {| root_dir := py "proj"; spec := None |});
    (reflexivity || discriminate).
Defined.

(** ** The white space of a minified svelte file *)

Lemma sub_spaces_from_plain (s : str) (in_run : bool) :
  plain_spaced (sub_spaces_from in_run s) = true.
Proof.
  revert in_run. induction s as [|c s IH]; intros in_run; [reflexivity|].
  cbn [sub_spaces_from]. destruct (is_space c) eqn:E.
  - destruct in_run; [apply IH|].
    unfold plain_spaced. cbn [forallb]. apply andb_true_iff. split.
    + reflexivity.
    + apply IH.
  - unfold plain_spaced. cbn [forallb]. rewrite E. apply IH.
Qed.

Lemma sub_gaps_from_plain (s : str) (skip : nat) :
  plain_spaced s = true -> plain_spaced (sub_gaps_from skip s) = true.
Proof.
  revert skip. induction s as [|c s IH]; intros skip H; [reflexivity|].
  unfold plain_spaced in H. cbn [forallb] in H.
  apply andb_true_iff in H as [Hc Hs].
  cbn [sub_gaps_from]. destruct skip as [|k]; [|apply IH; exact Hs].
  destruct (match_gap (c :: s)).
  - unfold plain_spaced. cbn [forallb].
    change (negb (is_space 62) || (62 =? 32)%N) with true.
    change (negb (is_space 60) || (60 =? 32)%N) with true.
    apply IH. exact Hs.
  - unfold plain_spaced. cbn [forallb]. rewrite Hc. apply IH. exact Hs.
Qed.

Lemma lstrip_suffix (s : str) : exists sp, s = sp ++ lstrip s.
Proof.
  induction s as [|c s [sp IH]]; [exists []; reflexivity|].
  cbn [lstrip]. destruct (is_space c).
  - exists (c :: sp). cbn [app]. rewrite <- IH. reflexivity.
  - exists []. reflexivity.
Qed.

Lemma lstrip_head (s : str) :
  lstrip s = [] \/ exists c t, lstrip s = c :: t /\ is_space c = false.
Proof.
  induction s as [|c s IH]; [left; reflexivity|].
  cbn [lstrip]. destruct (is_space c) eqn:E; [exact IH|].
  right. exists c, s. split; [reflexivity|exact E].
Qed.

Lemma plain_spaced_app (a b : str) :
  plain_spaced (a ++ b) = plain_spaced a && plain_spaced b.
Proof. apply forallb_app. Qed.

Lemma plain_spaced_rev (s : str) : plain_spaced (rev s) = plain_spaced s.
Proof.
  induction s as [|c s IH]; [reflexivity|].
  cbn [rev]. rewrite plain_spaced_app, IH. unfold plain_spaced. cbn [forallb].
  rewrite andb_true_r. apply andb_comm.
Qed.

Lemma lstrip_plain (s : str) :
  plain_spaced s = true -> plain_spaced (lstrip s) = true.
Proof.
  intros H. destruct (lstrip_suffix s) as [sp E]. rewrite E in H.
  rewrite plain_spaced_app in H. apply andb_true_iff in H as [_ H]. exact H.
Qed.

Lemma strip_plain (s : str) :
  plain_spaced s = true -> plain_spaced (strip s) = true.
Proof.
  intros H. unfold strip, rstrip. rewrite plain_spaced_rev.
  apply lstrip_plain. rewrite plain_spaced_rev. apply lstrip_plain. exact H.
Qed.

(** What [strip] returns has no white space at either end. *)
Lemma strip_fixed (s : str) :
  lstrip (strip s) = strip s /\ rstrip (strip s) = strip s.
Proof.
  unfold strip, rstrip. set (z := lstrip s).
  assert (Hz : z = [] \/ exists c t, z = c :: t /\ is_space c = false)
    by apply lstrip_head.
  destruct (lstrip_head (rev z)) as [E|[c [t [E Hc]]]].
  - rewrite E. split; reflexivity.
  - rewrite E. split.
    + destruct (lstrip_suffix (rev z)) as [sp Hsp]. rewrite E in Hsp.
      assert (Hz' : z = rev (c :: t) ++ rev sp).
      { rewrite <- (rev_involutive z), Hsp, rev_app_distr. reflexivity. }
      destruct (rev (c :: t)) as [|d m'] eqn:Em.
      * reflexivity.
      * destruct Hz as [Hz|[d' [t' [Hz Hd]]]].
        -- rewrite Hz in Hz'. discriminate Hz'.
        -- rewrite Hz in Hz'. cbn [app] in Hz'. injection Hz' as -> _.
           cbn [lstrip]. rewrite Hd. reflexivity.
    + rewrite rev_involutive. cbn [lstrip]. rewrite Hc. reflexivity.
Qed.

(** X11: a svelte text that is minified without a warning comes back on
    one line: the only white space left in it is the plain space (no
    newline, no tab), also inside what the script and style minifiers
    returned, and it neither starts nor ends with white space. *)
Theorem svelte_minified_on_one_line (L : Libs) (content m : str) :
  minify_content L content (py "svelte") = (m, []) ->
  plain_spaced m = true /\ lstrip m = m /\ rstrip m = m.
Proof.
  rewrite minify_content_svelte_unfold.
  destruct (sub_blocks (jsmin_jsmin L) (py "<script") (py "</script>")
              (sub_comments content)) as [c2|]; [|discriminate].
  destruct (sub_blocks (csscompressor_compress L) (py "<style") (py "</style>") c2)
    as [c3|]; [|discriminate].
  intros H. assert (E : strip (sub_gaps (sub_spaces c3)) = m) by congruence.
  rewrite <- E. split.
  - apply strip_plain. apply sub_gaps_from_plain. apply sub_spaces_from_plain.
  - apply strip_fixed.
Qed.

Lemma svelte_minified_on_one_line_witness :
  let m := py "<script>let x = 1; let y = 2;</script><p> hi </p>" in
  plain_spaced m = true /\ lstrip m = m /\ rstrip m = m.
Proof.
  intros m.
  apply (svelte_minified_on_one_line demo_libs
           [32; 60; 115; 99; 114; 105; 112; 116; 62; 108; 101; 116; 32; 120; 32;
            61; 32; 49; 59; 10; 9; 108; 101; 116; 32; 121; 32; 61; 32; 50; 59;
            60; 47; 115; 99; 114; 105; 112; 116; 62; 10; 10; 60; 112; 62; 32;
            104; 105; 9; 60; 47; 112; 62; 10]%N m).
  vm_compute. reflexivity.
Defined.

(** ** The indentation of the structure section *)

Lemma count_char_app (c : char) (a b : str) :
  count_char c (a ++ b) = count_char c a + count_char c b.
Proof. unfold count_char. rewrite filter_app, length_app. reflexivity. Qed.

Lemma count_char_sep_free (s : str) : sep_free s -> count_char sep s = 0.
Proof.
  unfold sep_free, count_char. induction s as [|c s IH]; intros H; [reflexivity|].
  cbn [existsb] in H. apply orb_false_iff in H as [Hc Hs].
  cbn [filter]. rewrite Hc. apply IH. exact Hs.
Qed.

Lemma startswith_firstn (p s : str) :
  startswith p s = true -> firstn (List.length p) s = p.
Proof.
  revert s. induction p as [|x p IH]; intros s H; [reflexivity|].
  destruct s as [|y s]; [discriminate H|].
  cbn [startswith] in H. apply andb_true_iff in H as [Hx Hp].
  apply N.eqb_eq in Hx. subst y. cbn [List.length firstn].
  rewrite (IH s Hp). reflexivity.
Qed.

(** Dropping the occurrences of a string that holds no separator leaves
    the separators in place. *)
Lemma count_sep_replace_drop (old s : str) (skip : nat) :
  sep_free old -> sep_free (firstn skip s) ->
  count_char sep (replace_drop skip old s) = count_char sep s.
Proof.
  intros Hold. revert skip. induction s as [|c s IH]; intros skip Hk;
    [reflexivity|].
  cbn [replace_drop]. destruct skip as [|k].
  - destruct old as [|o old'].
    + change (c :: replace_drop 0 [] s) with ([c] ++ replace_drop 0 [] s).
      change (c :: s) with ([c] ++ s). rewrite !count_char_app.
      rewrite (IH 0); reflexivity.
    + destruct (startswith (o :: old') (c :: s)) eqn:E.
      * assert (Hf := startswith_firstn _ _ E).
        cbn [List.length firstn] in Hf. injection Hf as Hc Hf. subst c.
        unfold sep_free in Hold. cbn [existsb] in Hold.
        apply orb_false_iff in Hold as [Ho Hold'].
        rewrite (IH (List.length old')); [|rewrite Hf; exact Hold'].
        unfold count_char. cbn [filter]. rewrite Ho. reflexivity.
      * change (c :: replace_drop 0 (o :: old') s)
          with ([c] ++ replace_drop 0 (o :: old') s).
        change (c :: s) with ([c] ++ s). rewrite !count_char_app.
        rewrite (IH 0); reflexivity.
  - unfold sep_free in Hk. cbn [firstn existsb] in Hk.
    apply orb_false_iff in Hk as [Hc Hk].
    rewrite (IH k Hk). unfold count_char. cbn [filter]. rewrite Hc. reflexivity.
Qed.

Lemma sep_free_not_endswith (n : str) : sep_free n -> endswith [sep] n = false.
Proof.
  intros H. destruct (endswith [sep] n) eqn:E; [|reflexivity].
  apply endswith_sep_inv in E as [a ->]. unfold sep_free in H.
  rewrite existsb_app in H. cbn [existsb] in H.
  rewrite N.eqb_refl in H. rewrite orb_true_r in H. discriminate H.
Qed.

Lemma count_sep_path_under (dir : str) (names : list str) :
  dir <> [] -> endswith [sep] dir = false ->
  forallb valid_name names = true ->
  count_char sep (path_under dir names) =
  count_char sep dir + List.length names.
Proof.
  unfold path_under. revert dir.
  induction names as [|n names IH]; intros dir Hd He Hn.
  - cbn [fold_left List.length]. rewrite Nat.add_0_r. reflexivity.
  - cbn [forallb] in Hn. apply andb_true_iff in Hn as [Hn Hns].
    cbn [fold_left]. rewrite (os_path_join_nonempty dir n Hd Hn), He.
    destruct (valid_name_not_dots n Hn) as [Hne _].
    rewrite IH.
    + change (dir ++ sep :: n) with (dir ++ [sep] ++ n).
      rewrite !count_char_app.
      rewrite (count_char_sep_free n (valid_name_sep_free n Hn)).
      cbn [List.length]. change (count_char sep [sep]) with 1. lia.
    + destruct dir; discriminate.
    + change (dir ++ sep :: n) with (dir ++ [sep] ++ n).
      rewrite app_assoc, endswith_sep_app by exact Hne.
      apply sep_free_not_endswith. exact (valid_name_sep_free n Hn).
    + exact Hns.
Qed.

(** ** Reading the minified size back from a block *)

Lemma startswith_delim (p x : str) (c : char) (rest : str) :
  existsb (N.eqb c) p = false ->
  startswith p (x ++ c :: rest) = startswith p x.
Proof.
  revert x. induction p as [|a p IH]; intros x H; [reflexivity|].
  cbn [existsb] in H. apply orb_false_iff in H as [Ha Hp].
  destruct x as [|b x]; cbn [app startswith].
  - rewrite N.eqb_sym, Ha. reflexivity.
  - rewrite (IH x Hp). reflexivity.
Qed.

Lemma startswith_prefix (a b x : str) :
  startswith (a ++ b) x = true -> startswith a x = true.
Proof.
  revert x. induction a as [|c a IH]; intros x H; [reflexivity|].
  destruct x as [|d x]; [discriminate H|].
  cbn [app startswith] in *. apply andb_true_iff in H as [H1 H2].
  rewrite H1, (IH x H2). reflexivity.
Qed.

(** The search passes over a text that does not spell the name of the
    attribute and ends at a quote or a space. *)
Lemma search_minified_size_skip (x : str) (c : char) (rest : str) :
  existsb (N.eqb c) (py "minified_size") = false ->
  contains (py "minified_size") x = false ->
  search_minified_size (x ++ c :: rest) = search_minified_size rest.
Proof.
  intros Hc.
  assert (Hno : forall y : str,
            contains (py "minified_size") y = false ->
            match_minified_size (y ++ c :: rest) = None).
  { intros y Hy. unfold match_minified_size.
    destruct (startswith (pyq "minified_size='") (y ++ c :: rest)) eqn:E;
      [|reflexivity].
    exfalso.
    change (pyq "minified_size='") with (py "minified_size" ++ [61; 34]%N) in E.
    apply startswith_prefix in E. rewrite (startswith_delim _ y c rest Hc) in E.
    rewrite (contains_head _ _ Hy) in E. discriminate E. }
  induction x as [|h x IH]; intros Hx.
  - assert (H0 := Hno [] eq_refl). cbn [app] in H0 |- *.
    cbn [search_minified_size]. rewrite H0. reflexivity.
  - assert (H0 := Hno (h :: x) Hx). cbn [app] in H0 |- *.
    cbn [search_minified_size]. rewrite H0.
    apply IH. exact (contains_tail _ _ _ Hx).
Qed.

Lemma span_digits_uint_chars_app (d : Decimal.uint) (c : char) (r : str) :
  is_digit c = false ->
  span_digits (uint_chars d ++ c :: r) = (uint_chars d, c :: r).
Proof.
  intros Hc.
  induction d; cbn [uint_chars app span_digits];
    [rewrite Hc; reflexivity|..];
    change (is_digit _) with true; cbv iota; rewrite IHd; reflexivity.
Qed.

Lemma str_of_N_nonempty (n : N) : exists c t, str_of_N n = c :: t.
Proof.
  destruct n as [|p].
  - exists 48%N, []. reflexivity.
  - destruct (pos_to_uint_head p) as [c [ds [E _]]].
    exists c, (uint_chars ds). exact E.
Qed.

Lemma contains_attr_uint_chars (d : Decimal.uint) :
  contains (py "minified_size") (uint_chars d) = false.
Proof.
  induction d; cbn [uint_chars contains]; [reflexivity|..];
    rewrite IHd; reflexivity.
Qed.

Lemma contains_attr_str_of_Z (z : Z) :
  (0 <= z)%Z -> contains (py "minified_size") (str_of_Z z) = false.
Proof.
  intros Hz. destruct z as [|p|p]; [reflexivity| |lia].
  apply contains_attr_uint_chars.
Qed.

(** The attribute itself is read as the number it holds. *)
Lemma search_minified_size_here (m : Z) (tail : str) :
  (0 <= m)%Z ->
  search_minified_size (pyq "minified_size='" ++ str_of_Z m ++ 34%N :: tail) =
  Some m.
Proof.
  intros Hm.
  assert (Hmatch : match_minified_size
                     (pyq "minified_size='" ++ str_of_Z m ++ 34%N :: tail) =
                   Some m).
  { unfold match_minified_size. rewrite startswith_self_app.
    change (skipn 15 (pyq "minified_size='" ++ str_of_Z m ++ 34%N :: tail))
      with (str_of_Z m ++ 34%N :: tail).
    assert (Hs : str_of_Z m = str_of_N (Z.to_N m))
      by (destruct m as [|p|p]; [reflexivity|reflexivity|lia]).
    rewrite Hs at 1. unfold str_of_N at 1.
    rewrite span_digits_uint_chars_app by reflexivity.
    fold (str_of_N (Z.to_N m)). rewrite <- Hs.
    destruct (str_of_N_nonempty (Z.to_N m)) as [c [t E]].
    rewrite <- Hs in E. rewrite E. change (34 =? 34)%N with true. cbv iota.
    rewrite <- E, int_of_literal_str_of_Z. reflexivity. }
  destruct (pyq "minified_size='" ++ str_of_Z m ++ 34%N :: tail) eqn:E;
    cbn [search_minified_size]; rewrite Hmatch; reflexivity.
Qed.

Lemma utf8_len_nonneg (s : str) (n : Z) : utf8_len s = Ok n -> (0 <= n)%Z.
Proof.
  unfold utf8_len. destruct (utf8_encode s); [|discriminate].
  intros H. injection H as <-. apply Nat2Z.is_nonneg.
Qed.

Lemma calculate_size_reduction_sizes (original minified : str) (o m : Z)
  (red : float) :
  calculate_size_reduction original minified = Ok (o, m, red) ->
  utf8_len original = Ok o /\ utf8_len minified = Ok m.
Proof.
  unfold calculate_size_reduction, bind.
  destruct (utf8_len original) as [o'|]; [|discriminate].
  destruct (utf8_len minified) as [m'|]; [|discriminate].
  destruct (int_true_div (o' - m') o'); [|discriminate].
  intros H. injection H as <- <- _. split; reflexivity.
Qed.

Lemma get_file_type_no_attribute (file_path : str) :
  contains (py "minified_size") (get_file_type file_path) = false.
Proof.
  unfold get_file_type, file_types. cbn [dict_get].
  repeat (destruct (str_eqb _ _); [reflexivity|]). reflexivity.
Qed.

(** The size that the content pass reads back from a block. *)
Lemma format_file_content_size_read_back (L : Libs)
  (wd file_path content file_type block : str) (msgs : list message)
  (o m : Z) (red : float) :
  contains (py "minified_size") (os_path_relpath wd file_path (py ".")) = false ->
  contains (py "minified_size") file_type = false ->
  calculate_size_reduction content (fst (minify_content L content file_type)) =
    Ok (o, m, red) ->
  format_file_content L wd file_path content file_type true = (Ok block, msgs) ->
  search_minified_size block = Some m.
Proof.
  intros Hrp Hft Hcalc. unfold format_file_content.
  destruct (minify_content L content file_type) as [mc msgs'].
  cbn [fst] in Hcalc. rewrite Hcalc. intros H.
  match type of H with
  | (Ok ?x, _) = _ => assert (E : x = block) by congruence
  end.
  rewrite <- E. clear H E.
  destruct (calculate_size_reduction_sizes _ _ _ _ _ Hcalc) as [Ho Hm].
  apply utf8_len_nonneg in Ho. apply utf8_len_nonneg in Hm.
  rewrite <- !app_assoc.
  change (pyq "<file path='" ++ os_path_relpath wd file_path (py ".") ++
          pyq "' type='" ++ file_type ++ pyq "'" ++ pyq " original_size='" ++
          str_of_Z o ++ pyq "' minified_size='" ++ str_of_Z m ++
          pyq "' reduction='" ++ format_1f red ++ pyq "%'" ++ py ">" ++ nl ++
          py "```" ++ file_type ++ nl ++ mc ++
          (if endswith nl mc then [] else nl) ++
          py "```" ++ nl ++ py "</file>" ++ nl ++ nl)
    with (py "<file path=" ++ 34%N ::
          os_path_relpath wd file_path (py ".") ++ 34%N ::
          py " type=" ++ 34%N ::
          file_type ++ 34%N ::
          py " original_size=" ++ 34%N ::
          str_of_Z o ++ 34%N ::
          [] ++ 32%N ::
          pyq "minified_size='" ++ str_of_Z m ++ 34%N ::
          (pyq " reduction='" ++ format_1f red ++ pyq "%'" ++ py ">" ++ nl ++
           py "```" ++ file_type ++ nl ++ mc ++
           (if endswith nl mc then [] else nl) ++
           py "```" ++ nl ++ py "</file>" ++ nl ++ nl)).
  rewrite search_minified_size_skip by reflexivity.
  rewrite search_minified_size_skip by (reflexivity || exact Hrp).
  rewrite search_minified_size_skip by reflexivity.
  rewrite search_minified_size_skip by (reflexivity || exact Hft).
  rewrite search_minified_size_skip by reflexivity.
  rewrite search_minified_size_skip
    by (reflexivity || exact (contains_attr_str_of_Z o Ho)).
  rewrite search_minified_size_skip by reflexivity.
  apply search_minified_size_here. exact Hm.
Qed.

(** X13: unless the path written in the block spells [minified_size],
    the size that the content pass reads back from the block of a file is
    the size that [calculate_size_reduction] computed: the file gets its
    block, and the two totals grow by the UTF-8 sizes of the original and
    of the minified text. *)
Theorem minified_size_read_back (L : Libs) (wd file_path content : str)
  (st : pass_state) (o m : Z) (red : float) :
  contains (py "minified_size") (os_path_relpath wd file_path (py ".")) = false ->
  calculate_size_reduction content
    (fst (minify_content L content (get_file_type file_path))) = Ok (o, m, red) ->
  let st' := process_file L wd true file_path (Ok content) st in
  utf8_len content = Ok o /\
  utf8_len (fst (minify_content L content (get_file_type file_path))) = Ok m /\
  total_original_size st' = (total_original_size st + o)%Z /\
  total_minified_size st' = (total_minified_size st + m)%Z /\
  exists text, blocks st' = blocks st ++ [(file_path, text)].
Proof.
  intros Hrp Hcalc st'.
  destruct (calculate_size_reduction_sizes _ _ _ _ _ Hcalc) as [Ho Hm].
  split; [exact Ho|]. split; [exact Hm|].
  subst st'. unfold process_file. rewrite Ho.
  destruct (format_file_content L wd file_path content (get_file_type file_path)
              true) as [[block|e] msgs] eqn:Ef.
  - rewrite (format_file_content_size_read_back L wd file_path content
               (get_file_type file_path) block msgs o m red Hrp
               (get_file_type_no_attribute file_path) Hcalc Ef).
    cbn [total_original_size total_minified_size blocks add_block print_in
         add_original].
    repeat split. exists block. reflexivity.
  - exfalso. unfold format_file_content in Ef.
    destruct (minify_content L content (get_file_type file_path)) as [mc ms].
    cbn [fst] in Hcalc. rewrite Hcalc in Ef. discriminate Ef.
Qed.

Lemma minified_size_read_back_witness :
  let content := py "# Title   text" in
  let st' := process_file demo_libs (py "/home/u") true (py "proj/README.md")
               (Ok content) empty_state in
  utf8_len content = Ok 14%Z /\
  utf8_len (fst (minify_content demo_libs content
                   (get_file_type (py "proj/README.md")))) = Ok 12%Z /\
  total_original_size st' = (total_original_size empty_state + 14)%Z /\
  total_minified_size st' = (total_minified_size empty_state + 12)%Z /\
  exists text, blocks st' = blocks empty_state ++ [(py "proj/README.md", text)].
Proof.
  intros content.
  apply (minified_size_read_back demo_libs (py "/home/u") (py "proj/README.md")
           content empty_state 14%Z 12%Z
           (S754_finite false 8042142191733028 (-49))).
  - reflexivity.
  - vm_compute. reflexivity.
Defined.

(** * The json module: strings *)

Lemma hex_value_hex_digit (n : N) :
  (n < 16)%N -> hex_value (hex_digit n) = Some n.
Proof.
  intros H.
  assert (E : In n [0; 1; 2; 3; 4; 5; 6; 7; 8; 9; 10; 11; 12; 13; 14; 15]%N)
    by (cbn [In]; lia).
  cbn [In] in E.
  repeat (destruct E as [<-|E]; [reflexivity|]). destruct E.
Qed.

Lemma hex4_value_u_escape (u : N) :
  (u < 65536)%N ->
  hex4_value (hex_digit (u / 4096)) (hex_digit ((u / 256) mod 16))
             (hex_digit ((u / 16) mod 16)) (hex_digit (u mod 16)) = Some u.
Proof.
  intros H. unfold hex4_value.
  rewrite !hex_value_hex_digit.
  - f_equal. zify. Z.to_euclidean_division_equations. lia.
  - apply N.mod_lt. discriminate.
  - apply N.mod_lt. discriminate.
  - apply N.mod_lt. discriminate.
  - apply N.Div0.div_lt_upper_bound. exact H.
Qed.

Lemma hex_value_bound (c : char) (x : N) : hex_value c = Some x -> (x < 16)%N.
Proof.
  unfold hex_value, is_digit.
  destruct ((48 <=? c) && (c <=? 57))%N eqn:E1.
  { apply andb_true_iff in E1 as [H1 H2].
    apply N.leb_le in H1. apply N.leb_le in H2.
    intros H. injection H as <-. lia. }
  destruct ((97 <=? c) && (c <=? 102))%N eqn:E2.
  { apply andb_true_iff in E2 as [H1 H2].
    apply N.leb_le in H1. apply N.leb_le in H2.
    intros H. injection H as <-. lia. }
  destruct ((65 <=? c) && (c <=? 70))%N eqn:E3; [|discriminate].
  apply andb_true_iff in E3 as [H1 H2].
  apply N.leb_le in H1. apply N.leb_le in H2.
  intros H. injection H as <-. lia.
Qed.

Lemma hex4_value_bound (a b c d : char) (u : N) :
  hex4_value a b c d = Some u -> (u < 65536)%N.
Proof.
  unfold hex4_value.
  destruct (hex_value a) as [x|] eqn:Ea; [|discriminate].
  destruct (hex_value b) as [y|] eqn:Eb; [|discriminate].
  destruct (hex_value c) as [z|] eqn:Ec; [|discriminate].
  destruct (hex_value d) as [w|] eqn:Ed; [|discriminate].
  apply hex_value_bound in Ea, Eb, Ec, Ed.
  intros H. injection H as <-. lia.
Qed.

(** ** The equations of [scanstring] *)

Lemma scanstring_quote (t : str) : scanstring (34%N :: t) = Some ([], t).
Proof. reflexivity. Qed.

Lemma scanstring_plain (c : char) (t : str) :
  (c =? 34)%N = false -> (c =? 92)%N = false ->
  scanstring (c :: t) =
  if (c <? 32)%N then None else cons_result c (scanstring t).
Proof. intros H1 H2. cbn [scanstring]. rewrite H1, H2. reflexivity. Qed.

Lemma scanstring_escape (e : char) (t' : str) :
  (e =? 117)%N = false ->
  scanstring (92%N :: e :: t') =
  match unescape e with
  | Some ch => cons_result ch (scanstring t')
  | None => None
  end.
Proof.
  intros H. cbn [scanstring].
  change (92 =? 34)%N with false. change (92 =? 92)%N with true. cbv iota.
  rewrite H. reflexivity.
Qed.

Lemma scanstring_u (a b c d : char) (u : N) (t2 : str) :
  hex4_value a b c d = Some u ->
  scanstring (92%N :: 117%N :: a :: b :: c :: d :: t2) =
  match t2 with
  | x :: y :: a' :: b' :: c' :: d' :: t4 =>
      match (if is_high_surrogate u && (x =? 92)%N && (y =? 117)%N
             then hex4_value a' b' c' d' else None) with
      | Some u2 =>
          if is_low_surrogate u2
          then cons_result (join_surrogates u u2) (scanstring t4)
          else cons_result u (scanstring t2)
      | None => cons_result u (scanstring t2)
      end
  | _ => cons_result u (scanstring t2)
  end.
Proof.
  intros H. cbn [scanstring].
  change (92 =? 34)%N with false. change (92 =? 92)%N with true.
  change (117 =? 117)%N with true. cbv iota.
  rewrite H. reflexivity.
Qed.

Lemma scanstring_u_alone (a b c d : char) (u : N) (t2 : str) :
  hex4_value a b c d = Some u ->
  is_high_surrogate u && peek_low t2 = false ->
  scanstring (92%N :: 117%N :: a :: b :: c :: d :: t2) =
  cons_result u (scanstring t2).
Proof.
  intros Hu Hp. rewrite (scanstring_u a b c d u t2 Hu).
  destruct t2 as [|x [|y [|a' [|b' [|c' [|d' t4]]]]]]; try reflexivity.
  unfold peek_low in Hp.
  destruct (is_high_surrogate u); cbn [andb] in *; [|reflexivity].
  destruct (x =? 92)%N; cbn [andb] in *; [|reflexivity].
  destruct (y =? 117)%N; cbn [andb] in *; [|reflexivity].
  destruct (hex4_value a' b' c' d') as [u2|]; [|reflexivity].
  rewrite Hp. reflexivity.
Qed.

Lemma scanstring_pair (a b c d a' b' c' d' : char) (hi lo : N) (t4 : str) :
  hex4_value a b c d = Some hi -> is_high_surrogate hi = true ->
  hex4_value a' b' c' d' = Some lo -> is_low_surrogate lo = true ->
  scanstring (92%N :: 117%N :: a :: b :: c :: d ::
              92%N :: 117%N :: a' :: b' :: c' :: d' :: t4) =
  cons_result (join_surrogates hi lo) (scanstring t4).
Proof.
  intros H1 H2 H3 H4. rewrite (scanstring_u a b c d hi _ H1).
  cbv iota beta. rewrite H2.
  change (92 =? 92)%N with true. change (117 =? 117)%N with true.
  cbn [andb]. rewrite H3, H4. reflexivity.
Qed.

(** ** What follows an escaped character *)

Lemma peek_low_not_backslash (x : char) (s : str) :
  (x =? 92)%N = false -> peek_low (x :: s) = false.
Proof.
  intros H. destruct s as [|y [|a [|b [|c [|d t]]]]]; cbn [peek_low];
    try reflexivity.
  rewrite H. reflexivity.
Qed.

Lemma peek_low_not_u (x y : char) (s : str) :
  (y =? 117)%N = false -> peek_low (x :: y :: s) = false.
Proof.
  intros H. destruct s as [|a [|b [|c [|d t]]]]; cbn [peek_low];
    try reflexivity.
  rewrite H, andb_false_r. reflexivity.
Qed.

(** The ways [json.dumps] writes one character. *)
Lemma escape_char_cases (c : char) :
  (exists e, escape_char c = [92%N; e] /\ (e =? 117)%N = false /\
             unescape e = Some c /\ (c < 128)%N) \/
  (escape_char c = [c] /\ (c =? 34)%N = false /\ (c =? 92)%N = false /\
   (c <? 32)%N = false /\ (c < 128)%N) \/
  (escape_char c = u_escape c /\ (c < 65536)%N) \/
  (escape_char c = u_escape (55296 + (c - 65536) / 1024) ++
                   u_escape (56320 + (c - 65536) mod 1024) /\
   (65536 <= c)%N).
Proof.
  unfold escape_char.
  destruct (c =? 34)%N eqn:E1.
  { apply N.eqb_eq in E1. subst c. left. exists 34%N. repeat split. }
  destruct (c =? 92)%N eqn:E2.
  { apply N.eqb_eq in E2. subst c. left. exists 92%N. repeat split. }
  destruct (c =? 10)%N eqn:E3.
  { apply N.eqb_eq in E3. subst c. left. exists 110%N. repeat split. }
  destruct (c =? 13)%N eqn:E4.
  { apply N.eqb_eq in E4. subst c. left. exists 114%N. repeat split. }
  destruct (c =? 9)%N eqn:E5.
  { apply N.eqb_eq in E5. subst c. left. exists 116%N. repeat split. }
  destruct (c =? 8)%N eqn:E6.
  { apply N.eqb_eq in E6. subst c. left. exists 98%N. repeat split. }
  destruct (c =? 12)%N eqn:E7.
  { apply N.eqb_eq in E7. subst c. left. exists 102%N. repeat split. }
  destruct ((32 <=? c) && (c <=? 126))%N eqn:E8.
  { apply andb_true_iff in E8 as [H1 H2].
    apply N.leb_le in H1. apply N.leb_le in H2.
    right. left. repeat split.
    - apply N.ltb_ge. exact H1.
    - lia. }
  destruct (c <? 65536)%N eqn:E9.
  { apply N.ltb_lt in E9. right. right. left. split; [reflexivity|exact E9]. }
  apply N.ltb_ge in E9. right. right. right. split; [reflexivity|exact E9].
Qed.

Lemma small_not_low (c : char) : (c < 128)%N -> is_low_surrogate c = false.
Proof.
  intros H. unfold is_low_surrogate. apply andb_false_iff. left.
  apply N.leb_gt. lia.
Qed.

Lemma small_not_high (c : char) : (c < 128)%N -> is_high_surrogate c = false.
Proof.
  intros H. unfold is_high_surrogate. apply andb_false_iff. left.
  apply N.leb_gt. lia.
Qed.

Lemma large_not_surrogate (c : char) :
  (65536 <= c)%N -> is_high_surrogate c = false /\ is_low_surrogate c = false.
Proof.
  intros H. unfold is_high_surrogate, is_low_surrogate.
  split; apply andb_false_iff; right; apply N.leb_gt; lia.
Qed.

(** The two halves that [json.dumps] writes for a character beyond the
    basic plane. *)
Lemma surrogate_halves (c : char) :
  (65536 <= c)%N -> (c < 1114112)%N ->
  let hi := (55296 + (c - 65536) / 1024)%N in
  let lo := (56320 + (c - 65536) mod 1024)%N in
  (hi < 65536)%N /\ (lo < 65536)%N /\
  is_high_surrogate hi = true /\ is_low_surrogate lo = true /\
  is_low_surrogate hi = false /\
  join_surrogates hi lo = c.
Proof.
  intros H1 H2.
  assert (Hq : ((c - 65536) / 1024 < 1024)%N)
    by (apply N.Div0.div_lt_upper_bound; lia).
  assert (Hr : ((c - 65536) mod 1024 < 1024)%N)
    by (apply N.mod_lt; discriminate).
  assert (Hd : (c - 65536 = 1024 * ((c - 65536) / 1024) + (c - 65536) mod 1024)%N)
    by (apply N.div_mod; discriminate).
  remember ((c - 65536) / 1024)%N as q.
  remember ((c - 65536) mod 1024)%N as r.
  intros hi lo. subst hi lo.
  unfold is_high_surrogate, is_low_surrogate, join_surrogates.
  repeat split.
  - lia.
  - lia.
  - apply andb_true_iff. split; apply N.leb_le; lia.
  - apply andb_true_iff. split; apply N.leb_le; lia.
  - apply andb_false_iff. left. apply N.leb_gt. lia.
  - lia.
Qed.

Lemma peek_low_escape (t rest : str) :
  match t with d :: _ => (d < 1114112)%N | [] => True end ->
  peek_low (flat_map escape_char t ++ 34%N :: rest) = low_head t.
Proof.
  destruct t as [|d t']; intros Hd.
  - apply peek_low_not_backslash. reflexivity.
  - cbn [flat_map low_head]. rewrite <- app_assoc.
    destruct (escape_char_cases d)
      as [[e [E [He [_ Hs]]]]|[[E [_ [H92 [_ Hs]]]]|[[E Hs]|[E Hs]]]]; rewrite E.
    + rewrite (small_not_low d Hs). apply peek_low_not_u. exact He.
    + rewrite (small_not_low d Hs). apply peek_low_not_backslash. exact H92.
    + unfold u_escape. cbn [app peek_low].
      rewrite (hex4_value_u_escape d Hs). reflexivity.
    + destruct (surrogate_halves d Hs Hd) as [Hhi [_ [_ [_ [Hnl _]]]]].
      destruct (large_not_surrogate d Hs) as [_ Hl]. rewrite Hl.
      unfold u_escape at 1. cbn [app peek_low].
      rewrite (hex4_value_u_escape _ Hhi). exact Hnl.
Qed.

Lemma scanstring_escape_char (c : char) (t rest : str) :
  (c < 1114112)%N ->
  is_high_surrogate c && low_head t = false ->
  match t with d :: _ => (d < 1114112)%N | [] => True end ->
  scanstring (escape_char c ++ flat_map escape_char t ++ 34%N :: rest) =
  cons_result c (scanstring (flat_map escape_char t ++ 34%N :: rest)).
Proof.
  intros Hc Hp Ht.
  destruct (escape_char_cases c)
    as [[e [E [He [Hu _]]]]|[[E [H34 [H92 [H32 _]]]]|[[E Hs]|[E Hs]]]]; rewrite E.
  - cbn [app]. rewrite (scanstring_escape e _ He), Hu. reflexivity.
  - cbn [app]. rewrite (scanstring_plain c _ H34 H92), H32. reflexivity.
  - unfold u_escape. cbn [app].
    apply scanstring_u_alone; [exact (hex4_value_u_escape c Hs)|].
    rewrite (peek_low_escape t rest Ht). exact Hp.
  - destruct (surrogate_halves c Hs Hc) as [Hhi [Hlo [H1 [H2 [_ Hj]]]]].
    unfold u_escape. cbn [app].
    rewrite (scanstring_pair _ _ _ _ _ _ _ _ _ _ _
               (hex4_value_u_escape _ Hhi) H1 (hex4_value_u_escape _ Hlo) H2).
    rewrite Hj. reflexivity.
Qed.

(** What [json.dumps] writes for a string reads back as that string. *)
Lemma scanstring_encode (s rest : str) :
  wf_str s = true ->
  scanstring (flat_map escape_char s ++ 34%N :: rest) = Some (s, rest).
Proof.
  induction s as [|c t IH]; intros H; [reflexivity|].
  cbn [wf_str] in H. apply andb_true_iff in H as [H Ht].
  apply andb_true_iff in H as [Hc Hp].
  apply N.ltb_lt in Hc. apply negb_true_iff in Hp.
  cbn [flat_map]. rewrite <- app_assoc.
  rewrite (scanstring_escape_char c t rest Hc Hp).
  - rewrite (IH Ht). reflexivity.
  - destruct t as [|d t']; [exact I|].
    cbn [wf_str] in Ht. apply andb_true_iff in Ht as [Ht _].
    apply andb_true_iff in Ht as [Hd _]. apply N.ltb_lt. exact Hd.
Qed.

(** ** The strings that [scanstring] returns *)

Lemma cons_result_inv (ch : char) (o : option (str * str)) (x r : str) :
  cons_result ch o = Some (x, r) ->
  exists x', x = ch :: x' /\ o = Some (x', r).
Proof.
  destruct o as [[x' r']|]; [|discriminate]. cbn [cons_result].
  intros H. injection H as <- <-. exists x'. split; reflexivity.
Qed.

Lemma valid_text_skipn (n : nat) (s : str) :
  valid_text s = true -> valid_text (skipn n s) = true.
Proof.
  intros H. rewrite <- (firstn_skipn n s) in H. unfold valid_text in *.
  rewrite forallb_app in H. apply andb_true_iff in H as [_ H]. exact H.
Qed.

Lemma valid_char_facts (c : char) :
  valid_char c = true ->
  (c < 1114112)%N /\ is_high_surrogate c = false /\ is_low_surrogate c = false.
Proof.
  unfold valid_char, is_surrogate, is_high_surrogate, is_low_surrogate.
  intros H. apply andb_true_iff in H as [H1 H2].
  apply N.ltb_lt in H1. apply negb_true_iff in H2. apply andb_false_iff in H2.
  split; [exact H1|].
  destruct H2 as [H2|H2]; apply N.leb_gt in H2; split; apply andb_false_iff;
    ((left; apply N.leb_gt; lia) || (right; apply N.leb_gt; lia)).
Qed.

Lemma unescape_small (e ch : char) : unescape e = Some ch -> (ch < 128)%N.
Proof.
  unfold unescape.
  repeat (destruct (_ =? _)%N; [intros H; injection H as <-; reflexivity|]).
  discriminate.
Qed.

Lemma wf_str_cons (ch : char) (x : str) :
  (ch < 1114112)%N ->
  is_high_surrogate ch && low_head x = false ->
  wf_str x = true -> wf_str (ch :: x) = true.
Proof.
  intros H1 H2 H3. cbn [wf_str].
  rewrite (proj2 (N.ltb_lt _ _) H1), H2, H3. reflexivity.
Qed.

Lemma join_surrogates_facts (hi lo : N) :
  is_high_surrogate hi = true -> is_low_surrogate lo = true ->
  (65536 <= join_surrogates hi lo)%N /\ (join_surrogates hi lo < 1114112)%N.
Proof.
  unfold is_high_surrogate, is_low_surrogate, join_surrogates.
  intros H1 H2.
  apply andb_true_iff in H1 as [H1 H1']. apply andb_true_iff in H2 as [H2 H2'].
  apply N.leb_le in H1, H1', H2, H2'. lia.
Qed.

Lemma scanstring_u_none (a b c d : char) (t2 : str) :
  hex4_value a b c d = None ->
  scanstring (92%N :: 117%N :: a :: b :: c :: d :: t2) = None.
Proof.
  intros H. cbn [scanstring].
  change (92 =? 34)%N with false. change (92 =? 92)%N with true.
  change (117 =? 117)%N with true. cbv iota.
  rewrite H. reflexivity.
Qed.

Lemma scanstring_u_short (t' : str) :
  List.length t' < 4 -> scanstring (92%N :: 117%N :: t') = None.
Proof.
  destruct t' as [|a [|b [|c [|d t]]]]; intros H; try reflexivity.
  cbn [List.length] in H. lia.
Qed.

(** A string read from a valid text holds code points, and no high
    surrogate directly followed by a low one; when it starts with a low
    surrogate, that one was written as an escape. *)
Lemma scanstring_wf (n : nat) :
  forall s x r : str,
    List.length s <= n ->
    valid_text s = true ->
    scanstring s = Some (x, r) ->
    wf_str x = true /\ valid_text r = true /\
    (low_head x = true -> peek_low s = true).
Proof.
  induction n as [|n IH]; intros s x r Hlen Hv Hs.
  { destruct s; [discriminate Hs|cbn [List.length] in Hlen; lia]. }
  destruct s as [|c t]; [discriminate Hs|].
  cbn [List.length] in Hlen.
  assert (Hvt : valid_text t = true) by exact (valid_text_skipn 1 _ Hv).
  destruct (c =? 34)%N eqn:E34.
  { apply N.eqb_eq in E34. subst c. rewrite scanstring_quote in Hs.
    injection Hs as <- <-. repeat split; [exact Hvt|discriminate]. }
  destruct (c =? 92)%N eqn:E92.
  { apply N.eqb_eq in E92. subst c.
    destruct t as [|e t']; [discriminate Hs|].
    cbn [List.length] in Hlen.
    destruct (e =? 117)%N eqn:E117.
    - apply N.eqb_eq in E117. subst e.
      destruct (Nat.ltb (List.length t') 4) eqn:E4.
      { apply Nat.ltb_lt in E4. rewrite (scanstring_u_short t' E4) in Hs.
        discriminate Hs. }
      apply Nat.ltb_ge in E4.
      destruct t' as [|a [|b [|c1 [|d t2]]]];
        try (cbn [List.length] in E4; lia).
      cbn [List.length] in Hlen.
      destruct (hex4_value a b c1 d) as [u|] eqn:Eu.
      2:{ rewrite (scanstring_u_none a b c1 d t2 Eu) in Hs. discriminate Hs. }
      rewrite (scanstring_u a b c1 d u t2 Eu) in Hs.
      assert (Hvt2 : valid_text t2 = true) by exact (valid_text_skipn 6 _ Hv).
      assert (Hub := hex4_value_bound _ _ _ _ _ Eu).
      assert (Hsingle :
        cons_result u (scanstring t2) = Some (x, r) ->
        is_high_surrogate u && peek_low t2 = false ->
        wf_str x = true /\ valid_text r = true /\
        (low_head x = true ->
         peek_low (92%N :: 117%N :: a :: b :: c1 :: d :: t2) = true)).
      { intros Hc Hnp. apply cons_result_inv in Hc as [x' [-> Hs2]].
        destruct (IH t2 x' r) as [Hw [Hr Hl]]; [lia|exact Hvt2|exact Hs2|].
        repeat split.
        - apply wf_str_cons; [lia| |exact Hw].
          destruct (is_high_surrogate u); [|reflexivity]. cbn [andb] in *.
          destruct (low_head x'); [|reflexivity].
          rewrite (Hl eq_refl) in Hnp. discriminate Hnp.
        - exact Hr.
        - cbn [low_head peek_low]. rewrite Eu. intros Hlow. exact Hlow. }
      destruct t2 as [|x1 [|y [|a' [|b' [|c' [|d' t4]]]]]];
        try (apply (Hsingle Hs); cbn [peek_low]; apply andb_false_r).
      cbn [List.length] in Hlen.
      destruct (is_high_surrogate u) eqn:Eh; cbn [andb] in Hs.
      2:{ apply (Hsingle Hs). reflexivity. }
      destruct (x1 =? 92)%N eqn:Ex; cbn [andb] in Hs.
      2:{ apply (Hsingle Hs). cbn [peek_low andb]. rewrite Ex. reflexivity. }
      destruct (y =? 117)%N eqn:Ey; cbn [andb] in Hs.
      2:{ apply (Hsingle Hs). cbn [peek_low andb]. rewrite Ex, Ey. reflexivity. }
      destruct (hex4_value a' b' c' d') as [u2|] eqn:Eu2.
      2:{ apply (Hsingle Hs). cbn [peek_low andb]. rewrite Ex, Ey, Eu2.
          reflexivity. }
      destruct (is_low_surrogate u2) eqn:El2.
      2:{ apply (Hsingle Hs). cbn [peek_low andb]. rewrite Ex, Ey, Eu2, El2.
          reflexivity. }
      apply cons_result_inv in Hs as [x' [-> Hs4]].
      destruct (IH t4 x' r) as [Hw [Hr _]];
        [lia|exact (valid_text_skipn 12 _ Hv)|exact Hs4|].
      destruct (join_surrogates_facts u u2 Eh El2) as [Hj1 Hj2].
      destruct (large_not_surrogate _ Hj1) as [Hnh Hnl].
      repeat split.
      + apply wf_str_cons; [exact Hj2|rewrite Hnh; reflexivity|exact Hw].
      + exact Hr.
      + cbn [low_head]. rewrite Hnl. discriminate.
    - rewrite (scanstring_escape e t' E117) in Hs.
      destruct (unescape e) as [ch|] eqn:Ech; [|discriminate Hs].
      apply cons_result_inv in Hs as [x' [-> Hs2]].
      destruct (IH t' x' r) as [Hw [Hr _]];
        [lia|exact (valid_text_skipn 2 _ Hv)|exact Hs2|].
      assert (Hch := unescape_small e ch Ech).
      repeat split.
      + apply wf_str_cons; [lia|rewrite (small_not_high ch Hch); reflexivity|
                            exact Hw].
      + exact Hr.
      + cbn [low_head]. rewrite (small_not_low ch Hch). discriminate. }
  rewrite (scanstring_plain c t E34 E92) in Hs.
  destruct (c <? 32)%N; [discriminate Hs|].
  apply cons_result_inv in Hs as [x' [-> Hs2]].
  destruct (IH t x' r) as [Hw [Hr _]]; [lia|exact Hvt|exact Hs2|].
  assert (Hc : valid_char c = true).
  { unfold valid_text in Hv. cbn [forallb] in Hv.
    apply andb_true_iff in Hv as [Hv _]. exact Hv. }
  destruct (valid_char_facts c Hc) as [H1 [H2 H3]].
  repeat split.
  - apply wf_str_cons; [exact H1|rewrite H2; reflexivity|exact Hw].
  - exact Hr.
  - cbn [low_head]. rewrite H3. discriminate.
Qed.

(** * The json module: what [json.loads] returns *)

(** ** Numbers: the literal and the rest make up the text *)

Lemma span_digits_eq (s : str) :
  fst (span_digits s) ++ snd (span_digits s) = s.
Proof.
  induction s as [|c s IH]; [reflexivity|].
  cbn [span_digits]. destruct (is_digit c); [|reflexivity].
  destruct (span_digits s) as [ds r]. cbn [fst snd app] in *.
  rewrite IH. reflexivity.
Qed.

Lemma scan_int_part_eq (s ip r : str) :
  scan_int_part s = Some (ip, r) -> s = ip ++ r.
Proof.
  destruct s as [|c t]; [discriminate|]. cbn [scan_int_part].
  destruct ((49 <=? c) && (c <=? 57))%N.
  - assert (H := span_digits_eq t). destruct (span_digits t) as [ds r'].
    cbn [fst snd] in H. intros E. injection E as <- <-.
    cbn [app]. rewrite H. reflexivity.
  - destruct (c =? 48)%N; [|discriminate].
    intros E. injection E as <- <-. reflexivity.
Qed.

Lemma scan_frac_eq (r : str) : fst (scan_frac r) ++ snd (scan_frac r) = r.
Proof.
  destruct r as [|p [|d t]]; try reflexivity. cbn [scan_frac].
  destruct ((p =? 46)%N && is_digit d); [|reflexivity].
  assert (H := span_digits_eq t). destruct (span_digits t) as [fd r2].
  cbn [fst snd app] in *. rewrite H. reflexivity.
Qed.

Lemma scan_exp_eq (r : str) : fst (scan_exp r) ++ snd (scan_exp r) = r.
Proof.
  destruct r as [|e t]; [reflexivity|]. cbn [scan_exp].
  destruct ((e =? 101) || (e =? 69))%N; [|reflexivity].
  assert (Hsg : forall sg t2 : str,
            (match t with
             | x :: t2 => if ((x =? 45) || (x =? 43))%N then ([x], t2) else ([], t)
             | [] => ([], t)
             end) = (sg, t2) -> sg ++ t2 = t).
  { intros sg t2. destruct t as [|x t'].
    - intros E. injection E as <- <-. reflexivity.
    - destruct ((x =? 45) || (x =? 43))%N; intros E; injection E as <- <-;
        reflexivity. }
  destruct (match t with
            | x :: t2 => if ((x =? 45) || (x =? 43))%N then ([x], t2) else ([], t)
            | [] => ([], t)
            end) as [sg t2] eqn:E.
  specialize (Hsg sg t2 eq_refl).
  assert (H := span_digits_eq t2). destruct (span_digits t2) as [ed r3].
  cbn [fst snd] in H. destruct ed as [|x ed]; [reflexivity|].
  cbn [fst snd app]. rewrite <- app_assoc, H, Hsg. reflexivity.
Qed.

Lemma scan_number_eq (s lex r : str) (b : bool) :
  scan_number s = Some (b, lex, r) -> s = lex ++ r.
Proof.
  unfold scan_number.
  assert (Hsign : forall sign s1 : str,
            (match s with
             | c :: t => if (c =? 45)%N then ([c], t) else ([], s)
             | [] => ([], s)
             end) = (sign, s1) -> s = sign ++ s1).
  { intros sign s1. destruct s as [|c t].
    - intros E. injection E as <- <-. reflexivity.
    - destruct (c =? 45)%N; intros E; injection E as <- <-; reflexivity. }
  destruct (match s with
            | c :: t => if (c =? 45)%N then ([c], t) else ([], s)
            | [] => ([], s)
            end) as [sign s1] eqn:E.
  specialize (Hsign sign s1 eq_refl).
  destruct (scan_int_part s1) as [[ip r1]|] eqn:Ei; [|discriminate].
  apply scan_int_part_eq in Ei.
  assert (Hf := scan_frac_eq r1). destruct (scan_frac r1) as [frac r2].
  assert (He := scan_exp_eq r2). destruct (scan_exp r2) as [ex r3].
  cbn [fst snd] in Hf, He.
  intros H. injection H as _ <- <-.
  rewrite Hsign, Ei, <- Hf, <- He, <- !app_assoc. reflexivity.
Qed.

(** ** Valid texts *)

Lemma valid_text_app (a b : str) :
  valid_text (a ++ b) = valid_text a && valid_text b.
Proof. apply forallb_app. Qed.

Lemma valid_text_cons (c : char) (t : str) :
  valid_text (c :: t) = true -> valid_text t = true.
Proof. exact (valid_text_skipn 1 (c :: t)). Qed.

Lemma valid_skip_ws (s : str) :
  valid_text s = true -> valid_text (skip_ws s) = true.
Proof.
  induction s as [|c s IH]; intros H; [reflexivity|].
  cbn [skip_ws]. destruct (is_json_ws c); [|exact H].
  apply IH. exact (valid_text_cons c s H).
Qed.

Lemma valid_after_ws (r : str) (c : char) (t : str) :
  valid_text r = true -> skip_ws r = c :: t ->
  valid_text (c :: t) = true /\ valid_text t = true.
Proof.
  intros H E. assert (H' := valid_skip_ws r H). rewrite E in H'.
  split; [exact H'|exact (valid_text_cons c t H')].
Qed.

(** ** Storing a member *)

Lemma dict_set_Forall (P : str * json -> Prop) (d : list (str * json))
  (k : str) (v : json) :
  Forall P d -> P (k, v) -> Forall P (dict_set d k v).
Proof.
  intros Hd Hkv. induction d as [|[k' v'] d IH]; cbn [dict_set].
  - constructor; [exact Hkv|constructor].
  - inversion Hd as [|? ? H1 H2]; subst.
    destruct (str_eqb k' k) eqn:E.
    + apply str_eqb_eq in E. subst k'. constructor; assumption.
    + constructor; [exact H1|exact (IH H2)].
Qed.

Lemma dict_set_keys_in (d : list (str * json)) (k : str) (v : json) (x : str) :
  In x (map fst (dict_set d k v)) -> In x (map fst d) \/ x = k.
Proof.
  induction d as [|[k' v'] d IH]; cbn [dict_set map fst In].
  - intros [<-|[]]. right. reflexivity.
  - destruct (str_eqb k' k); cbn [map fst In].
    + intros H. left. exact H.
    + intros [H|H]; [left; left; exact H|].
      destruct (IH H) as [H'|H']; [left; right; exact H'|right; exact H'].
Qed.

Lemma dict_set_NoDup (d : list (str * json)) (k : str) (v : json) :
  NoDup (map fst d) -> NoDup (map fst (dict_set d k v)).
Proof.
  induction d as [|[k' v'] d IH]; cbn [dict_set map fst]; intros H.
  - constructor; [intros []|constructor].
  - inversion H as [|? ? H1 H2]; subst.
    destruct (str_eqb k' k) eqn:E; cbn [map fst].
    + constructor; assumption.
    + constructor; [|exact (IH H2)].
      intros Hin. apply dict_set_keys_in in Hin as [Hin| ->].
      * exact (H1 Hin).
      * rewrite str_eqb_refl in E. discriminate E.
Qed.

Lemma dict_set_fresh (d : list (str * json)) (k : str) (v : json) :
  ~ In k (map fst d) -> dict_set d k v = d ++ [(k, v)].
Proof.
  induction d as [|[k' v'] d IH]; cbn [dict_set map fst In app]; intros H;
    [reflexivity|].
  destruct (str_eqb k' k) eqn:E.
  - apply str_eqb_eq in E. exfalso. apply H. left. exact E.
  - rewrite IH; [reflexivity|]. intros Hin. apply H. right. exact Hin.
Qed.

(** ** The equations of the scanner *)

Lemma scan_once_S (L : Libs) (n : nat) (s : str) :
  scan_once L (S n) s =
  match s with
  | [] => None
  | c :: t =>
      if (c =? 34)%N then
        match scanstring t with
        | Some (x, r) => Some (JString x, r)
        | None => None
        end
      else if (c =? 123)%N then
        match skip_ws t with
        | c1 :: t1 =>
            if (c1 =? 125)%N then Some (JObject [], t1)
            else parse_members L n [] (c1 :: t1)
        | [] => None
        end
      else if (c =? 91)%N then
        match skip_ws t with
        | c1 :: t1 =>
            if (c1 =? 93)%N then Some (JArray [], t1)
            else parse_elements L n [] (c1 :: t1)
        | [] => None
        end
      else if startswith (py "null") s then Some (JNull, skipn 4 s)
      else if startswith (py "true") s then Some (JBool true, skipn 4 s)
      else if startswith (py "false") s then Some (JBool false, skipn 5 s)
      else if startswith (py "NaN") s then Some (JFloat S754_nan, skipn 3 s)
      else if startswith (py "Infinity") s
           then Some (JFloat (S754_infinity false), skipn 8 s)
      else if startswith (py "-Infinity") s
           then Some (JFloat (S754_infinity true), skipn 9 s)
      else match_number L s
  end.
Proof. reflexivity. Qed.

Lemma parse_elements_S (L : Libs) (n : nat) (acc : list json) (s : str) :
  parse_elements L (S n) acc s =
  match scan_once L n s with
  | None => None
  | Some (v, r) =>
      match skip_ws r with
      | c :: t =>
          if (c =? 93)%N then Some (JArray (rev (v :: acc)), t)
          else if (c =? 44)%N then parse_elements L n (v :: acc) (skip_ws t)
          else None
      | [] => None
      end
  end.
Proof. reflexivity. Qed.

Lemma parse_members_S (L : Libs) (n : nat) (acc : list (str * json)) (s : str) :
  parse_members L (S n) acc s =
  match s with
  | c :: t =>
      if (c =? 34)%N then
        match scanstring t with
        | None => None
        | Some (k, r) =>
            match skip_ws r with
            | c2 :: t2 =>
                if (c2 =? 58)%N then
                  match scan_once L n (skip_ws t2) with
                  | None => None
                  | Some (v, r2) =>
                      match skip_ws r2 with
                      | c3 :: t3 =>
                          if (c3 =? 125)%N
                          then Some (JObject (dict_set acc k v), t3)
                          else if (c3 =? 44)%N
                          then parse_members L n (dict_set acc k v) (skip_ws t3)
                          else None
                      | [] => None
                      end
                  end
                else None
            | [] => None
            end
        end
      else None
  | [] => None
  end.
Proof. reflexivity. Qed.

(** ** The values read from a valid text *)

Section Parsed.
Context (L : Libs).
Hypothesis float_ok : repr_round_trips L.

Lemma scan_once_wf (n : nat) :
  (forall (s : str) (v : json) (r : str),
     valid_text s = true -> scan_once L n s = Some (v, r) ->
     wf_json L v /\ valid_text r = true) /\
  (forall (acc : list json) (s : str) (v : json) (r : str),
     valid_text s = true -> Forall (wf_json L) acc ->
     parse_elements L n acc s = Some (v, r) ->
     wf_json L v /\ valid_text r = true) /\
  (forall (acc : list (str * json)) (s : str) (v : json) (r : str),
     valid_text s = true ->
     NoDup (map fst acc) ->
     Forall (fun kv => wf_str (fst kv) = true /\ wf_json L (snd kv)) acc ->
     parse_members L n acc s = Some (v, r) ->
     wf_json L v /\ valid_text r = true).
Proof.
  induction n as [|n [IHA [IHB IHC]]].
  { repeat split; intros; discriminate. }
  split; [|split].
  - intros s v r Hv Hs. rewrite scan_once_S in Hs.
    destruct s as [|c t]; [discriminate Hs|].
    assert (Hvt := valid_text_cons c t Hv).
    destruct (c =? 34)%N.
    { destruct (scanstring t) as [[x r']|] eqn:Est; [|discriminate Hs].
      injection Hs as <- <-.
      destruct (scanstring_wf (List.length t) t x r' (le_n _) Hvt Est)
        as [Hw [Hr _]].
      split; [constructor; exact Hw|exact Hr]. }
    destruct (c =? 123)%N.
    { destruct (skip_ws t) as [|c1 t1] eqn:Esk; [discriminate Hs|].
      destruct (valid_after_ws t c1 t1 Hvt Esk) as [Hv1 Hv2].
      destruct (c1 =? 125)%N.
      - injection Hs as <- <-. split; [|exact Hv2].
        constructor; [constructor|constructor].
      - apply (IHC [] (c1 :: t1) v r Hv1); [constructor|constructor|exact Hs]. }
    destruct (c =? 91)%N.
    { destruct (skip_ws t) as [|c1 t1] eqn:Esk; [discriminate Hs|].
      destruct (valid_after_ws t c1 t1 Hvt Esk) as [Hv1 Hv2].
      destruct (c1 =? 93)%N.
      - injection Hs as <- <-. split; [|exact Hv2].
        constructor. constructor.
      - apply (IHB [] (c1 :: t1) v r Hv1); [constructor|exact Hs]. }
    destruct (startswith (py "null") (c :: t)).
    { injection Hs as <- <-.
      split; [constructor|exact (valid_text_skipn 4 _ Hv)]. }
    destruct (startswith (py "true") (c :: t)).
    { injection Hs as <- <-.
      split; [constructor|exact (valid_text_skipn 4 _ Hv)]. }
    destruct (startswith (py "false") (c :: t)).
    { injection Hs as <- <-.
      split; [constructor|exact (valid_text_skipn 5 _ Hv)]. }
    destruct (startswith (py "NaN") (c :: t)).
    { injection Hs as <- <-.
      split; [constructor; exact I|exact (valid_text_skipn 3 _ Hv)]. }
    destruct (startswith (py "Infinity") (c :: t)).
    { injection Hs as <- <-.
      split; [constructor; exact I|exact (valid_text_skipn 8 _ Hv)]. }
    destruct (startswith (py "-Infinity") (c :: t)).
    { injection Hs as <- <-.
      split; [constructor; exact I|exact (valid_text_skipn 9 _ Hv)]. }
    unfold match_number in Hs.
    destruct (scan_number (c :: t)) as [[[b lex] r']|] eqn:En;
      [|discriminate Hs].
    assert (Hr : valid_text r' = true).
    { apply scan_number_eq in En. rewrite En, valid_text_app in Hv.
      apply andb_true_iff in Hv as [_ Hv]. exact Hv. }
    destruct b; injection Hs as <- <-.
    + split; [constructor; apply float_ok|exact Hr].
    + split; [constructor|exact Hr].
  - intros acc s v r Hv Hacc Hs. rewrite parse_elements_S in Hs.
    destruct (scan_once L n s) as [[v1 r1]|] eqn:E1; [|discriminate Hs].
    destruct (IHA s v1 r1 Hv E1) as [Hw1 Hr1].
    destruct (skip_ws r1) as [|c t] eqn:Esk; [discriminate Hs|].
    destruct (valid_after_ws r1 c t Hr1 Esk) as [_ Hvt].
    destruct (c =? 93)%N.
    { injection Hs as <- <-. split; [|exact Hvt].
      constructor. apply Forall_app. split.
      - apply Forall_rev. exact Hacc.
      - constructor; [exact Hw1|constructor]. }
    destruct (c =? 44)%N; [|discriminate Hs].
    apply (IHB (v1 :: acc) (skip_ws t) v r);
      [apply valid_skip_ws; exact Hvt|constructor; assumption|exact Hs].
  - intros acc s v r Hv Hnd Hacc Hs. rewrite parse_members_S in Hs.
    destruct s as [|c t]; [discriminate Hs|].
    assert (Hvt := valid_text_cons c t Hv).
    destruct (c =? 34)%N; [|discriminate Hs].
    destruct (scanstring t) as [[k r0]|] eqn:Est; [|discriminate Hs].
    destruct (scanstring_wf (List.length t) t k r0 (le_n _) Hvt Est)
      as [Hwk [Hr0 _]].
    destruct (skip_ws r0) as [|c2 t2] eqn:Esk; [discriminate Hs|].
    destruct (valid_after_ws r0 c2 t2 Hr0 Esk) as [_ Hvt2].
    destruct (c2 =? 58)%N; [|discriminate Hs].
    destruct (scan_once L n (skip_ws t2)) as [[v1 r2]|] eqn:E1;
      [|discriminate Hs].
    destruct (IHA (skip_ws t2) v1 r2 (valid_skip_ws t2 Hvt2) E1) as [Hw1 Hr2].
    destruct (skip_ws r2) as [|c3 t3] eqn:Esk2; [discriminate Hs|].
    destruct (valid_after_ws r2 c3 t3 Hr2 Esk2) as [_ Hvt3].
    assert (Hnd' := dict_set_NoDup acc k v1 Hnd).
    assert (Hacc' :
      Forall (fun kv => wf_str (fst kv) = true /\ wf_json L (snd kv))
        (dict_set acc k v1)).
    { apply dict_set_Forall; [exact Hacc|]. split; assumption. }
    destruct (c3 =? 125)%N.
    { injection Hs as <- <-. split; [|exact Hvt3].
      constructor; assumption. }
    destruct (c3 =? 44)%N; [|discriminate Hs].
    apply (IHC (dict_set acc k v1) (skip_ws t3) v r);
      [apply valid_skip_ws; exact Hvt3|exact Hnd'|exact Hacc'|exact Hs].
Qed.

(** The value that [json.loads] returns for a valid text. *)
Lemma json_loads_wf (content : str) (v : json) :
  valid_text content = true -> json_loads L content = Some v -> wf_json L v.
Proof.
  intros Hv. unfold json_loads.
  destruct (scan_once L (2 * List.length content + 2) (skip_ws content))
    as [[v' r]|] eqn:E; [|discriminate].
  destruct (is_nil (skip_ws r)); [|discriminate].
  intros H. injection H as <-.
  destruct (scan_once_wf (2 * List.length content + 2)) as [HA _].
  exact (proj1 (HA _ _ _ (valid_skip_ws content Hv) E)).
Qed.

End Parsed.

(** * The json module: reading back what [json.dumps] wrote *)

(** ** How a written value starts *)

Lemma skip_ws_nonws (c : char) (t : str) :
  is_json_ws c = false -> skip_ws (c :: t) = c :: t.
Proof. intros H. cbn [skip_ws]. rewrite H. reflexivity. Qed.

Lemma value_head_inv (s : str) :
  value_head s = true ->
  exists c t, s = c :: t /\ is_json_ws c = false /\ (c =? 93)%N = false.
Proof.
  destruct s as [|c t]; [discriminate|]. cbn [value_head]. intros H.
  apply andb_true_iff in H as [H1 H2].
  apply negb_true_iff in H1. apply negb_true_iff in H2.
  exists c, t. repeat split; assumption.
Qed.

Lemma skip_ws_value_head (s : str) : value_head s = true -> skip_ws s = s.
Proof.
  intros H. destruct (value_head_inv s H) as [c [t [-> [Hc _]]]].
  apply skip_ws_nonws. exact Hc.
Qed.

Lemma is_digit_cases (c : char) :
  is_digit c = true -> In c [48; 49; 50; 51; 52; 53; 54; 55; 56; 57]%N.
Proof.
  unfold is_digit. intros H. apply andb_true_iff in H as [H1 H2].
  apply N.leb_le in H1. apply N.leb_le in H2. cbn [In]. lia.
Qed.

Lemma scan_int_part_head (s : str) (p : str * str) :
  scan_int_part s = Some p -> exists d t, s = d :: t /\ is_digit d = true.
Proof.
  destruct s as [|d t]; [discriminate|]. cbn [scan_int_part]. intros H.
  exists d, t. split; [reflexivity|]. unfold is_digit.
  destruct ((49 <=? d) && (d <=? 57))%N eqn:E.
  - apply andb_true_iff in E as [H1 H2]. rewrite H2, andb_true_r.
    apply N.leb_le in H1. apply N.leb_le. lia.
  - destruct (d =? 48)%N eqn:E0; [|discriminate H].
    apply N.eqb_eq in E0. subst d. reflexivity.
Qed.

Lemma scan_number_head (s : str) (x : bool * str * str) :
  scan_number s = Some x -> number_head s = true.
Proof.
  unfold scan_number, number_head. destruct s as [|c t]; [discriminate|].
  destruct (c =? 45)%N.
  - destruct (scan_int_part t) as [p|] eqn:E; [|discriminate]. intros _.
    destruct (scan_int_part_head t p E) as [d [t' [-> Hd]]]. exact Hd.
  - destruct (scan_int_part (c :: t)) as [p|] eqn:E; [|discriminate]. intros _.
    destruct (scan_int_part_head _ p E) as [d [t' [E' Hd]]].
    injection E' as <- _. exact Hd.
Qed.

Lemma number_head_app (s rest : str) :
  number_head s = true -> number_head (s ++ rest) = true.
Proof.
  destruct s as [|c [|d t]]; cbn [number_head app]; try discriminate.
  - destruct (c =? 45)%N; [discriminate|]. intros H. exact H.
  - intros H. exact H.
Qed.

Lemma number_head_value (s : str) :
  number_head s = true -> value_head s = true.
Proof.
  destruct s as [|c t]; [discriminate|]. cbn [number_head value_head].
  destruct (c =? 45)%N eqn:E.
  - apply N.eqb_eq in E. subst c. reflexivity.
  - intros H. apply is_digit_cases in H. cbn [In] in H.
    repeat (destruct H as [<-|H]; [reflexivity|]). destruct H.
Qed.

(** A text that starts like a number is handed to the number scanner. *)
Lemma scan_once_number (L : Libs) (n : nat) (s : str) :
  number_head s = true -> scan_once L (S n) s = match_number L s.
Proof.
  rewrite scan_once_S. destruct s as [|c t]; [discriminate|].
  cbn [number_head]. destruct (c =? 45)%N eqn:E.
  - apply N.eqb_eq in E. subst c. destruct t as [|d t']; [discriminate|].
    intros H. apply is_digit_cases in H. cbn [In] in H.
    repeat (destruct H as [<-|H]; [reflexivity|]). destruct H.
  - intros H. apply is_digit_cases in H. cbn [In] in H.
    repeat (destruct H as [<-|H]; [reflexivity|]). destruct H.
Qed.

Lemma join_cons (sep x : str) (l : list str) :
  join sep (x :: l) = x ++ match l with [] => [] | _ => sep ++ join sep l end.
Proof. destruct l; [symmetry; apply app_nil_r|reflexivity]. Qed.

Section Dumped.
Context (L : Libs).

Lemma json_dumps_head (v : json) (rest : str) :
  wf_json L v -> value_head (json_dumps L v ++ rest) = true.
Proof.
  intros Hw. inversion Hw as [|b|z|f Hf|s Hs|l Hl|d Hd1 Hd2]; subst.
  - reflexivity.
  - destruct b; reflexivity.
  - cbn [json_dumps]. apply number_head_value, number_head_app.
    exact (scan_number_head _ _ (scan_number_str_of_Z z)).
  - destruct f as [s|s| |s m e]; cbn [json_dumps floatstr].
    + destruct Hf as [Hf _].
      apply number_head_value, number_head_app.
      exact (scan_number_head _ _ Hf).
    + destruct s; reflexivity.
    + reflexivity.
    + destruct Hf as [Hf _].
      apply number_head_value, number_head_app.
      exact (scan_number_head _ _ Hf).
  - reflexivity.
  - reflexivity.
  - reflexivity.
Qed.

Lemma elements_head (l : list json) (rest : str) :
  l <> [] -> Forall (wf_json L) l ->
  value_head (join (py ",") (map (json_dumps L) l) ++ rest) = true.
Proof.
  intros Hne Hall. destruct l as [|v l]; [contradiction|].
  inversion Hall as [|? ? Hv _]; subst.
  cbn [map]. rewrite join_cons, <- app_assoc.
  apply json_dumps_head. exact Hv.
Qed.

Lemma member_text (k : str) (v : json) (x : str) :
  dumps_member L (k, v) ++ x =
  34%N :: (flat_map escape_char k ++ 34%N :: 58%N :: (json_dumps L v ++ x)).
Proof.
  unfold dumps_member, encode_basestring_ascii. cbn [fst snd].
  rewrite <- !app_assoc. reflexivity.
Qed.

Lemma members_head (d : list (str * json)) (rest : str) :
  d <> [] ->
  exists t, join (py ",") (map (dumps_member L) d) ++ rest = 34%N :: t.
Proof.
  intros Hne. destruct d as [|[k v] d]; [contradiction|].
  cbn [map]. rewrite join_cons, <- app_assoc, member_text.
  eexists. reflexivity.
Qed.

Lemma array_text (j rest : str) :
  (py "[" ++ j ++ py "]") ++ rest = 91%N :: (j ++ 93%N :: rest).
Proof. rewrite <- !app_assoc. reflexivity. Qed.

Lemma object_text (j rest : str) :
  (py "{" ++ j ++ py "}") ++ rest = 123%N :: (j ++ 125%N :: rest).
Proof. rewrite <- !app_assoc. reflexivity. Qed.

Lemma length_member (k : str) (v : json) :
  List.length (json_dumps L v) + 3 <= List.length (dumps_member L (k, v)).
Proof.
  unfold dumps_member, encode_basestring_ascii. cbn [fst snd].
  rewrite !length_app. change (List.length (py ":")) with 1.
  cbn [List.length]. lia.
Qed.

Lemma length_join_cons (x y : str) (l : list str) :
  List.length (join (py ",") (x :: y :: l)) =
  List.length x + 1 + List.length (join (py ",") (y :: l)).
Proof.
  change (join (py ",") (x :: y :: l))
    with (x ++ py "," ++ join (py ",") (y :: l)).
  rewrite !length_app. change (List.length (py ",")) with 1. lia.
Qed.

(** With enough fuel the scanner reads a written value back, and stops
    where the value ends. *)
Lemma scan_once_dumps (n : nat) :
  (forall (v : json) (rest : str),
     wf_json L v ->
     2 * List.length (json_dumps L v) + 1 <= n ->
     delim rest = true ->
     scan_once L n (json_dumps L v ++ rest) = Some (v, rest)) /\
  (forall (l acc : list json) (rest : str),
     l <> [] -> Forall (wf_json L) l ->
     2 * List.length (join (py ",") (map (json_dumps L) l)) + 2 <= n ->
     parse_elements L n acc
       (join (py ",") (map (json_dumps L) l) ++ 93%N :: rest) =
     Some (JArray (rev acc ++ l), rest)) /\
  (forall (d acc : list (str * json)) (rest : str),
     d <> [] ->
     Forall (fun kv => wf_str (fst kv) = true /\ wf_json L (snd kv)) d ->
     NoDup (map fst acc ++ map fst d) ->
     2 * List.length (join (py ",") (map (dumps_member L) d)) + 2 <= n ->
     parse_members L n acc
       (join (py ",") (map (dumps_member L) d) ++ 125%N :: rest) =
     Some (JObject (acc ++ d), rest)).
Proof.
  induction n as [|n [IHA [IHB IHC]]].
  { repeat split; intros; lia. }
  split; [|split].
  - intros v rest Hw Hn Hd.
    inversion Hw as [|b|z|f Hf|s Hs|l Hl|d Hd1 Hd2]; subst.
    + reflexivity.
    + destruct b; reflexivity.
    + cbn [json_dumps].
      rewrite scan_once_number
        by (apply number_head_app;
            exact (scan_number_head _ _ (scan_number_str_of_Z z))).
      unfold match_number.
      rewrite (scan_number_app _ rest _ _ _ Hd (scan_number_str_of_Z z)).
      cbn [app]. rewrite int_of_literal_str_of_Z. reflexivity.
    + destruct f as [s|s| |s m e]; cbn [json_dumps floatstr].
      * destruct Hf as [Hf1 Hf2].
        rewrite scan_once_number
          by (apply number_head_app; exact (scan_number_head _ _ Hf1)).
        unfold match_number. rewrite (scan_number_app _ rest _ _ _ Hd Hf1).
        cbn [app]. rewrite Hf2. reflexivity.
      * destruct s; reflexivity.
      * reflexivity.
      * destruct Hf as [Hf1 Hf2].
        rewrite scan_once_number
          by (apply number_head_app; exact (scan_number_head _ _ Hf1)).
        unfold match_number. rewrite (scan_number_app _ rest _ _ _ Hd Hf1).
        cbn [app]. rewrite Hf2. reflexivity.
    + cbn [json_dumps]. unfold encode_basestring_ascii.
      rewrite scan_once_S. cbn [app].
      change (34 =? 34)%N with true. cbv iota.
      rewrite <- app_assoc. cbn [app].
      rewrite (scanstring_encode s rest Hs). reflexivity.
    + change (json_dumps L (JArray l))
        with (py "[" ++ join (py ",") (map (json_dumps L) l) ++ py "]") in *.
      destruct l as [|v1 l']; [reflexivity|].
      rewrite array_text, scan_once_S.
      change (91 =? 34)%N with false. change (91 =? 123)%N with false.
      change (91 =? 91)%N with true. cbv iota.
      assert (Hh := elements_head (v1 :: l') (93%N :: rest)
                      ltac:(discriminate) Hl).
      rewrite (skip_ws_value_head _ Hh).
      destruct (value_head_inv _ Hh) as [c1 [t1 [E [_ Hc]]]].
      rewrite E, Hc, <- E.
      rewrite (IHB (v1 :: l') [] rest ltac:(discriminate) Hl).
      * reflexivity.
      * rewrite !length_app in Hn.
        change (List.length (py "[")) with 1 in Hn.
        change (List.length (py "]")) with 1 in Hn. lia.
    + change (json_dumps L (JObject d))
        with (py "{" ++ join (py ",") (map (dumps_member L) d) ++ py "}") in *.
      destruct d as [|kv d']; [reflexivity|].
      rewrite object_text, scan_once_S.
      change (123 =? 34)%N with false. change (123 =? 123)%N with true.
      cbv iota.
      destruct (members_head (kv :: d') (125%N :: rest) ltac:(discriminate))
        as [t E].
      rewrite E, (skip_ws_nonws 34%N t eq_refl).
      change (34 =? 125)%N with false. cbv iota. rewrite <- E.
      rewrite (IHC (kv :: d') [] rest ltac:(discriminate) Hd2 Hd1).
      * reflexivity.
      * rewrite !length_app in Hn.
        change (List.length (py "{")) with 1 in Hn.
        change (List.length (py "}")) with 1 in Hn. lia.
  - intros l acc rest Hne Hall Hn.
    destruct l as [|v l']; [contradiction|].
    inversion Hall as [|? ? Hv Hl']; subst.
    rewrite parse_elements_S. destruct l' as [|v2 l''].
    + cbn [map join] in *.
      rewrite (IHA v (93%N :: rest) Hv ltac:(lia) eq_refl).
      rewrite (skip_ws_nonws 93%N rest eq_refl).
      change (93 =? 93)%N with true. cbv iota. reflexivity.
    + cbn [map] in Hn. rewrite length_join_cons in Hn.
      change (join (py ",") (map (json_dumps L) (v :: v2 :: l'')))
        with (json_dumps L v ++
              py "," ++ join (py ",") (map (json_dumps L) (v2 :: l''))).
      rewrite <- !app_assoc.
      change (py "," ++
              join (py ",") (map (json_dumps L) (v2 :: l'')) ++ 93%N :: rest)
        with (44%N ::
              (join (py ",") (map (json_dumps L) (v2 :: l'')) ++ 93%N :: rest)).
      rewrite (IHA v (44%N :: _) Hv ltac:(lia) eq_refl).
      rewrite (skip_ws_nonws 44%N _ eq_refl).
      change (44 =? 93)%N with false. change (44 =? 44)%N with true.
      cbv iota.
      rewrite (skip_ws_value_head _
                 (elements_head (v2 :: l'') (93%N :: rest)
                    ltac:(discriminate) Hl')).
      rewrite (IHB (v2 :: l'') (v :: acc) rest ltac:(discriminate) Hl'
                 ltac:(cbn [map] in *; lia)).
      cbn [rev]. rewrite <- app_assoc. reflexivity.
  - intros d acc rest Hne Hall Hnd Hn.
    destruct d as [|[k v] d']; [contradiction|].
    inversion Hall as [|? ? [Hk Hv] Hd']; subst. cbn [fst snd] in Hk, Hv.
    assert (Hfresh : ~ In k (map fst acc)).
    { cbn [map fst] in Hnd. apply NoDup_remove_2 in Hnd.
      intros Hin. apply Hnd. apply in_or_app. left. exact Hin. }
    assert (Hlen := length_member k v).
    rewrite parse_members_S. destruct d' as [|kv2 d''].
    + cbn [map join] in *. rewrite member_text.
      change (34 =? 34)%N with true. cbv iota.
      rewrite (scanstring_encode k _ Hk).
      rewrite (skip_ws_nonws 58%N _ eq_refl).
      change (58 =? 58)%N with true. cbv iota.
      rewrite (skip_ws_value_head _ (json_dumps_head v _ Hv)).
      rewrite (IHA v (125%N :: rest) Hv ltac:(lia) eq_refl).
      rewrite (skip_ws_nonws 125%N rest eq_refl).
      change (125 =? 125)%N with true. cbv iota.
      rewrite (dict_set_fresh acc k v Hfresh). reflexivity.
    + cbn [map] in Hn. rewrite length_join_cons in Hn.
      change (join (py ",") (map (dumps_member L) ((k, v) :: kv2 :: d'')))
        with (dumps_member L (k, v) ++
              py "," ++ join (py ",") (map (dumps_member L) (kv2 :: d''))).
      rewrite <- !app_assoc.
      change (py "," ++
              join (py ",") (map (dumps_member L) (kv2 :: d'')) ++ 125%N :: rest)
        with (44%N ::
              (join (py ",") (map (dumps_member L) (kv2 :: d'')) ++
               125%N :: rest)).
      rewrite member_text.
      change (34 =? 34)%N with true. cbv iota.
      rewrite (scanstring_encode k _ Hk).
      rewrite (skip_ws_nonws 58%N _ eq_refl).
      change (58 =? 58)%N with true. cbv iota.
      rewrite (skip_ws_value_head _ (json_dumps_head v _ Hv)).
      rewrite (IHA v (44%N :: _) Hv ltac:(lia) eq_refl).
      rewrite (skip_ws_nonws 44%N _ eq_refl).
      change (44 =? 125)%N with false. change (44 =? 44)%N with true.
      cbv iota.
      destruct (members_head (kv2 :: d'') (125%N :: rest) ltac:(discriminate))
        as [t E].
      rewrite E, (skip_ws_nonws 34%N t eq_refl), <- E.
      rewrite (dict_set_fresh acc k v Hfresh).
      rewrite (IHC (kv2 :: d'') (acc ++ [(k, v)]) rest ltac:(discriminate) Hd').
      * rewrite <- app_assoc. reflexivity.
      * rewrite map_app, <- app_assoc. exact Hnd.
      * cbn [map] in *. lia.
Qed.

(** [json.loads] reads back what [json.dumps] wrote. *)
Lemma json_loads_json_dumps (v : json) :
  wf_json L v -> json_loads L (json_dumps L v) = Some v.
Proof.
  intros Hw. unfold json_loads.
  assert (Hh := json_dumps_head v [] Hw). rewrite app_nil_r in Hh.
  rewrite (skip_ws_value_head _ Hh).
  destruct (scan_once_dumps (2 * List.length (json_dumps L v) + 2)) as [HA _].
  assert (H := HA v [] Hw ltac:(lia) eq_refl). rewrite app_nil_r in H.
  rewrite H. reflexivity.
Qed.

End Dumped.

(** * minify_content on JSON *)

(** X14: for a text read from a file that parses as JSON, the json
    branch of [minify_content] returns what [json.dumps] writes for the
    parsed value, without a warning; parsing the minified text gives the
    value that parsing the original gave (duplicate keys, escapes,
    surrogate pairs and white space apart, the two texts mean the same);
    and minifying the minified text again returns it unchanged.  The
    float conversions are asked to round-trip: [repr] of a float writes a
    number literal that [float] reads back as that float. *)
Theorem json_minify_round_trip (L : Libs) (content : str) (v : json) :
  repr_round_trips L ->
  valid_text content = true ->
  json_loads L content = Some v ->
  minify_content L content (py "json") = (json_dumps L v, []) /\
  json_loads L (fst (minify_content L content (py "json"))) =
    json_loads L content /\
  minify_content L (json_dumps L v) (py "json") = (json_dumps L v, []).
Proof.
  intros Hfloat Hvalid Hloads.
  assert (Hw : wf_json L v) by exact (json_loads_wf L Hfloat content v Hvalid Hloads).
  assert (Hback := json_loads_json_dumps L v Hw).
  assert (Hmin : forall c : str,
            json_loads L c = Some v ->
            minify_content L c (py "json") = (json_dumps L v, [])).
  { intros c Hc. unfold minify_content.
    change (str_in (py "json") [py "javascript"; py "typescript"]) with false.
    change (str_in (py "json") [py "css"; py "scss"]) with false.
    change (str_eqb (py "json") (py "html")) with false.
    change (str_eqb (py "json") (py "json")) with true.
    cbv iota. rewrite Hc. reflexivity. }
  split; [exact (Hmin content Hloads)|]. split.
  - rewrite (Hmin content Hloads). cbn [fst]. rewrite Hback, Hloads. reflexivity.
  - exact (Hmin (json_dumps L v) Hback).
Qed.

Lemma json_minify_round_trip_witness :
  let content :=
    pyq " { 'a' : 1, 'b': [ -20, 'h\u00e9\ud83d\ude00" ++ [233; 128512]%N ++
    pyq "', true, null, 0.0, {} ],
  'a' : 'z' } " in
  let v :=
    JObject
      [(py "a", JString (py "z"));
       (py "b",
        JArray [JInt (-20); JString [104; 233; 128512; 233; 128512]%N;
                JBool true; JNull; JFloat (S754_zero false); JObject []])] in
  minify_content demo_libs content (py "json") = (json_dumps demo_libs v, []) /\
  json_loads demo_libs (fst (minify_content demo_libs content (py "json"))) =
    json_loads demo_libs content /\
  minify_content demo_libs (json_dumps demo_libs v) (py "json") =
    (json_dumps demo_libs v, []).
Proof.
  intros content v.
  apply (json_minify_round_trip demo_libs content v).
  - intros lex. vm_compute. split; reflexivity.
  - vm_compute. reflexivity.
  - vm_compute. reflexivity.
Defined.

Example json_minify_example :
  minify_content demo_libs
    (pyq "{ 'a' : 1, 'b': [ -20, 'h\u00e9', true, null, {} ], 'a' : 'z' }")
    (py "json") =
  (pyq "{'a':'z','b':[-20,'h\u00e9',true,null,{}]}", []).
Proof. vm_compute. reflexivity. Qed.

(** * A warning *)

(** X15: for every file type but svelte, a warning from
    [minify_content] means that the text came back unchanged: when the
    minifier of the type raises (or the text is not JSON), the result is
    the original content and the one warning names the type. *)
Theorem minify_content_warning_returns_input (L : Libs)
  (content file_type m : str) (msgs : list message) :
  str_eqb file_type (py "svelte") = false ->
  minify_content L content file_type = (m, msgs) ->
  msgs <> [] ->
  m = content /\ msgs = [Warning_minification_failed file_type].
Proof.
  intros Hs Hm Hne.
  destruct (minify_content_fallback_is_original L content file_type Hs) as [H|H].
  - rewrite Hm in H. cbn [snd] in H. contradiction.
  - rewrite Hm in H. injection H as -> ->. split; reflexivity.
Qed.

Lemma minify_content_warning_returns_input_witness :
  pyq "{'a': oops}" = pyq "{'a': oops}" /\
  [Warning_minification_failed (py "json")] =
  [Warning_minification_failed (py "json")].
Proof.
  apply (minify_content_warning_returns_input demo_libs (pyq "{'a': oops}")
           (py "json") (pyq "{'a': oops}")
           [Warning_minification_failed (py "json")]).
  - reflexivity.
  - vm_compute. reflexivity.
  - discriminate.
Defined.

(** * What json.dumps writes is ASCII *)

Lemma ascii_only_app (a b : str) :
  ascii_only (a ++ b) = ascii_only a && ascii_only b.
Proof. apply forallb_app. Qed.

Lemma ascii_only_cons (c : char) (s : str) :
  (c < 128)%N -> ascii_only s = true -> ascii_only (c :: s) = true.
Proof.
  intros Hc Hs. unfold ascii_only in *. cbn [forallb].
  rewrite (proj2 (N.ltb_lt _ _) Hc), Hs. reflexivity.
Qed.

Lemma is_digit_small (c : char) : is_digit c = true -> (c < 128)%N.
Proof.
  unfold is_digit. intros H. apply andb_true_iff in H as [_ H].
  apply N.leb_le in H. lia.
Qed.

Lemma span_digits_ascii (s : str) : ascii_only (fst (span_digits s)) = true.
Proof.
  induction s as [|c s IH]; [reflexivity|]. cbn [span_digits].
  destruct (is_digit c) eqn:Ec; [|reflexivity].
  destruct (span_digits s) as [ds r]. cbn [fst] in *.
  apply ascii_only_cons; [exact (is_digit_small c Ec)|exact IH].
Qed.

Lemma scan_int_part_ascii (s ip r : str) :
  scan_int_part s = Some (ip, r) -> ascii_only ip = true.
Proof.
  destruct s as [|c t]; [discriminate|]. cbn [scan_int_part].
  destruct ((49 <=? c) && (c <=? 57))%N eqn:E1.
  - assert (Hd := span_digits_ascii t). destruct (span_digits t) as [ds r1].
    cbn [fst] in Hd. intros H. injection H as <- _.
    apply andb_true_iff in E1 as [_ E1]. apply N.leb_le in E1.
    apply ascii_only_cons; [lia|exact Hd].
  - destruct (c =? 48)%N eqn:E0; [|discriminate].
    apply N.eqb_eq in E0. subst c. intros H. injection H as <- _. reflexivity.
Qed.

Lemma scan_frac_ascii (r : str) : ascii_only (fst (scan_frac r)) = true.
Proof.
  destruct r as [|p [|d t]]; try reflexivity. cbn [scan_frac].
  destruct ((p =? 46)%N && is_digit d) eqn:E; [|reflexivity].
  apply andb_true_iff in E as [Ep Ed]. apply N.eqb_eq in Ep. subst p.
  assert (Hd := span_digits_ascii t). destruct (span_digits t) as [fd r2].
  cbn [fst] in *.
  apply ascii_only_cons; [reflexivity|].
  apply ascii_only_cons; [exact (is_digit_small d Ed)|exact Hd].
Qed.

Lemma scan_exp_ascii (r : str) : ascii_only (fst (scan_exp r)) = true.
Proof.
  destruct r as [|e t]; [reflexivity|]. cbn [scan_exp].
  destruct ((e =? 101) || (e =? 69))%N eqn:Ee; [|reflexivity].
  assert (He : (e < 128)%N).
  { apply orb_true_iff in Ee as [Ee|Ee]; apply N.eqb_eq in Ee; subst e;
      reflexivity. }
  assert (Hsg : forall sg t2 : str,
            (match t with
             | x :: t2 =>
                 if ((x =? 45) || (x =? 43))%N then ([x], t2) else ([], t)
             | [] => ([], t)
             end) = (sg, t2) -> ascii_only sg = true).
  { intros sg t2. destruct t as [|x t'].
    - intros E. injection E as <- _. reflexivity.
    - destruct ((x =? 45) || (x =? 43))%N eqn:Ex; intros E;
        injection E as <- _; [|reflexivity].
      apply orb_true_iff in Ex as [Ex|Ex]; apply N.eqb_eq in Ex; subst x;
        reflexivity. }
  destruct (match t with
            | x :: t2 =>
                if ((x =? 45) || (x =? 43))%N then ([x], t2) else ([], t)
            | [] => ([], t)
            end) as [sg t2] eqn:E.
  specialize (Hsg sg t2 eq_refl).
  assert (Hd := span_digits_ascii t2). destruct (span_digits t2) as [ed r3].
  cbn [fst] in Hd. destruct ed as [|d ed]; [reflexivity|]. cbn [fst].
  apply ascii_only_cons; [exact He|].
  rewrite ascii_only_app, Hsg, Hd. reflexivity.
Qed.

(** A number literal is written in ASCII. *)
Lemma scan_number_ascii (s lex r : str) (b : bool) :
  scan_number s = Some (b, lex, r) -> ascii_only lex = true.
Proof.
  unfold scan_number.
  assert (Hsign : forall sign s1 : str,
            (match s with
             | c :: t => if (c =? 45)%N then ([c], t) else ([], s)
             | [] => ([], s)
             end) = (sign, s1) -> ascii_only sign = true).
  { intros sign s1. destruct s as [|c t].
    - intros E. injection E as <- _. reflexivity.
    - destruct (c =? 45)%N eqn:Ec; intros E; injection E as <- _;
        [|reflexivity].
      apply N.eqb_eq in Ec. subst c. reflexivity. }
  destruct (match s with
            | c :: t => if (c =? 45)%N then ([c], t) else ([], s)
            | [] => ([], s)
            end) as [sign s1] eqn:E.
  specialize (Hsign sign s1 eq_refl).
  destruct (scan_int_part s1) as [[ip r1]|] eqn:Ei; [|discriminate].
  apply scan_int_part_ascii in Ei.
  assert (Hf := scan_frac_ascii r1). destruct (scan_frac r1) as [frac r2].
  assert (He := scan_exp_ascii r2). destruct (scan_exp r2) as [ex r3].
  cbn [fst] in Hf, He.
  intros H. injection H as _ <- _.
  rewrite !ascii_only_app, Hsign, Ei, Hf, He. reflexivity.
Qed.

Lemma uint_chars_ascii (d : Decimal.uint) : ascii_only (uint_chars d) = true.
Proof.
  induction d; cbn [uint_chars]; [reflexivity|..];
    (apply ascii_only_cons; [reflexivity|assumption]).
Qed.

Lemma str_of_Z_ascii (z : Z) : ascii_only (str_of_Z z) = true.
Proof.
  destruct z as [|p|p]; unfold str_of_Z, str_of_N.
  - apply uint_chars_ascii.
  - apply uint_chars_ascii.
  - apply ascii_only_cons; [reflexivity|apply uint_chars_ascii].
Qed.

Lemma hex_digit_small (n : N) : (n < 16)%N -> (hex_digit n < 128)%N.
Proof.
  intros H. unfold hex_digit. destruct (n <? 10)%N; lia.
Qed.

Lemma u_escape_ascii (c : N) :
  (c < 65536)%N -> ascii_only (u_escape c) = true.
Proof.
  intros H. unfold u_escape.
  assert (H1 : (c / 4096 < 16)%N)
    by (apply N.Div0.div_lt_upper_bound; lia).
  assert (H2 : ((c / 256) mod 16 < 16)%N) by (apply N.mod_lt; discriminate).
  assert (H3 : ((c / 16) mod 16 < 16)%N) by (apply N.mod_lt; discriminate).
  assert (H4 : (c mod 16 < 16)%N) by (apply N.mod_lt; discriminate).
  repeat (apply ascii_only_cons;
          [first [reflexivity | apply hex_digit_small; assumption]|]).
  reflexivity.
Qed.

Lemma escape_char_ascii (c : char) :
  (c < 1114112)%N -> ascii_only (escape_char c) = true.
Proof.
  intros H. unfold escape_char.
  repeat (destruct (c =? _)%N; [reflexivity|]).
  destruct ((32 <=? c) && (c <=? 126))%N eqn:E.
  { apply andb_true_iff in E as [_ E]. apply N.leb_le in E.
    apply ascii_only_cons; [lia|reflexivity]. }
  destruct (c <? 65536)%N eqn:E2.
  { apply N.ltb_lt in E2. apply u_escape_ascii. exact E2. }
  apply N.ltb_ge in E2.
  assert (Hq : ((c - 65536) / 1024 < 1024)%N)
    by (apply N.Div0.div_lt_upper_bound; lia).
  assert (Hr : ((c - 65536) mod 1024 < 1024)%N)
    by (apply N.mod_lt; discriminate).
  rewrite ascii_only_app, !u_escape_ascii; [reflexivity|lia|lia].
Qed.

Lemma wf_str_code_points (s : str) :
  wf_str s = true -> Forall (fun c => c < 1114112)%N s.
Proof.
  induction s as [|c t IH]; [constructor|]. cbn [wf_str]. intros H.
  apply andb_true_iff in H as [H H3]. apply andb_true_iff in H as [H1 _].
  constructor; [apply N.ltb_lt; exact H1|exact (IH H3)].
Qed.

Lemma encode_basestring_ascii_ascii (s : str) :
  wf_str s = true -> ascii_only (encode_basestring_ascii s) = true.
Proof.
  intros H. apply wf_str_code_points in H. unfold encode_basestring_ascii.
  rewrite !ascii_only_app. cbn [ascii_only forallb andb].
  change (34 <? 128)%N with true. cbn [andb]. rewrite andb_true_r.
  induction H as [|c t Hc _ IH]; [reflexivity|].
  cbn [flat_map]. rewrite ascii_only_app, (escape_char_ascii c Hc), IH.
  reflexivity.
Qed.

Lemma floatstr_ascii (L : Libs) (f : float) :
  wf_float L f -> ascii_only (floatstr L f) = true.
Proof.
  destruct f as [s|[|]| |s m e]; cbn [wf_float floatstr]; try reflexivity;
    intros [H _]; exact (scan_number_ascii _ _ _ _ H).
Qed.

Lemma join_ascii (sep : str) (l : list str) :
  ascii_only sep = true ->
  Forall (fun w => ascii_only w = true) l ->
  ascii_only (join sep l) = true.
Proof.
  intros Hsep H. induction H as [|w ws Hw Hws IH]; [reflexivity|].
  destruct ws as [|w' ws']; [exact Hw|].
  change (join sep (w :: w' :: ws')) with (w ++ sep ++ join sep (w' :: ws')).
  rewrite !ascii_only_app, Hw, Hsep, IH. reflexivity.
Qed.

Lemma json_ind' (P : json -> Prop)
  (HNull : P JNull)
  (HBool : forall b, P (JBool b))
  (HInt : forall z, P (JInt z))
  (HFloat : forall f, P (JFloat f))
  (HString : forall s, P (JString s))
  (HArray : forall l, Forall P l -> P (JArray l))
  (HObject : forall d, Forall (fun kv => P (snd kv)) d -> P (JObject d)) :
  forall v, P v.
Proof.
  fix IH 1. intros [|b|z|f|s|l|d].
  - exact HNull.
  - apply HBool.
  - apply HInt.
  - apply HFloat.
  - apply HString.
  - apply HArray. induction l as [|v l IHl]; constructor;
      [apply IH|exact IHl].
  - apply HObject. induction d as [|[k v] d IHd]; constructor;
      [apply IH|exact IHd].
Qed.

(** With [ensure_ascii], which [json.dumps] has by default, the text
    written for a parsed value is ASCII. *)
Lemma json_dumps_ascii (L : Libs) (v : json) :
  wf_json L v -> ascii_only (json_dumps L v) = true.
Proof.
  induction v as [|b|z|f|s|l IHl|d IHd] using json_ind'; intros Hw;
    inversion Hw; subst; cbn [json_dumps].
  - reflexivity.
  - destruct b; reflexivity.
  - apply str_of_Z_ascii.
  - apply floatstr_ascii. assumption.
  - apply encode_basestring_ascii_ascii. assumption.
  - rewrite !ascii_only_app.
    rewrite join_ascii; [reflexivity|reflexivity|].
    apply Forall_map.
    match goal with H : Forall (wf_json L) l |- _ => rename H into Hl end.
    induction l as [|x l IH]; constructor.
    + apply (Forall_inv IHl). exact (Forall_inv Hl).
    + apply IH; [exact (Forall_inv_tail IHl)|constructor;
                 exact (Forall_inv_tail Hl)|exact (Forall_inv_tail Hl)].
  - rewrite !ascii_only_app.
    rewrite join_ascii; [reflexivity|reflexivity|].
    apply Forall_map.
    match goal with
    | H : Forall (fun kv => wf_str (fst kv) = true /\ wf_json L (snd kv)) d
      |- _ => rename H into Hd
    end.
    clear Hw.
    match goal with H : NoDup _ |- _ => clear H end.
    induction d as [|kv d IH]; constructor.
    + destruct (Forall_inv Hd) as [Hk Hv].
      rewrite !ascii_only_app, (encode_basestring_ascii_ascii _ Hk).
      rewrite (Forall_inv IHd Hv). reflexivity.
    + apply IH; [exact (Forall_inv_tail IHd)|exact (Forall_inv_tail Hd)].
Qed.

Lemma utf8_encode_ascii (s : str) :
  ascii_only s = true -> utf8_encode s = Some s.
Proof.
  induction s as [|c s IH]; [reflexivity|].
  unfold ascii_only. cbn [forallb utf8_encode]. intros H.
  apply andb_true_iff in H as [Hc Hs].
  unfold utf8_encode_char. rewrite Hc, (IH Hs). reflexivity.
Qed.

Lemma minify_content_json (L : Libs) (content : str) (v : json) :
  json_loads L content = Some v ->
  minify_content L content (py "json") = (json_dumps L v, []).
Proof.
  intros Hc. unfold minify_content.
  change (str_in (py "json") [py "javascript"; py "typescript"]) with false.
  change (str_in (py "json") [py "css"; py "scss"]) with false.
  change (str_eqb (py "json") (py "html")) with false.
  change (str_eqb (py "json") (py "json")) with true.
  cbv iota. rewrite Hc. reflexivity.
Qed.

(** X16: the minified text of a JSON file is ASCII, whatever characters
    the file holds: [json.dumps] escapes every other character (a
    character beyond the basic plane as a pair of surrogate escapes).  So
    the size in bytes that the run counts for the minified content is its
    number of characters, and encoding it never fails.  The float
    conversions are asked to round-trip, as a number literal is ASCII. *)
Theorem json_minified_is_ascii (L : Libs) (content : str) (v : json) :
  repr_round_trips L ->
  valid_text content = true ->
  json_loads L content = Some v ->
  ascii_only (fst (minify_content L content (py "json"))) = true /\
  utf8_len (fst (minify_content L content (py "json"))) =
    Ok (Z.of_nat (List.length (fst (minify_content L content (py "json"))))).
Proof.
  intros Hfloat Hvalid Hloads.
  assert (Hw : wf_json L v)
    by exact (json_loads_wf L Hfloat content v Hvalid Hloads).
  rewrite (minify_content_json L content v Hloads). cbn [fst].
  assert (Ha := json_dumps_ascii L v Hw).
  split; [exact Ha|]. unfold utf8_len.
  rewrite (utf8_encode_ascii _ Ha). reflexivity.
Qed.

Lemma json_minified_is_ascii_witness :
  let content := pyq "{ 'k" ++ [233; 128512]%N ++ pyq "' : [1.5, 'x'] }" in
  ascii_only (fst (minify_content demo_libs content (py "json"))) = true /\
  utf8_len (fst (minify_content demo_libs content (py "json"))) =
    Ok (Z.of_nat
          (List.length (fst (minify_content demo_libs content (py "json"))))).
Proof.
  intros content.
  apply (json_minified_is_ascii demo_libs content
           (JObject [([107; 233; 128512]%N,
                      JArray [JFloat (float_of_literal demo_libs (py "1.5"));
                              JString (py "x")])])).
  - intros lex. vm_compute. split; reflexivity.
  - vm_compute. reflexivity.
  - vm_compute. reflexivity.
Defined.

(** * The lines of the structure section *)

Lemma concat_repeat_spaces (k : nat) :
  List.concat (repeat (py "  ") k) = repeat 32%N (2 * k).
Proof.
  induction k as [|k IH]; [reflexivity|].
  cbn [repeat List.concat]. rewrite IH.
  replace (2 * S k) with (S (S (2 * k))) by lia. reflexivity.
Qed.

Lemma os_path_basename_under (dir : str) (names : list str) :
  forallb valid_name names = true -> names <> [] ->
  os_path_basename (path_under dir names) = last names [].
Proof.
  intros Hn Hne.
  destruct (exists_last Hne) as [ns [n ->]].
  rewrite forallb_app in Hn. apply andb_true_iff in Hn as [_ Hn].
  cbn [forallb] in Hn. rewrite andb_true_r in Hn.
  unfold path_under. rewrite fold_left_app. cbn [fold_left].
  rewrite (os_path_basename_join _ n Hn), last_last. reflexivity.
Qed.

(** X12: for a root given as a single path component, the lines of the
    structure section are indented by the depth of the directory they
    belong to: the line of the directory [root/n1/.../nk] is [nk/] after
    2k spaces and a dash, and the line of a file of that directory is the
    file name after 2k+2 spaces and a dash (the files of the root itself
    after two spaces). *)
Theorem structure_indent_is_depth (L : Libs) (wd dir : str) (excl : list str)
  (g : GitignoreFilter) (names : list str) (es' : list entry)
  (i : structure_item) :
  dir <> [] -> sep_free dir ->
  forallb valid_name names = true ->
  In i (structure_of_visit L wd dir excl g (path_under dir names, es')) ->
  (names <> [] /\
   render_item i =
     repeat 32%N (2 * List.length names) ++ py "- " ++ last names [] ++
     py "/" ++ nl) \/
  (exists file,
     In file (file_names es') /\
     render_item i =
       repeat 32%N (2 * List.length names + 2) ++ py "- " ++ file ++ nl).
Proof.
  intros Hd Hsf Hn Hin.
  assert (Hlevel : count_char sep (replace_with_empty dir (path_under dir names))
                   = List.length names).
  { unfold replace_with_empty.
    rewrite (count_sep_replace_drop dir _ 0 Hsf eq_refl).
    rewrite (count_sep_path_under dir names Hd (sep_free_not_endswith dir Hsf) Hn).
    rewrite (count_char_sep_free dir Hsf). reflexivity. }
  unfold structure_of_visit in Hin. rewrite Hlevel, concat_repeat_spaces in Hin.
  apply in_app_or in Hin as [Hin|Hin].
  - left.
    destruct (str_eqb (os_path_relpath wd (path_under dir names) dir) (py "."))
      eqn:E; [destruct Hin|].
    destruct Hin as [<-|[]].
    assert (Hne : names <> []).
    { intros ->. cbn [path_under fold_left] in E.
      rewrite os_path_relpath_self, str_eqb_refl in E. discriminate E. }
    split; [exact Hne|]. cbn [render_item].
    rewrite (os_path_basename_under dir names Hn Hne). reflexivity.
  - right. apply in_flat_map in Hin as [file [Hf Hin]].
    destruct (should_include_file L wd _ excl g); [|destruct Hin].
    destruct Hin as [<-|[]]. exists file.
    split; [exact (proj1 (In_sorted _ _) Hf)|]. cbn [render_item].
    rewrite repeat_app, <- app_assoc. reflexivity.
Qed.

Lemma structure_indent_is_depth_witness :
  let names := [py "src"; py "lib"] in
  let es' := [File (py "a.ts") (Ok (py "x"))] in
  let i := Item_file (py "    ") (py "proj/src/lib/a.ts") (py "a.ts") in
  (names <> [] /\
   render_item i =
     repeat 32%N (2 * List.length names) ++ py "- " ++ last names [] ++
     py "/" ++ nl) \/
  (exists file,
     In file (file_names es') /\
     render_item i =
       repeat 32%N (2 * List.length names + 2) ++ py "- " ++ file ++ nl).
Proof.
  intros names es' i.
  apply (structure_indent_is_depth demo_libs (py "/home/u") (py "proj") []
           {| root_dir := py "proj"; spec := None |} names es' i).
  - discriminate.
  - reflexivity.
  - reflexivity.
  - vm_compute. right. left. reflexivity.
Defined.

Example structure_lines_example :
  map render_item
    (structure_items demo_libs (py "/home/u") (py "proj")
       [File (py "README.md") (Ok (py "r"));
        Dir (py "src") [File (py "a.ts") (Ok (py "x"));
                        Dir (py "lib") [File (py "b.ts") (Ok (py "y"))]]] []
       {| root_dir := py "proj"; spec := None |}) =
  [py "  - README.md" ++ nl;
   py "  - src/" ++ nl;
   py "    - a.ts" ++ nl;
   py "    - lib/" ++ nl;
   py "      - b.ts" ++ nl].
Proof. vm_compute. reflexivity. Qed.

(** A root written with a final separator shifts the structure: its
    sub-directories are indented like the root itself. *)
Example trailing_separator_flattens_first_level :
  map render_item
    (structure_items demo_libs (py "/home/u") (py "proj/")
       [Dir (py "src") [File (py "a.ts") (Ok (py "x"))]] []
       {| root_dir := py "proj/"; spec := None |}) =
  [py "- src/" ++ nl; py "  - a.ts" ++ nl].
Proof. vm_compute. reflexivity. Qed.

(** * C5: a style minifier that raises in a svelte file *)

(** C5 (the code departs from the claim): for a svelte file with a
    comment and a style block on which the style minifier raises (as
    csscompressor does on a [url(data:] that is never closed), the
    exception is caught and the warning printed, but what
    [minify_content] returns is the text with its comment already
    removed, not the original content.  This holds whatever the
    minifiers do elsewhere. *)
Theorem minify_content_svelte_failure_not_original (L : Libs) :
  let body := py "a{background:url(data:x}" in
  let content := py "<!-- note --><style>" ++ body ++ py "</style>" in
  csscompressor_compress L body = None ->
  minify_content L content (py "svelte") =
    (py "<style>" ++ body ++ py "</style>",
     [Warning_minification_failed (py "svelte")]) /\
  fst (minify_content L content (py "svelte")) <> content.
Proof.
  intros body content Hraise.
  assert (E : minify_content L content (py "svelte") =
              (py "<style>" ++ body ++ py "</style>",
               [Warning_minification_failed (py "svelte")])).
  { rewrite minify_content_svelte_unfold.
    replace (sub_comments content) with (py "<style>" ++ body ++ py "</style>")
      by (vm_compute; reflexivity).
    unfold sub_blocks at 1.
    rewrite sub_blocks_from_none by (vm_compute; reflexivity).
    change (py "<style>" ++ body ++ py "</style>")
      with (py "<style" ++ [] ++ 62%N :: (body ++ py "</style>")).
    rewrite (sub_blocks_head (csscompressor_compress L) (py "<style")
               (py "</style>") [] (body ++ py "</style>") 24)
      by (discriminate || (vm_compute; reflexivity)).
    change (firstn 24 (body ++ py "</style>")) with body.
    rewrite Hraise. reflexivity. }
  split; [exact E|]. rewrite E. vm_compute. discriminate.
Qed.

Lemma minify_content_svelte_failure_not_original_witness :
  let body := py "a{background:url(data:x}" in
  let content := py "<!-- note --><style>" ++ body ++ py "</style>" in
  minify_content strict_css_libs content (py "svelte") =
    (py "<style>" ++ body ++ py "</style>",
     [Warning_minification_failed (py "svelte")]) /\
  fst (minify_content strict_css_libs content (py "svelte")) <> content.
Proof.
  intros body content.
  apply (minify_content_svelte_failure_not_original strict_css_libs).
  vm_compute. reflexivity.
Defined.

(** * C4: the structure pass and node_modules *)








(** A package beneath [node_modules] is visited by the content pass,
    not by the structure pass. *)
Example node_modules_package_not_visited :
  let es := [Dir (py "node_modules")
               [Dir (py "left-pad") [File (py "index.js") (Ok (py "m"))]];
             File (py "a.txt") (Ok (py "hi"))] in
  let g := fst (new_GitignoreFilter (py "proj") es) in
  map fst (os_walk (keep_dir demo_libs (py "/home/u") [] g) (py "proj") es) =
    [py "proj"] /\
  map fst (os_walk (fun _ _ => true) (py "proj") es) =
    [py "proj"; py "proj/node_modules"; py "proj/node_modules/left-pad"] /\
  path_under (py "proj") [py "node_modules"; py "left-pad"] =
    py "proj/node_modules/left-pad".
Proof. vm_compute. repeat split. Qed.

(** * C2: which listed files have a block *)




(** ** Ignore rules that are closed under descent *)








(** In the tree of the witness the ignored directories are left out of
    both sections, the file that does not decode and the empty file are
    listed and have no block. *)
Example listed_and_emitted_example :
  let es := [File (py ".gitignore") (Ok (py "dist"));
             File (py "b.txt") (Ok (py "hello"));
             File (py "data.bin") (Raise UnicodeDecodeError);
             File (py "empty.md") (Ok []);
             Dir (py "dist") [File (py "out.js") (Ok (py "o"))];
             Dir (py "node_modules") [File (py "x.js") (Ok (py "x"))];
             Dir (py "src") [File (py "a.js") (Ok (py "a"));
                             Dir (py "dist") [File (py "c.js") (Ok (py "c"))]]] in
  let g := fst (new_GitignoreFilter (py "proj") es) in
  structure_file_paths
    (structure_items component_libs (py "/home/u") (py "proj") es [] g) =
    [py "proj/b.txt"; py "proj/data.bin"; py "proj/empty.md"; py "proj/src/a.js"] /\
  map fst (blocks (content_pass component_libs (py "/home/u") (py "proj") es [] g
                     true empty_state)) =
    [py "proj/b.txt"; py "proj/src/a.js"].
Proof. vm_compute. split; reflexivity. Qed.

(** * The block substitutions on a text made of blocks *)













(** * What the white-space steps leave in place *)
















(** * C9: the opening tags of a svelte file *)








Example svelte_two_scripts_example :
  minify_content demo_libs
    (pyq "<p>hi</p><script context='module'>let a = 1;</script>
<!-- greeting -->
<script lang='ts'>let x = 1;</script>
<p>  hi  </p>
<style lang='scss'>p { color: red }</style>
") (py "svelte") =
  (pyq "<p>hi</p><script>let a = 1;</script><script>let x = 1;</script><p> hi </p><style>p { color: red }</style>", []).
Proof. vm_compute. reflexivity. Qed.

(** * C7: the value of a minified JSON file *)

(** C7: for a text read from a file that [json.loads] accepts, parsing
    what the json branch of [minify_content] returns gives the value
    that parsing the original text gives, and no warning is printed.
    The text holds what a file decoded as UTF-8 can hold, and [repr] of a
    float is taken to write a number literal that [float] reads back as
    that float. *)
Theorem json_minify_preserves_value (L : Libs) (content : str) (v : json) :
  repr_round_trips L ->
  valid_text content = true ->
  json_loads L content = Some v ->
  snd (minify_content L content (py "json")) = [] /\
  json_loads L (fst (minify_content L content (py "json"))) =
    json_loads L content.
Proof.
  intros Hfloat Hvalid Hloads.
  rewrite (minify_content_json L content v Hloads). cbn [fst snd].
  split; [reflexivity|]. rewrite Hloads.
  apply json_loads_json_dumps.
  exact (json_loads_wf L Hfloat content v Hvalid Hloads).
Qed.

Lemma json_minify_preserves_value_witness :
  let content :=
    pyq "{ 'name' : 'caf\u00e9', 'tags': [1, -2, 3.0, true, null],
  'name' : 'bar' }" in
  snd (minify_content demo_libs content (py "json")) = [] /\
  json_loads demo_libs (fst (minify_content demo_libs content (py "json"))) =
    json_loads demo_libs content.
Proof.
  intros content.
  apply (json_minify_preserves_value demo_libs content
           (JObject
              [(py "name", JString (py "bar"));
               (py "tags",
                JArray [JInt 1; JInt (-2); JFloat (S754_zero false);
                        JBool true; JNull])])).
  - intros lex. vm_compute. split; reflexivity.
  - vm_compute. reflexivity.
  - vm_compute. reflexivity.
Defined.
